(** * n8n-workflows: the indexing and search engine, embedded in Rocq

    A shallow embedding of [src/database.js] (class [WorkflowDatabase],
    with its query builder [buildFTSQuery]), of the search route, the
    two listings and [sanitizeNodeId] of [src/http-server.js] and of the
    helpers [findSimilar], [getComplexityLevel], [extractIntegrations]
    and [determineTriggerType] of the MCP server, together with the
    properties the design document states about them and further
    properties read off the code.

    Conventions of the embedding.
    - JavaScript strings are [string]; case mapping and white space are
      those of the ASCII range.  A JavaScript object used as a map with
      fixed keys is an association list in the order of its keys.
    - A parsed JSON document is a value of [json]; [undefined] is [None]
      of [option json].
    - A JavaScript exception is [Throw]; [try]/[catch] is a match on the
      outcome.
    - JavaScript numbers that are array lengths or SQL integers are [nat]
      or [Z]; the numbers the code computes with are IEEE 754 doubles
      ([jsnum]): NaN, the two infinities, and the finite doubles as the
      rationals they stand for, every operation rounded to the nearest
      double, ties to even.  The sign of zero is not kept; a JSON
      number is an integer.
    - The SQLite store is a record of two row lists, the [workflows]
      table and the [workflows_fts] table, with the three triggers of
      [createTables] as functions on the shadow table.  A row has the
      columns of the schema, each of the type the schema names. *)

From Stdlib Require Import String Ascii List Bool ZArith QArith Qround Qabs Qpower.
From Stdlib Require Import Lia Arith Permutation Sorted DecimalString Lqa.
Import ListNotations.
Open Scope string_scope.

Set Implicit Arguments.

(** ** Outcomes: a value or a thrown exception *)

Inductive outcome (A : Type) : Type :=
| Return (a : A)
| Throw (msg : string).

Arguments Return {A} a.
Arguments Throw {A} msg.

Definition bind {A B : Type} (m : outcome A) (k : A -> outcome B) : outcome B :=
  match m with
  | Return a => k a
  | Throw e => Throw e
  end.

Notation "x <- m ;; k" := (bind m (fun x => k))
  (at level 61, m at next level, right associativity).

(** ** String primitives of the JavaScript runtime *)

Module JsString.

(** [s.includes(needle)] *)
Fixpoint includes (s needle : string) : bool :=
  if prefix needle s then true
  else match s with
       | EmptyString => false
       | String _ s' => includes s' needle
       end.

(** [s.startsWith(p)] *)
Definition startsWith (s p : string) : bool := prefix p s.

(** [s.endsWith(p)] *)
Fixpoint endsWith (s p : string) : bool :=
  if String.eqb s p then true
  else match s with
       | EmptyString => false
       | String _ s' => endsWith s' p
       end.

(** [s.split(sep)] for a one-character separator: never empty. *)
Fixpoint split (sep : ascii) (s : string) : list string :=
  match s with
  | EmptyString => [EmptyString]
  | String c s' =>
      if Ascii.eqb c sep then EmptyString :: split sep s'
      else match split sep s' with
           | [] => [String c EmptyString]
           | h :: t => String c h :: t
           end
  end.

(** [s.slice(n)] *)
Fixpoint slice (n : nat) (s : string) : string :=
  match n, s with
  | O, _ => s
  | S n', String _ s' => slice n' s'
  | S _, EmptyString => EmptyString
  end.

(** [s.replace(pat, rep)] for a string pattern, and for a regular
    expression without the [g] flag that matches one literal text:
    the first occurrence only. *)
Fixpoint replace (pat rep s : string) : string :=
  if prefix pat s then rep ++ slice (String.length pat) s
  else match s with
       | EmptyString => EmptyString
       | String c s' => String c (replace pat rep s')
       end.

Definition is_digit (c : ascii) : bool :=
  let n := nat_of_ascii c in (48 <=? n)%nat && (n <=? 57)%nat.

Definition is_lower (c : ascii) : bool :=
  let n := nat_of_ascii c in (97 <=? n)%nat && (n <=? 122)%nat.

Definition is_upper (c : ascii) : bool :=
  let n := nat_of_ascii c in (65 <=? n)%nat && (n <=? 90)%nat.

Definition is_space (c : ascii) : bool :=
  let n := nat_of_ascii c in
  (n =? 32)%nat || ((9 <=? n)%nat && (n <=? 13)%nat).

Definition upper_char (c : ascii) : ascii :=
  if is_lower c then ascii_of_nat (nat_of_ascii c - 32) else c.

Definition lower_char (c : ascii) : ascii :=
  if is_upper c then ascii_of_nat (nat_of_ascii c + 32) else c.

Fixpoint map_chars (f : ascii -> ascii) (s : string) : string :=
  match s with
  | EmptyString => EmptyString
  | String c s' => String (f c) (map_chars f s')
  end.

Definition toLowerCase : string -> string := map_chars lower_char.

(** [s.charAt(0).toUpperCase() + s.slice(1)] *)
Definition capitalize (s : string) : string :=
  match s with
  | EmptyString => EmptyString
  | String c s' => String (upper_char c) s'
  end.

Fixpoint all_chars (p : ascii -> bool) (s : string) : bool :=
  match s with
  | EmptyString => true
  | String c s' => p c && all_chars p s'
  end.

(** [/^\d+$/.test(s)] *)
Definition all_digits (s : string) : bool :=
  negb (String.eqb s EmptyString) && all_chars is_digit s.

Fixpoint trimStart (s : string) : string :=
  match s with
  | EmptyString => EmptyString
  | String c s' => if is_space c then trimStart s' else s
  end.

Fixpoint trimEnd (s : string) : string :=
  match s with
  | EmptyString => EmptyString
  | String c s' =>
      match trimEnd s' with
      | EmptyString => if is_space c then EmptyString else String c EmptyString
      | t => String c t
      end
  end.

(** [s.trim()] *)
Definition trim (s : string) : string := trimEnd (trimStart s).

(** [parts.join(sep)] *)
Definition join (sep : string) (parts : list string) : string :=
  String.concat sep parts.

(** [String(n)] for a non-negative integer. *)
Definition of_nat (n : nat) : string := NilZero.string_of_uint (Nat.to_uint n).

End JsString.

(** ** Parsed JSON documents

    Numbers are written as integers: the code below only asks whether a
    number is zero and whether a value is a number. *)

#[warnings="-register-all"]
Inductive json : Type :=
| JNull
| JBool (b : bool)
| JNum (z : Z)
| JStr (s : string)
| JArr (items : list json)
| JObj (fields : list (string * json)).

(** [JSON.parse] keeps the last of several equal keys. *)
Fixpoint assoc_last (k : string) (fields : list (string * json)) : option json :=
  match fields with
  | [] => None
  | (k', v) :: rest =>
      match assoc_last k rest with
      | Some v' => Some v'
      | None => if String.eqb k k' then Some v else None
      end
  end.

(** [v.k] for one of the keys the analyzer reads ([id], [name], [active],
    [nodes], [connections], [tags], [createdAt], [updatedAt], [type]):
    reading a property of [null] throws, a value that is not an object
    has none of them. *)
Definition get_prop (v : json) (k : string) : outcome (option json) :=
  match v with
  | JNull => Throw "TypeError: Cannot read properties of null"
  | JObj fields => Return (assoc_last k fields)
  | _ => Return None
  end.

Definition truthy (v : option json) : bool :=
  match v with
  | None => false
  | Some JNull => false
  | Some (JBool b) => b
  | Some (JNum z) => negb (z =? 0)%Z
  | Some (JStr s) => negb (String.eqb s "")
  | Some (JArr _) => true
  | Some (JObj _) => true
  end.

(** [v || d] *)
Definition or_default (v : option json) (d : json) : json :=
  match v with
  | Some x => if truthy v then x else d
  | None => d
  end.

(** [v?.trim()] *)
Definition optional_trim (v : option json) : outcome (option string) :=
  match v with
  | None => Return None
  | Some JNull => Return None
  | Some (JStr s) => Return (Some (JsString.trim s))
  | Some _ => Throw "TypeError: data.name?.trim is not a function"
  end.

(** [forEach] with a callback that may throw. *)
Fixpoint forEach {S A : Type} (f : S -> A -> outcome S) (l : list A) (s : S)
  : outcome S :=
  match l with
  | [] => Return s
  | a :: l' => s' <- f s a ;; forEach f l' s'
  end.

(** A JavaScript [Set] of strings: insertion order, no duplicates. *)
Definition Set_has (x : string) (s : list string) : bool :=
  existsb (String.eqb x) s.

Definition Set_add (x : string) (s : list string) : list string :=
  if Set_has x s then s else (s ++ [x])%list.

(** ** The document analyzer (database.js) *)

(** What the file system reports for one entry of the corpus directory:
    the result of [fs.readJsonSync], the size of [fs.statSync] and the
    digest of [getFileHash]. *)
Record corpus_file : Type := {
  file_name : string;
  file_json : outcome json;
  file_size_bytes : nat;
  file_md5 : string
}.

(** The object [analyzeWorkflow] builds. *)
Record workflow : Type := {
  wf_filename : string;
  wf_name : string;
  wf_workflow_id : json;
  wf_active : json;
  wf_nodes : list json;
  wf_connections : json;
  wf_tags : json;
  wf_created_at : json;
  wf_updated_at : json;
  wf_file_hash : string;
  wf_file_size : nat;
  wf_node_count : nat;
  wf_complexity : string;
  wf_trigger_type : string;
  wf_integrations : list string;
  wf_description : string
}.

Definition specialTerms : list (string * string) :=
  [("http", "HTTP"); ("api", "API"); ("webhook", "Webhook");
   ("automation", "Automation"); ("automate", "Automate");
   ("scheduled", "Scheduled"); ("triggered", "Triggered");
   ("manual", "Manual")].

(** [specialTerms[lower]]: the table is an object literal, so the one
    lower-case name without underscore it inherits, [constructor], is
    found too and prints as the native function when joined. *)
Definition specialTerms_get (lower : string) : option string :=
  match find (fun kv => String.eqb (fst kv) lower) specialTerms with
  | Some kv => Some (snd kv)
  | None =>
      if String.eqb lower "constructor"
      then Some "function Object() { [native code] }"
      else None
  end.

Definition formatWorkflowName (filename : string) : string :=
  let name := JsString.replace ".json" "" filename in
  let parts := JsString.split "_" name in
  let startIndex :=
    match parts with
    | p0 :: _ => if JsString.all_digits p0 then 1%nat else 0%nat
    | [] => 0%nat
    end in
  let cleanParts := skipn startIndex parts in
  JsString.join " "
    (map (fun part =>
            let lower := JsString.toLowerCase part in
            match specialTerms_get lower with
            | Some t => t
            | None => JsString.capitalize part
            end) cleanParts).

(** [nodeType.includes(needle)]: a string searches for a substring, an
    array for an element; any other truthy value has no [includes]. *)
Definition js_includes (nodeType : json) (needle : string) : outcome bool :=
  match nodeType with
  | JStr s => Return (JsString.includes s needle)
  | JArr items =>
      Return (existsb (fun e => match e with
                                | JStr s => String.eqb s needle
                                | _ => false
                                end) items)
  | _ => Throw "TypeError: nodeType.includes is not a function"
  end.

(** [nodeType.split('.')] *)
Definition js_split (nodeType : json) : outcome (list string) :=
  match nodeType with
  | JStr s => Return (JsString.split "." s)
  | _ => Throw "TypeError: nodeType.split is not a function"
  end.

(** The [if]/[else if] chain of [analyzeNodes] on one node type:
    the trigger type it assigns, if any. *)
Definition nodeTrigger (nodeType : json) : outcome (option string) :=
  w <- js_includes nodeType "webhook" ;;
  if w then Return (Some "Webhook")
  else
    c <- js_includes nodeType "cron" ;;
    s <- (if c then Return true else js_includes nodeType "schedule") ;;
    if s then Return (Some "Scheduled")
    else
      t <- js_includes nodeType "trigger" ;;
      if t then Return (Some "Triggered") else Return None.

(** The callback of [nodes.forEach] in [analyzeNodes]. *)
Definition analyzeNode (st : list string * string) (node : json)
  : outcome (list string * string) :=
  let '(integrations, triggerType) := st in
  ty <- get_prop node "type" ;;
  let nodeType := or_default ty (JStr "") in
  hasDot <- js_includes nodeType "." ;;
  integrations' <-
    (if hasDot then
       parts <- js_split nodeType ;;
       if (2 <=? List.length parts)%nat then
         let integration := nth 1 parts "" in
         if negb (String.eqb integration "core")
            && negb (String.eqb integration "base")
         then Return (Set_add (JsString.capitalize integration) integrations)
         else Return integrations
       else Return integrations
     else Return integrations) ;;
  tr <- nodeTrigger nodeType ;;
  Return (integrations',
          match tr with Some t => t | None => triggerType end).

Definition analyzeNodes (nodes : list json) : outcome (list string * string) :=
  forEach analyzeNode nodes ([], "Manual").

Definition generateDescription (node_count : nat) (complexity triggerType : string)
  (integrations : list string) : string :=
  let p1 :=
    if negb (String.eqb triggerType "Manual")
    then [triggerType ++ " workflow"] else ["Manual workflow"] in
  let size := List.length integrations in
  let p2 :=
    if (0 <? size)%nat then
      let integrationList := firstn 3 integrations in
      let integrationList :=
        if (3 <? size)%nat
        then app integrationList ["+" ++ JsString.of_nat (size - 3) ++ " more"]
        else integrationList in
      ["integrating " ++ JsString.join ", " integrationList]
    else [] in
  let p3 := ["with " ++ JsString.of_nat node_count ++ " nodes ("
             ++ complexity ++ " complexity)"] in
  JsString.join " " (app p1 (app p2 p3)).

(** The body of the [try] block of [analyzeWorkflow].  A truthy [nodes]
    value that is not an array has no [forEach], so the call of
    [analyzeNodes] throws whatever its [length] is. *)
Definition analyzeWorkflow_body (f : corpus_file) : outcome workflow :=
  data <- file_json f ;;
  let filename := file_name f in
  id <- get_prop data "id" ;;
  active <- get_prop data "active" ;;
  nodes <- get_prop data "nodes" ;;
  connections <- get_prop data "connections" ;;
  tags <- get_prop data "tags" ;;
  createdAt <- get_prop data "createdAt" ;;
  updatedAt <- get_prop data "updatedAt" ;;
  dname <- get_prop data "name" ;;
  jsonName <- optional_trim dname ;;
  let name :=
    match jsonName with
    | Some n =>
        if negb (String.eqb n "")
           && negb (String.eqb n (JsString.replace ".json" "" filename))
           && negb (JsString.startsWith n "My workflow")
        then n else formatWorkflowName filename
    | None => formatWorkflowName filename
    end in
  match or_default nodes (JArr []) with
  | JArr nodeList =>
      let nodeCount := List.length nodeList in
      let complexity :=
        if (nodeCount <=? 5)%nat then "low"
        else if (nodeCount <=? 15)%nat then "medium"
        else "high" in
      r <- analyzeNodes nodeList ;;
      let '(integrations, triggerType) := r in
      Return {|
        wf_filename := filename;
        wf_name := name;
        wf_workflow_id := or_default id (JStr "");
        wf_active := or_default active (JBool false);
        wf_nodes := nodeList;
        wf_connections := or_default connections (JObj []);
        wf_tags := or_default tags (JArr []);
        wf_created_at := or_default createdAt (JStr "");
        wf_updated_at := or_default updatedAt (JStr "");
        wf_file_hash := file_md5 f;
        wf_file_size := file_size_bytes f;
        wf_node_count := nodeCount;
        wf_complexity := complexity;
        wf_trigger_type := triggerType;
        wf_integrations := integrations;
        wf_description :=
          generateDescription nodeCount complexity triggerType integrations
      |}
  | _ => Throw "TypeError: nodes.forEach is not a function"
  end.

(** [analyzeWorkflow]: the [catch] logs and returns [null]. *)
Definition analyzeWorkflow (f : corpus_file) : option workflow :=
  match analyzeWorkflow_body f with
  | Return w => Some w
  | Throw _ => None
  end.

(** ** Helpers of the MCP server *)

Definition getComplexityLevel (nodeCount : Z) : string :=
  if (nodeCount <=? 5)%Z then "low"
  else if (nodeCount <=? 15)%Z then "medium"
  else "high".

Definition mcp_excluded_short : list string :=
  ["start"; "noOp"; "function"; "set"].

Definition mcp_excluded : list string :=
  ["start"; "noOp"; "function"; "set"; "if"; "merge"; "switch"].

(** The callback of [workflow.nodes.forEach] in [extractIntegrations],
    for a node whose [type] is a string or absent. *)
Definition extractIntegration (integrations : list string) (ty : option string)
  : list string :=
  match ty with
  | None => integrations
  | Some type =>
      if String.eqb type "" then integrations
      else if negb (JsString.includes type "n8n-nodes-base.") then
        let integration := hd "" (JsString.split "." type) in
        if negb (String.eqb integration "")
           && negb (Set_has integration mcp_excluded_short)
        then Set_add integration integrations else integrations
      else
        let parts := JsString.split "." type in
        if (1 <? List.length parts)%nat then
          let nodeName := nth 1 parts "" in
          if negb (Set_has nodeName mcp_excluded)
          then Set_add (JsString.capitalize nodeName) integrations
          else integrations
        else integrations
  end.

Definition extractIntegrations (nodeTypes : list (option string)) : list string :=
  fold_left extractIntegration nodeTypes [].

(** ** The index store (database.js, [createTables] and the statements) *)

(** A parameter of a SELECT statement: a number or a string. *)
Inductive sqlval : Type :=
| SqlInt (z : Z)
| SqlText (s : string).

(** A value [stmt.run] binds to a placeholder: NULL, a number (bound as
    a REAL), a string, or the string [JSON.stringify] makes of a
    value. *)
Inductive bound : Type :=
| BoundNull
| BoundNumber (z : Z)
| BoundText (s : string)
| BoundJson (v : json).

(** What a column of TEXT affinity holds.  A number bound to it is
    stored as the text SQLite prints for the REAL: 12 is stored as
    12.0. *)
Inductive text_column : Type :=
| TextNull
| Text (s : string)
| TextOfNumber (z : Z)
| TextOfJson (v : json).

Definition text_affinity (v : bound) : text_column :=
  match v with
  | BoundNull => TextNull
  | BoundNumber z => TextOfNumber z
  | BoundText s => Text s
  | BoundJson j => TextOfJson j
  end.

(** A row of the table [workflows], with every column of the type the
    schema names.  The TEXT columns [integrations] and [tags] hold
    [JSON.stringify] of a value and every reader applies [JSON.parse]:
    the row keeps the value.  The column [analyzed_at] (the clock of
    the server) is left out; nothing below reads it. *)
Record workflow_row : Type := {
  id : nat;
  filename : string;
  name : string;
  workflow_id : text_column;
  active : bool;
  description : string;
  trigger_type : string;
  complexity : string;
  node_count : nat;
  integrations : list string;
  tags : json;
  created_at : text_column;
  updated_at : text_column;
  file_hash : string;
  file_size : nat
}.

(** A row of the FTS5 table [workflows_fts]. *)
Record fts_row : Type := {
  fts_filename : string;
  fts_name : string;
  fts_description : string;
  fts_integrations : list string;
  fts_tags : json
}.

(** The database behind one connection.  [recursive_triggers] is the
    connection's [PRAGMA recursive_triggers]; [sqlite_sequence] is the
    largest rowid AUTOINCREMENT has handed out. *)
Record sqlite : Type := {
  workflows : list workflow_row;
  workflows_fts : list fts_row;
  sqlite_sequence : nat;
  recursive_triggers : bool
}.

Definition shadow (w : workflow_row) : fts_row :=
  {| fts_filename := filename w;
     fts_name := name w;
     fts_description := description w;
     fts_integrations := integrations w;
     fts_tags := tags w |}.

(** Trigger [workflows_ai], AFTER INSERT ON workflows. *)
Definition workflows_ai (new : workflow_row) (fts : list fts_row) : list fts_row :=
  app fts [shadow new].

(** Trigger [workflows_ad], AFTER DELETE ON workflows. *)
Definition workflows_ad (old : workflow_row) (fts : list fts_row) : list fts_row :=
  filter (fun r => negb (String.eqb (fts_filename r) (filename old))) fts.

(** Trigger [workflows_au], AFTER UPDATE ON workflows. *)
Definition workflows_au (old new : workflow_row) (fts : list fts_row)
  : list fts_row :=
  workflows_ai new (workflows_ad old fts).

(** [INSERT OR REPLACE INTO workflows (...) VALUES (...)].  The UNIQUE
    constraint on [filename] is resolved by deleting the rows in
    conflict; SQLite fires the delete triggers for them if and only if
    recursive triggers are enabled.  The new row takes a fresh rowid and
    fires the insert trigger. *)
Definition insert_or_replace (d : sqlite) (values : nat -> workflow_row) : sqlite :=
  let rowid := S (sqlite_sequence d) in
  let new := values rowid in
  let conflict := fun w => String.eqb (filename w) (filename new) in
  let deleted := filter conflict (workflows d) in
  let kept := filter (fun w => negb (conflict w)) (workflows d) in
  let fts :=
    if recursive_triggers d
    then fold_left (fun fts old => workflows_ad old fts) deleted (workflows_fts d)
    else workflows_fts d in
  {| workflows := app kept [new];
     workflows_fts := workflows_ai new fts;
     sqlite_sequence := rowid;
     recursive_triggers := recursive_triggers d |}.

(** Modelled from the spec: [DeleteByKey(filename)] of the Index Store,
    which no function of database.js implements.  It is the statement
    [DELETE FROM workflows WHERE filename = ?], for which the store has
    the trigger [workflows_ad]. *)
Definition delete_by_filename (d : sqlite) (file : string) : sqlite :=
  let hit := fun w => String.eqb (filename w) file in
  let deleted := filter hit (workflows d) in
  {| workflows := filter (fun w => negb (hit w)) (workflows d);
     workflows_fts :=
       fold_left (fun fts old => workflows_ad old fts) deleted (workflows_fts d);
     sqlite_sequence := sqlite_sequence d;
     recursive_triggers := recursive_triggers d |}.

(** An argument of [stmt.run]: a value of the document as it was
    parsed, or a string or number the analyzer made. *)
Inductive argument : Type :=
| Taken (v : json)
| Made (x : bound).

(** The statement of [upsertWorkflow] has 14 placeholders. *)
Definition parameter_count : nat := 14.

(** A value the binder takes: a number, a string or null.  A boolean,
    and an array or object inside an array, is refused. *)
Definition bindable_value (v : json) : outcome bound :=
  match v with
  | JNull => Return BoundNull
  | JNum z => Return (BoundNumber z)
  | JStr s => Return (BoundText s)
  | _ => Throw "TypeError: SQLite3 can only bind numbers, strings, bigints, buffers, and null"
  end.

(** One value bound to the placeholder [index]; SQLite refuses an index
    beyond the last placeholder. *)
Definition bind_at (index : nat) (x : bound) : outcome bound :=
  if (index <=? parameter_count)%nat then Return x
  else Throw "RangeError: Too many parameter values were provided".

(** An array argument: its elements fill the next placeholders. *)
Fixpoint bind_array (items : list json) (index : nat) : outcome (list bound) :=
  match items with
  | [] => Return []
  | v :: rest =>
      x <- bindable_value v ;;
      x <- bind_at index x ;;
      xs <- bind_array rest (S index) ;;
      Return (x :: xs)
  end.

(** The loop of the binder over the arguments of [stmt.run].  An array
    is spread over the next placeholders; a plain object is a set of
    named parameters, of which this statement has none, and a second
    one is an error; every other value fills one placeholder. *)
Fixpoint bind_arguments (args : list argument) (index : nat) (bound_object : bool)
  : outcome (list bound) :=
  match args with
  | [] => Return []
  | Taken (JArr items) :: rest =>
      xs <- bind_array items index ;;
      ys <- bind_arguments rest (index + List.length items) bound_object ;;
      Return (app xs ys)
  | Taken (JObj _) :: rest =>
      if bound_object
      then Throw "TypeError: You cannot specify named parameters in two different objects"
      else bind_arguments rest index true
  | Taken v :: rest =>
      x <- bindable_value v ;;
      x <- bind_at index x ;;
      ys <- bind_arguments rest (S index) bound_object ;;
      Return (x :: ys)
  | Made x :: rest =>
      x <- bind_at index x ;;
      ys <- bind_arguments rest (S index) bound_object ;;
      Return (x :: ys)
  end.

(** The values [stmt.run(...args)] binds, in the order of the
    placeholders, when it binds one to each. *)
Definition bind_all (args : list argument) : outcome (list bound) :=
  values <- bind_arguments args 1 false ;;
  if (List.length values <? parameter_count)%nat
  then Throw "RangeError: Too few parameter values were provided"
  else Return values.

(** The 14 arguments of [stmt.run] in [upsertWorkflow]. *)
Definition upsert_arguments (w : workflow) : list argument :=
  [ Made (BoundText (wf_filename w));
    Made (BoundText (wf_name w));
    Taken (wf_workflow_id w);
    Made (BoundNumber (if truthy (Some (wf_active w)) then 1 else 0));
    Made (BoundText (wf_description w));
    Made (BoundText (wf_trigger_type w));
    Made (BoundText (wf_complexity w));
    Made (BoundNumber (Z.of_nat (wf_node_count w)));
    Made (BoundJson (JArr (map JStr (wf_integrations w))));
    Made (BoundJson (wf_tags w));
    Taken (wf_created_at w);
    Taken (wf_updated_at w);
    Made (BoundText (wf_file_hash w));
    Made (BoundNumber (Z.of_nat (wf_file_size w))) ].

(** [upsertWorkflow].  The file name, the name, the digest and the size
    are the first two and the last two of the 14 values and keep their
    columns in every call that binds; [workflow_id], [created_at] and
    [updated_at] take the third, eleventh and twelfth value.  When
    [workflow.workflow_id] fills one placeholder, the columns between
    take the values the analyzer made for them, as written here.  When
    it is an array or an object that fills none, two or three, and the
    two dates make up for it, the statement runs as well, and each of
    these seven columns takes the value made for a neighbour, of
    another type than the schema names for it; the record type has no
    such rows, and the values written here are then not the stored
    ones. *)
Definition upsertWorkflow (d : sqlite) (w : workflow) : outcome sqlite :=
  values <- bind_all (upsert_arguments w) ;;
  Return (insert_or_replace d (fun rowid =>
    {| id := rowid;
       filename := wf_filename w;
       name := wf_name w;
       workflow_id := text_affinity (nth 2 values BoundNull);
       active := truthy (Some (wf_active w));
       description := wf_description w;
       trigger_type := wf_trigger_type w;
       complexity := wf_complexity w;
       node_count := wf_node_count w;
       integrations := wf_integrations w;
       tags := wf_tags w;
       created_at := text_affinity (nth 10 values BoundNull);
       updated_at := text_affinity (nth 11 values BoundNull);
       file_hash := wf_file_hash w;
       file_size := wf_file_size w |})).

Definition getWorkflowByFilename (d : sqlite) (file : string) : option workflow_row :=
  find (fun w => String.eqb (filename w) file) (workflows d).

(** The object [WorkflowDatabase]: the database file it opens and the
    flag [initialized]. *)
Record WorkflowDatabase : Type := {
  db : sqlite;
  initialized : bool
}.

(** [initDatabase]: a new connection starts with recursive triggers off,
    the four pragmas (journal_mode, synchronous, cache_size, temp_store)
    leave that setting alone, and [createTables] keeps existing rows. *)
Definition initDatabase (d : sqlite) : sqlite :=
  {| workflows := workflows d;
     workflows_fts := workflows_fts d;
     sqlite_sequence := sqlite_sequence d;
     recursive_triggers := false |}.

Definition initialize (self : WorkflowDatabase) : WorkflowDatabase :=
  if initialized self then self
  else {| db := initDatabase (db self); initialized := true |}.

(** A database file on first use. *)
Definition empty_store : sqlite :=
  {| workflows := []; workflows_fts := []; sqlite_sequence := 0;
     recursive_triggers := false |}.

(** ** The indexing pipeline *)

Record counters : Type := {
  processed : nat;
  skipped : nat;
  errors : nat
}.

Record index_result : Type := {
  res_processed : nat;
  res_skipped : nat;
  res_errors : nat;
  res_total : nat
}.

(** One turn of the loop [for (const file of jsonFiles)]. *)
Definition index_file (forceReindex : bool) (st : sqlite * counters)
  (f : corpus_file) : sqlite * counters :=
  let '(d, c) := st in
  match analyzeWorkflow f with
  | None =>
      (d, {| processed := processed c; skipped := skipped c;
             errors := S (errors c) |})
  | Some w =>
      let unchanged :=
        match getWorkflowByFilename d (file_name f) with
        | Some existing => String.eqb (file_hash existing) (wf_file_hash w)
        | None => false
        end in
      if negb forceReindex && unchanged then
        (d, {| processed := processed c; skipped := S (skipped c);
               errors := errors c |})
      else
        match upsertWorkflow d w with
        | Return d' =>
            (d', {| processed := S (processed c); skipped := skipped c;
                    errors := errors c |})
        | Throw _ =>
            (d, {| processed := processed c; skipped := skipped c;
                   errors := S (errors c) |})
        end
  end.

Definition index_loop (forceReindex : bool) (jsonFiles : list corpus_file)
  (st : sqlite * counters) : sqlite * counters :=
  fold_left (index_file forceReindex) jsonFiles st.

Definition jsonFiles_of (workflowFiles : list corpus_file) : list corpus_file :=
  filter (fun f => JsString.endsWith (file_name f) ".json") workflowFiles.

(** [indexWorkflows(forceReindex)].  [readdir] is the outcome of
    [fs.readdir(this.workflowsDir)]; its failure is the failure of the
    call. *)
Definition indexWorkflows (self : WorkflowDatabase)
  (readdir : outcome (list corpus_file)) (forceReindex : bool)
  : outcome (WorkflowDatabase * index_result) :=
  let self := initialize self in
  workflowFiles <- readdir ;;
  let jsonFiles := jsonFiles_of workflowFiles in
  let '(d, c) :=
    index_loop forceReindex jsonFiles
      (db self, {| processed := 0; skipped := 0; errors := 0 |}) in
  Return ({| db := d; initialized := true |},
          {| res_processed := processed c;
             res_skipped := skipped c;
             res_errors := errors c;
             res_total := List.length jsonFiles |}).

(** ** Full-text matching over the shadow table *)

Definition is_token_char (c : ascii) : bool :=
  JsString.is_digit c || JsString.is_lower c || JsString.is_upper c.

Definition flush (cur : string) : list string :=
  if String.eqb cur "" then [] else [cur].

(** The tokens of a text: the maximal runs of letters and digits, folded
    to lower case. *)
Fixpoint tokenize_from (cur s : string) : list string :=
  match s with
  | EmptyString => flush cur
  | String c s' =>
      if is_token_char c
      then tokenize_from (cur ++ String (JsString.lower_char c) EmptyString) s'
      else app (flush cur) (tokenize_from "" s')
  end.

Definition tokenize (s : string) : list string := tokenize_from "" s.

Fixpoint json_tokens (v : json) : list string :=
  match v with
  | JNull => ["null"]
  | JBool b => [if b then "true" else "false"]
  | JNum z => tokenize (NilZero.string_of_int (Z.to_int z))
  | JStr s => tokenize s
  | JArr items => flat_map json_tokens items
  | JObj fields =>
      flat_map (fun kv => app (tokenize (fst kv)) (json_tokens (snd kv))) fields
  end.

Definition row_tokens (r : fts_row) : list string :=
  app (tokenize (fts_filename r))
   (app (tokenize (fts_name r))
     (app (tokenize (fts_description r))
       (app (flat_map tokenize (fts_integrations r))
            (json_tokens (fts_tags r))))).

(** [workflows_fts MATCH 'tok'] for one bare token. *)
Definition has_token (tok : string) (r : fts_row) : bool :=
  existsb (String.eqb (JsString.toLowerCase tok)) (row_tokens r).

(** [workflows_fts MATCH 'tok*'] *)
Definition has_prefix (tok : string) (r : fts_row) : bool :=
  existsb (prefix (JsString.toLowerCase tok)) (row_tokens r).

(** [SELECT w.* FROM workflows w JOIN workflows_fts fts
     ON w.filename = fts.filename WHERE workflows_fts MATCH ?],
    for the rows of the shadow table the query selects. *)
Definition fts_join (d : sqlite) (matches : fts_row -> bool) : list workflow_row :=
  flat_map (fun f =>
              if matches f
              then filter (fun w => String.eqb (filename w) (fts_filename f))
                          (workflows d)
              else [])
           (workflows_fts d).

(** The hits of a full-text search that belong to one file. *)
Definition hits_for (d : sqlite) (matches : fts_row -> bool) (file : string)
  : list workflow_row :=
  filter (fun w => String.eqb (filename w) file) (fts_join d matches).

(** ** JavaScript numbers: IEEE 754 doubles

    A finite double is the rational it stands for; every operation
    gives the exact result rounded to the nearest double, ties to the
    even significand, as IEEE 754 prescribes for binary64. *)

(** The exponent of a positive rational: [2^e <= q < 2^(e+1)]. *)
Definition ilog2 (q : Q) : Z :=
  let e0 := (Z.log2 (Qnum q) - Z.log2 (Zpos (Qden q)))%Z in
  if Qle_bool (2 ^ e0) q then e0 else (e0 - 1)%Z.

(** The nearest integer, ties to even. *)
Definition rne (x : Q) : Z :=
  let f := Qfloor x in
  match Qcompare (x - inject_Z f) (1 # 2) with
  | Lt => f
  | Gt => (f + 1)%Z
  | Eq => if Z.even f then f else (f + 1)%Z
  end.

(** The exponent of the last place of the doubles around a positive
    rational: 52 places below its own exponent, and never below that of
    the subnormal numbers. *)
Definition ulp_exponent (q : Q) : Z := Z.max (ilog2 q - 52) (-1074).

Definition fl_pos (q : Q) : Q :=
  let E := ulp_exponent q in
  inject_Z (rne (q / 2 ^ E)) * 2 ^ E.

(** Round to nearest, ties to even, before the test for overflow. *)
Definition fl (q : Q) : Q :=
  match Qcompare q 0 with
  | Eq => 0
  | Gt => fl_pos q
  | Lt => - fl_pos (- q)
  end.

(** A number: NaN, an infinity, or a finite double.  The sign of zero
    is not kept; no zero below is a divisor unless the dividend is zero
    too. *)
Inductive jsnum : Type :=
| NaN
| Infinity (negative : bool)
| Num (q : Q).

Definition Qneg_bool (q : Q) : bool := negb (Qle_bool 0 q).

Definition Qzero_bool (q : Q) : bool := Qeq_bool q 0.

(** The double an exact result becomes: rounded, and an infinity from
    [2^1024] on. *)
Definition js_round (q : Q) : jsnum :=
  let r := Qred (fl q) in
  if Qle_bool (2 ^ 1024) (Qabs r) then Infinity (Qneg_bool r) else Num r.

Definition js_neg (a : jsnum) : jsnum :=
  match a with
  | NaN => NaN
  | Infinity s => Infinity (negb s)
  | Num q => Num (- q)
  end.

Definition js_add (a b : jsnum) : jsnum :=
  match a, b with
  | NaN, _ | _, NaN => NaN
  | Infinity s, Infinity t => if Bool.eqb s t then Infinity s else NaN
  | Infinity s, Num _ => Infinity s
  | Num _, Infinity t => Infinity t
  | Num x, Num y => js_round (x + y)
  end.

Definition js_sub (a b : jsnum) : jsnum := js_add a (js_neg b).

Definition js_mul (a b : jsnum) : jsnum :=
  match a, b with
  | NaN, _ | _, NaN => NaN
  | Infinity s, Infinity t => Infinity (xorb s t)
  | Infinity s, Num y => if Qzero_bool y then NaN else Infinity (xorb s (Qneg_bool y))
  | Num x, Infinity t => if Qzero_bool x then NaN else Infinity (xorb t (Qneg_bool x))
  | Num x, Num y => js_round (x * y)
  end.

(** [a / b]; a zero divisor is the positive zero. *)
Definition js_div (a b : jsnum) : jsnum :=
  match a, b with
  | NaN, _ | _, NaN => NaN
  | Infinity _, Infinity _ => NaN
  | Infinity s, Num y => Infinity (xorb s (Qneg_bool y))
  | Num _, Infinity _ => Num 0
  | Num x, Num y =>
      if Qzero_bool y
      then (if Qzero_bool x then NaN else Infinity (Qneg_bool x))
      else js_round (x / y)
  end.

(** [a >= b] *)
Definition js_ge (a b : jsnum) : bool :=
  match a, b with
  | NaN, _ | _, NaN => false
  | Infinity s, Infinity t => negb s || t
  | Infinity s, Num _ => negb s
  | Num _, Infinity t => t
  | Num x, Num y => Qle_bool y x
  end.

(** [a > 0] *)
Definition js_positive (a : jsnum) : bool :=
  match a with
  | NaN => false
  | Infinity s => negb s
  | Num x => negb (Qle_bool x 0)
  end.

Definition Math_abs (a : jsnum) : jsnum :=
  match a with
  | NaN => NaN
  | Infinity _ => Infinity false
  | Num q => Num (Qabs q)
  end.

(** [Math.max(a, b)] *)
Definition Math_max (a b : jsnum) : jsnum :=
  match a, b with
  | NaN, _ | _, NaN => NaN
  | _, _ => if js_ge a b then a else b
  end.

Definition Math_ceil (a : jsnum) : jsnum :=
  match a with
  | Num q => Num (inject_Z (Qceiling q))
  | other => other
  end.

(** [Math.round]: the nearest integer, halves upwards; exact on every
    double. *)
Definition Math_round (a : jsnum) : jsnum :=
  match a with
  | Num q => Num (inject_Z (Qfloor (q + (1 # 2))))
  | other => other
  end.

(** The double nearest to an integer, as the integer it is.  (Beyond
    the largest double the number is an infinity; no statement takes
    it, as none takes a number of [2^63] or more.) *)
Definition double_of_Z (z : Z) : Z := Qfloor (fl (inject_Z z)).

(** The number an integer of the store or an array length becomes. *)
Definition of_Z (z : Z) : jsnum := js_round (inject_Z z).

Definition of_nat (n : nat) : jsnum := of_Z (Z.of_nat n).

(** A decimal literal of the source. *)
Definition js_literal (q : Q) : jsnum := js_round q.

(** [Number(total)] for a count that may be [undefined]. *)
Definition of_total (total : option nat) : jsnum :=
  match total with
  | Some n => of_nat n
  | None => NaN
  end.

(** ** The statements of [searchWorkflows] and their execution *)

(** The two statement texts of [searchWorkflows], with the line breaks
    of the template literal written as single blanks. *)
Definition sql_all : string := "SELECT * FROM workflows WHERE 1=1".

Definition sql_fts : string :=
  "SELECT w.* FROM workflows w JOIN workflows_fts fts ON w.filename = fts.filename WHERE workflows_fts MATCH ?".

Definition strip_prefix (p s : string) : option string :=
  if prefix p s then Some (JsString.slice (String.length p) s) else None.

Definition strip_optional (p s : string) : bool * string :=
  match strip_prefix p s with
  | Some rest => (true, rest)
  | None => (false, s)
  end.

Inductive select_list : Type := SelectCount | SelectStar | SelectWStar.

(** A statement of the family [searchWorkflows] can build, read back
    from its text. *)
Record select_plan : Type := {
  sel_list : select_list;
  sel_join : bool;
  sel_trigger : bool;
  sel_complexity : bool;
  sel_active : bool;
  sel_page : bool
}.

Definition parse_select_list (sql : string) : option (select_list * string) :=
  match strip_prefix "SELECT COUNT(*) as total" sql with
  | Some rest => Some (SelectCount, rest)
  | None =>
      match strip_prefix "SELECT *" sql with
      | Some rest => Some (SelectStar, rest)
      | None =>
          match strip_prefix "SELECT w.*" sql with
          | Some rest => Some (SelectWStar, rest)
          | None => None
          end
      end
  end.

Definition parse_from (sql : string) : option (bool * string) :=
  match strip_prefix " FROM workflows WHERE 1=1" sql with
  | Some rest => Some (false, rest)
  | None =>
      match strip_prefix
              " FROM workflows w JOIN workflows_fts fts ON w.filename = fts.filename WHERE workflows_fts MATCH ?"
              sql with
      | Some rest => Some (true, rest)
      | None => None
      end
  end.

(** [db.prepare(sql)].  [SELECT w.*] needs the alias of the join, and a
    bare [*] over the join is not a statement of this family. *)
Definition prepare (sql : string) : outcome select_plan :=
  match parse_select_list sql with
  | None => Throw "SqliteError: syntax error"
  | Some (sl, rest) =>
      match parse_from rest with
      | None => Throw "SqliteError: syntax error"
      | Some (join, rest) =>
          let '(tr, rest) := strip_optional " AND trigger_type = ?" rest in
          let '(cx, rest) := strip_optional " AND complexity = ?" rest in
          let '(ac, rest) := strip_optional " AND active = 1" rest in
          let '(pg, rest) := strip_optional " ORDER BY name LIMIT ? OFFSET ?" rest in
          if negb (String.eqb rest "") then Throw "SqliteError: syntax error"
          else
            match sl, join with
            | SelectWStar, false => Throw "SqliteError: no such table: w"
            | SelectStar, true => Throw "SqliteError: statement outside the family"
            | _, _ =>
                Return {| sel_list := sl; sel_join := join; sel_trigger := tr;
                          sel_complexity := cx; sel_active := ac;
                          sel_page := pg |}
            end
      end
  end.

(** A row a statement returns: a row of [workflows], or the one row
    [{total}] of a count. *)
Inductive result_row : Type :=
| RowWorkflow (w : workflow_row)
| RowTotal (total : nat).

Definition text_equals (column : string) (v : sqlval) : bool :=
  match v with
  | SqlText s => String.eqb column s
  | SqlInt _ => false
  end.

Fixpoint insert_by_name (x : workflow_row) (l : list workflow_row)
  : list workflow_row :=
  match l with
  | [] => [x]
  | y :: l' =>
      if String.leb (name x) (name y) then x :: y :: l'
      else y :: insert_by_name x l'
  end.

(** [ORDER BY name]: byte order; rows of equal name keep the order of
    the scan. *)
Definition order_by_name (l : list workflow_row) : list workflow_row :=
  fold_right insert_by_name [] l.

(** The numbers SQLite takes for 64-bit integers. *)
Definition sqlite_integer (z : Z) : bool :=
  (- 2 ^ 63 <? z)%Z && (z <? 2 ^ 63)%Z.

(** [LIMIT ? OFFSET ?] on 64-bit integers ([take_int] lets no other
    through): a negative limit is no limit, a negative offset is
    none. *)
Definition limit_offset (limit offset : Z) (l : list workflow_row)
  : list workflow_row :=
  let l' := skipn (Z.to_nat offset) l in
  if (limit <? 0)%Z then l' else firstn (Z.to_nat limit) l'.

Section Search.

(** [buildFTSQuery]: from the text of the request to the text of an
    FTS5 query. *)
Variable buildFTSQuery : string -> string.

(** The FTS5 engine: the rows of the shadow table a query text
    selects, or nothing when it rejects the text. *)
Variable fts5 : string -> option (fts_row -> bool).

Definition take_text (params : list sqlval) : outcome (sqlval * list sqlval) :=
  match params with
  | v :: rest => Return (v, rest)
  | [] => Throw "RangeError: Too few parameter values were provided"
  end.

(** The operand of LIMIT or OFFSET.  A JavaScript number is bound as a
    REAL, and SQLite takes a REAL for the integer it is when that lies
    strictly between [-2^63] and [2^63]; every other number is a
    datatype mismatch. *)
Definition take_int (params : list sqlval) : outcome (Z * list sqlval) :=
  match params with
  | SqlInt z :: rest =>
      if sqlite_integer z then Return (z, rest)
      else Throw "SqliteError: datatype mismatch"
  | SqlText _ :: _ => Throw "SqliteError: datatype mismatch"
  | [] => Throw "RangeError: Too few parameter values were provided"
  end.

(** [stmt.all(...params)] *)
Definition stmt_all (d : sqlite) (p : select_plan) (params : list sqlval)
  : outcome (list result_row) :=
  r0 <- (if sel_join p then
           a <- take_text params ;;
           let '(q, rest) := a in
           match q with
           | SqlText text =>
               match fts5 text with
               | Some matches => Return (fts_join d matches, rest)
               | None => Throw "SqliteError: fts5: syntax error"
               end
           | SqlInt _ => Throw "SqliteError: fts5: syntax error"
           end
         else Return (workflows d, params)) ;;
  let '(rows, params) := r0 in
  r1 <- (if sel_trigger p then
           a <- take_text params ;;
           let '(v, rest) := a in
           Return (filter (fun w => text_equals (trigger_type w) v) rows, rest)
         else Return (rows, params)) ;;
  let '(rows, params) := r1 in
  r2 <- (if sel_complexity p then
           a <- take_text params ;;
           let '(v, rest) := a in
           Return (filter (fun w => text_equals (complexity w) v) rows, rest)
         else Return (rows, params)) ;;
  let '(rows, params) := r2 in
  let rows := if sel_active p then filter active rows else rows in
  r3 <- (if sel_page p then
           a <- take_int params ;;
           let '(limit, rest) := a in
           b <- take_int rest ;;
           let '(offset, rest) := b in
           Return (Some (limit, offset), rest)
         else Return (None, params)) ;;
  let '(page, params) := r3 in
  match params with
  | _ :: _ => Throw "RangeError: Too many parameter values were provided"
  | [] =>
      match sel_list p with
      | SelectCount => Return [RowTotal (List.length rows)]
      | _ =>
          let rows := if sel_page p then order_by_name rows else rows in
          let rows :=
            match page with
            | Some (limit, offset) => limit_offset limit offset rows
            | None => rows
            end in
          Return (map RowWorkflow rows)
      end
  end.

(** [stmt.get(...params)]: the first row, or [undefined]. *)
Definition stmt_get (d : sqlite) (p : select_plan) (params : list sqlval)
  : outcome (option result_row) :=
  rows <- stmt_all d p params ;;
  Return (hd_error rows).

Record search_result : Type := {
  sr_workflows : list workflow_row;
  sr_total : option nat
}.

(** [const { total } = countStmt.get(...params)]: destructuring
    [undefined] throws; a row without a column [total] gives
    [undefined]. *)
Definition destructure_total (row : option result_row) : outcome (option nat) :=
  match row with
  | None => Throw "TypeError: Cannot destructure property 'total' of undefined"
  | Some (RowTotal n) => Return (Some n)
  | Some (RowWorkflow _) => Return None
  end.

Definition searchWorkflows (self : WorkflowDatabase)
  (query triggerFilter complexityFilter : string) (activeOnly : bool)
  (limit offset : Z) : outcome search_result :=
  if negb (initialized self) then Throw "Error: Database not initialized"
  else
    let text := negb (String.eqb (JsString.trim query) "") in
    let sql := if text then sql_fts else sql_all in
    let params :=
      if text then [SqlText (buildFTSQuery (JsString.trim query))] else [] in
    let filtered := negb (String.eqb triggerFilter "all") in
    let sql := if filtered then sql ++ " AND trigger_type = ?" else sql in
    let params := if filtered then app params [SqlText triggerFilter] else params in
    let filtered := negb (String.eqb complexityFilter "all") in
    let sql := if filtered then sql ++ " AND complexity = ?" else sql in
    let params :=
      if filtered then app params [SqlText complexityFilter] else params in
    let sql := if activeOnly then sql ++ " AND active = 1" else sql in
    countStmt <- prepare (JsString.replace "SELECT *" "SELECT COUNT(*) as total" sql) ;;
    first <- stmt_get (db self) countStmt params ;;
    total <- destructure_total first ;;
    let sql := sql ++ " ORDER BY name LIMIT ? OFFSET ?" in
    let params := app params [SqlInt limit; SqlInt offset] in
    stmt <- prepare sql ;;
    rows <- stmt_all (db self) stmt params ;;
    Return {| sr_workflows :=
                flat_map (fun r => match r with
                                   | RowWorkflow w => [w]
                                   | RowTotal _ => []
                                   end) rows;
              sr_total := total |}.

(** ** The search route of the HTTP server *)

Record search_response : Type := {
  rsp_workflows : list workflow_row;
  rsp_total : option nat;
  rsp_page : Z;
  rsp_per_page : Z;
  rsp_pages : jsnum
}.

Inductive reply : Type :=
| Json200 (body : search_response)
| Json500 (details : string).

(** [app.get('/api/workflows')], with [page] and [per_page] as the
    integers the request spells: [parseInt] gives the nearest doubles,
    and the difference and the product are rounded as every result
    is. *)
Definition api_workflows (self : WorkflowDatabase)
  (q trigger complexityFilter active_only : string) (page per_page : Z) : reply :=
  let pageNum := Z.max 1 (double_of_Z page) in
  let perPage := Z.min 100 (Z.max 1 (double_of_Z per_page)) in
  let offset := double_of_Z (double_of_Z (pageNum - 1) * perPage) in
  let activeOnly := String.eqb active_only "true" in
  match searchWorkflows self q trigger complexityFilter activeOnly perPage offset with
  | Throw e => Json500 e
  | Return r =>
      let pages := Math_ceil (js_div (of_total (sr_total r)) (of_Z perPage)) in
      Json200 {| rsp_workflows := sr_workflows r;
                 rsp_total := sr_total r;
                 rsp_page := pageNum;
                 rsp_per_page := perPage;
                 rsp_pages := pages |}
  end.

End Search.

(** ** The similarity engine ([findSimilar] of the MCP server) *)

(** [new Set(l)] *)
Definition Set_of (l : list string) : list string :=
  fold_left (fun s x => Set_add x s) l [].

(** [refIntegrations.filter(i => wfIntegrations.includes(i))] *)
Definition shared (refIntegrations wfIntegrations : list string) : list string :=
  filter (fun i => Set_has i wfIntegrations) refIntegrations.

Definition integrationSimilarity (refIntegrations wfIntegrations : list string)
  : jsnum :=
  let intersection := List.length (shared refIntegrations wfIntegrations) in
  let union := List.length (Set_of (app refIntegrations wfIntegrations)) in
  if (0 <? union)%nat then js_div (of_nat intersection) (of_nat union) else Num 0.

(** [Math.abs(a - b)] on two counts. *)
Definition nodeDiff (a b : nat) : jsnum :=
  Math_abs (js_sub (of_nat a) (of_nat b)).

Definition nodeCountSimilarity (ref_count wf_count : nat) : jsnum :=
  js_sub (Num 1)
         (js_div (nodeDiff ref_count wf_count)
                 (Math_max (of_nat ref_count) (of_nat wf_count))).

Definition triggerSimilarity (ref_trigger wf_trigger : string) : jsnum :=
  if String.eqb ref_trigger wf_trigger then Num 1 else js_literal (5 # 10).

(** The combined score of one candidate against the reference. *)
Definition similarity (reference w : workflow_row) : jsnum :=
  js_add
    (js_add (js_mul (integrationSimilarity (integrations reference) (integrations w))
                    (js_literal (5 # 10)))
            (js_mul (nodeCountSimilarity (node_count reference) (node_count w))
                    (js_literal (3 # 10))))
    (js_mul (triggerSimilarity (trigger_type reference) (trigger_type w))
            (js_literal (2 # 10))).

Record similar : Type := {
  sim_filename : string;
  sim_name : string;
  similarity_score : jsnum;
  shared_integrations : list string;
  sim_trigger_type : string;
  sim_node_count : nat
}.

(** [Math.round(similarity * 100) / 100] *)
Definition round2 (s : jsnum) : jsnum :=
  js_div (Math_round (js_mul s (Num 100))) (Num 100).

Definition similar_entry (reference w : workflow_row) : similar :=
  {| sim_filename := filename w;
     sim_name := name w;
     similarity_score := round2 (similarity reference w);
     shared_integrations := shared (integrations reference) (integrations w);
     sim_trigger_type := trigger_type w;
     sim_node_count := node_count w |}.

(** The callback of [allWorkflows.forEach]: push the candidate when its
    score reaches the threshold. *)
Definition consider (reference : workflow_row) (threshold : jsnum)
  (similarities : list similar) (w : workflow_row) : list similar :=
  if js_ge (similarity reference w) threshold
  then app similarities [similar_entry reference w]
  else similarities.

(** The comparator [(a, b) => b.similarity_score - a.similarity_score]
    puts [b] first when its result is positive; on every other result,
    NaN among them, [a] stays before [b]. *)
Definition stays_before (a b : similar) : bool :=
  negb (js_positive (js_sub (similarity_score b) (similarity_score a))).

Fixpoint insert_sorted (x : similar) (l : list similar) : list similar :=
  match l with
  | [] => [x]
  | y :: l' =>
      if stays_before x y then x :: y :: l' else y :: insert_sorted x l'
  end.

(** [similarities.sort((a, b) => b.similarity_score - a.similarity_score)]:
    the sort of the runtime is stable. *)
Definition sort_by_score (l : list similar) : list similar :=
  fold_right insert_sorted [] l.

Record similar_result : Type := {
  reference_workflow : workflow_row;
  similar_workflows : list similar;
  total_found : nat
}.

Definition findSimilar (d : sqlite) (file : string) (similarity_threshold : jsnum)
  : outcome similar_result :=
  match getWorkflowByFilename d file with
  | None => Throw ("Error: Workflow not found: " ++ file)
  | Some reference =>
      let allWorkflows :=
        filter (fun w => negb (String.eqb (filename w) file)) (workflows d) in
      let similarities :=
        fold_left (consider reference similarity_threshold) allWorkflows [] in
      let similarities := sort_by_score similarities in
      Return {| reference_workflow := reference;
                similar_workflows := firstn 20 similarities;
                total_found := List.length similarities |}
  end.

(** ** The diagram identifiers (http-server.js, [sanitizeNodeId]) *)

(** The class [[a-zA-Z0-9]]. *)
Definition is_alnum (c : ascii) : bool :=
  JsString.is_lower c || JsString.is_upper c || JsString.is_digit c.

Definition underscore : ascii := "_"%char.

(** [s.replace(/^_+/, '')] *)
Fixpoint strip_leading (s : string) : string :=
  match s with
  | EmptyString => EmptyString
  | String c s' => if Ascii.eqb c underscore then strip_leading s' else s
  end.

(** [s.replace(/_+$/, '')] *)
Fixpoint strip_trailing (s : string) : string :=
  match s with
  | EmptyString => EmptyString
  | String c s' =>
      match strip_trailing s' with
      | EmptyString =>
          if Ascii.eqb c underscore then EmptyString else String c EmptyString
      | t => String c t
      end
  end.

(** [nodeName.replace(/[^a-zA-Z0-9]/g, '_').replace(/^_+|_+$/g, '')],
    for a string [nodeName]. *)
Definition sanitizeNodeId (nodeName : string) : string :=
  strip_trailing
    (strip_leading
       (JsString.map_chars (fun c => if is_alnum c then c else underscore) nodeName)).

(** ** The full-text query builder (database.js, [buildFTSQuery]) *)

Definition dquote : ascii := ascii_of_nat 34.

Definition is_dquote (c : ascii) : bool := Ascii.eqb c dquote.

(** What the first [replace] keeps: word characters, white space, the
    double quote, the apostrophe and the hyphen. *)
Definition fts_kept (c : ascii) : bool :=
  is_alnum c || Ascii.eqb c underscore || JsString.is_space c
  || is_dquote c || Ascii.eqb c "'"%char || Ascii.eqb c "-"%char.

(** The longest run of characters other than the double quote at the
    start of a text, and what follows it. *)
Fixpoint span_unquoted (s : string) : string * string :=
  match s with
  | EmptyString => (EmptyString, EmptyString)
  | String c s' =>
      if is_dquote c then (EmptyString, s)
      else let '(run, rest) := span_unquoted s' in (String c run, rest)
  end.

(** The expression [quotedRegex] (a double quote, one or more
    characters other than the double quote, a double quote) anchored at
    the start of a text: the captured group. *)
Definition match_here (s : string) : option string :=
  match s with
  | EmptyString => None
  | String c s' =>
      if is_dquote c then
        match span_unquoted s' with
        | (String b run, String _ _) => Some (String b run)
        | _ => None
        end
      else None
  end.

(** The text a match covers, and the phrase pushed for it. *)
Definition quoted (group : string) : string :=
  String dquote (group ++ String dquote EmptyString).

(** [quotedRegex.exec(cleanQuery)] for the global expression: the
    leftmost match that starts at [lastIndex] or later, as the captured group and the new [lastIndex] (the end of the
    match).  [s] is the rest of the subject from index [pos]. *)
Fixpoint exec_from (s : string) (pos lastIndex : nat) : option (string * nat) :=
  match (if (pos <? lastIndex)%nat then None else match_here s) with
  | Some group => Some (group, (pos + String.length (quoted group))%nat)
  | None =>
      match s with
      | EmptyString => None
      | String _ s' => exec_from s' (S pos) lastIndex
      end
  end.

(** The [while] loop over the quoted phrases.  The expression keeps its
    [lastIndex] from one round to the next while [cleanQuery] is
    replaced by a shorter text; [replace] with a string pattern rewrites
    the first occurrence of the matched text. *)
Fixpoint phrase_loop (fuel : nat) (cleanQuery : string) (lastIndex : nat)
  (phrases : list string) : string * list string :=
  match fuel with
  | O => (cleanQuery, phrases)
  | S fuel' =>
      match exec_from cleanQuery 0 lastIndex with
      | None => (cleanQuery, phrases)
      | Some (group, lastIndex') =>
          phrase_loop fuel'
            (JsString.replace (quoted group) " " cleanQuery)
            lastIndex'
            (app phrases [quoted group])
      end
  end.

(** [s.split(/\s+/)] *)
Fixpoint split_spaces (s : string) : list string :=
  match s with
  | EmptyString => [EmptyString]
  | String c s' =>
      if JsString.is_space c then
        match s' with
        | String c' _ =>
            if JsString.is_space c' then split_spaces s'
            else EmptyString :: split_spaces s'
        | EmptyString => EmptyString :: split_spaces s'
        end
      else
        match split_spaces s' with
        | [] => [String c EmptyString]
        | h :: t => String c h :: t
        end
  end.

(** The callback of [map]: a wildcard after a term of two characters or
    more. *)
Definition add_wildcard (term : string) : string :=
  if (2 <=? String.length term)%nat then term ++ "*" else term.

(** Every round of the loop shortens [cleanQuery] by two characters or
    more, so its length bounds the number of rounds. *)
Definition buildFTSQuery (query : string) : string :=
  let cleanQuery :=
    JsString.trim
      (JsString.map_chars (fun c => if fts_kept c then c else " "%char) query) in
  if String.eqb cleanQuery "" then "*"
  else
    let '(cleanQuery, phrases) :=
      phrase_loop (String.length cleanQuery) cleanQuery 0 [] in
    let terms :=
      map add_wildcard
          (filter (fun term => (0 <? String.length term)%nat)
                  (split_spaces cleanQuery)) in
    let allTerms := app phrases terms in
    if (List.length allTerms =? 0)%nat then "*"
    else JsString.join " AND " allTerms.

(** ** The listings of the HTTP server (http-server.js) *)



(** The constant [categories] of the route [/api/categories]. *)
Definition categories : list (string * list string) :=
  [ ("Communication", ["Slack"; "Discord"; "Telegram"; "Mattermost"; "Teams"]);
    ("CRM", ["HubSpot"; "Salesforce"; "Pipedrive"; "Copper"]);
    ("Data", ["GoogleSheets"; "Airtable"; "Mysql"; "Postgres"]);
    ("Development", ["GitHub"; "GitLab"; "Jira"; "Trello"]);
    ("Marketing", ["Mailchimp"; "Sendinblue"; "Typeform"; "Webflow"]);
    ("Storage", ["GoogleDrive"; "Dropbox"; "OneDrive"; "AWS S3"]);
    ("Other", []) ].





Section Listings.

Variable buildFTSQuery_ : string -> string.
Variable fts5 : string -> option (fts_row -> bool).



End Listings.

(** ** The trigger type of the MCP server ([determineTriggerType]) *)

(** [n.type.includes(needle)] for a node whose type is a string or
    missing. *)
Definition type_includes (ty : option string) (needle : string) : outcome bool :=
  match ty with
  | Some s => Return (JsString.includes s needle)
  | None => Throw "TypeError: Cannot read properties of undefined (reading 'includes')"
  end.

(** The callback of [workflow.nodes.filter]. *)
Definition is_trigger_node (ty : option string) : outcome bool :=
  a <- type_includes ty "trigger" ;;
  if a then Return true
  else
    b <- type_includes ty "Trigger" ;;
    if b then Return true else type_includes ty "webhook".

Fixpoint Array_filter {A : Type} (p : A -> outcome bool) (l : list A)
  : outcome (list A) :=
  match l with
  | [] => Return []
  | x :: l' =>
      keep <- p x ;;
      rest <- Array_filter p l' ;;
      Return (if keep then x :: rest else rest)
  end.

(** [determineTriggerType(workflow)], on the types of [workflow.nodes]
    ([None] for a document without nodes). *)
Definition determineTriggerType (nodes : option (list (option string)))
  : outcome string :=
  match nodes with
  | None => Return "Unknown"
  | Some nodes =>
      triggerNodes <- Array_filter is_trigger_node nodes ;;
      match triggerNodes with
      | [] => Return "Manual"
      | _ :: _ :: _ => Return "Complex"
      | [triggerType] =>
          w <- type_includes triggerType "webhook" ;;
          if w then Return "Webhook"
          else
            s <- type_includes triggerType "schedule" ;;
            if s then Return "Scheduled"
            else
              t <- type_includes triggerType "trigger" ;;
              if t then Return "Triggered" else Return "Manual"
      end
  end.

(** ** Definitions used to state the properties *)

(** A node object with only a [type]. *)
Definition mk_node (ty : string) : json := JObj [("type", JStr ty)].

(** The priority of the design document on one type string:
    Webhook, then Scheduled (cron or schedule), then Triggered. *)
Definition classify (ty : string) : option string :=
  if JsString.includes ty "webhook" then Some "Webhook"
  else if JsString.includes ty "cron" || JsString.includes ty "schedule"
       then Some "Scheduled"
  else if JsString.includes ty "trigger" then Some "Triggered"
  else None.

(** The trigger type the analyzer finds in one node, if any. *)
Definition node_class (node : json) : option string :=
  match (ty <- get_prop node "type" ;; nodeTrigger (or_default ty (JStr ""))) with
  | Return c => c
  | Throw _ => None
  end.

(** The design document's reading: the first node that matches decides;
    Manual when none does. *)
Fixpoint trigger_first_match (nodes : list json) : string :=
  match nodes with
  | [] => "Manual"
  | n :: rest =>
      match node_class n with
      | Some c => c
      | None => trigger_first_match rest
      end
  end.

(** The last trigger type assigned while scanning, from [t0]. *)
Definition last_class (nodes : list json) (t0 : string) : string :=
  fold_left (fun t n => match node_class n with Some c => c | None => t end)
            nodes t0.

(** Example documents. *)
Definition ex_webhook_cron : list json :=
  [mk_node "n8n-nodes-base.webhook"; mk_node "n8n-nodes-base.cron"].

Definition ex_webhook_cron_slack : list json :=
  [mk_node "n8n-nodes-base.webhook"; mk_node "n8n-nodes-base.cron";
   mk_node "n8n-nodes-base.slack"].

Definition ex_file_webhook : corpus_file :=
  {| file_name := "0001_Webhook_Slack.json";
     file_json := Return (JObj [("name", JStr "Notify"); ("nodes", JArr ex_webhook_cron_slack)]);
     file_size_bytes := 120;
     file_md5 := "d41d8cd98f00b204e9800998ecf8427e" |}.

Definition ex_workflow_webhook : workflow :=
  {| wf_filename := "0001_Webhook_Slack.json";
     wf_name := "Notify";
     wf_workflow_id := JStr "";
     wf_active := JBool false;
     wf_nodes := ex_webhook_cron_slack;
     wf_connections := JObj [];
     wf_tags := JArr [];
     wf_created_at := JStr "";
     wf_updated_at := JStr "";
     wf_file_hash := "d41d8cd98f00b204e9800998ecf8427e";
     wf_file_size := 120;
     wf_node_count := 3;
     wf_complexity := "low";
     wf_trigger_type := "Scheduled";
     wf_integrations := ["Webhook"; "Cron"; "Slack"];
     wf_description :=
       "Scheduled workflow integrating Webhook, Cron, Slack with 3 nodes (low complexity)" |}.

(** A document made of one structural node. *)
Definition ex_file_set : corpus_file :=
  {| file_name := "0002_Set.json";
     file_json := Return (JObj [("nodes", JArr [mk_node "n8n-nodes-base.set"])]);
     file_size_bytes := 64;
     file_md5 := "0cc175b9c0f1b6a831c399e269772661" |}.

(** Two versions of one corpus file: the first posts to Slack, the
    second, edited, sends mail. *)
Definition ex_report_v1 : corpus_file :=
  {| file_name := "0003_Report.json";
     file_json := Return (JObj [("nodes", JArr [mk_node "n8n-nodes-base.slack"])]);
     file_size_bytes := 70;
     file_md5 := "92eb5ffee6ae2fec3ad71c777531578f" |}.

Definition ex_report_v2 : corpus_file :=
  {| file_name := "0003_Report.json";
     file_json := Return (JObj [("nodes", JArr [mk_node "n8n-nodes-base.gmail"])]);
     file_size_bytes := 70;
     file_md5 := "4a8a08f09d37b73795649038408b5f33" |}.

Definition fresh_database : WorkflowDatabase :=
  {| db := empty_store; initialized := false |}.

(** The shadow table mirrors the table of records. *)
Definition shadow_in_step (d : sqlite) : Prop :=
  workflows_fts d = map shadow (workflows d).

(** Counters, added up. *)
Definition no_counts : counters := {| processed := 0; skipped := 0; errors := 0 |}.

Definition add_counts (c k : counters) : counters :=
  {| processed := processed c + processed k;
     skipped := skipped c + skipped k;
     errors := errors c + errors k |}.

Definition count_sum (c : counters) : nat := processed c + skipped c + errors c.

(** A file that is not a JSON document. *)
Definition ex_file_broken : corpus_file :=
  {| file_name := "0004_Broken.json";
     file_json := Throw "SyntaxError: Unexpected token";
     file_size_bytes := 7;
     file_md5 := "8277e0910d750195b448797616e091ad" |}.

(** A directory entry the pipeline does not read. *)
Definition ex_file_readme : corpus_file :=
  {| file_name := "README.md";
     file_json := Throw "SyntaxError: Unexpected token";
     file_size_bytes := 300;
     file_md5 := "e1671797c52e15f763380b45e841ec32" |}.

(** What a second look at the same file adds to the counters: a file
    indexed before is skipped, a file that failed fails again. *)
Definition settle (k : counters) : counters :=
  {| processed := 0; skipped := processed k + skipped k; errors := errors k |}.

(** The filters of a search request as one predicate on records. *)
Definition selected (triggerFilter complexityFilter : string) (activeOnly : bool)
  (w : workflow_row) : bool :=
  (String.eqb triggerFilter "all" || String.eqb (trigger_type w) triggerFilter)
  && (String.eqb complexityFilter "all" || String.eqb (complexity w) complexityFilter)
  && (negb activeOnly || active w).

(** A stand-in for [buildFTSQuery] and the FTS5 engine on one-word
    requests: the word becomes a prefix query. *)
Definition ex_buildFTSQuery (q : string) : string := q ++ "*".

Definition ex_fts5 (text : string) : option (fts_row -> bool) :=
  Some (has_prefix (JsString.replace "*" "" text)).

(** The store after indexing the first version of the report. *)
Definition ex_indexed : WorkflowDatabase :=
  match indexWorkflows fresh_database (Return [ex_report_v1; ex_file_webhook]) false with
  | Return (self, _) => self
  | Throw _ => fresh_database
  end.

(** The reply to the request q=slack on that store. *)
Definition ex_search_body : search_response :=
  match api_workflows ex_buildFTSQuery ex_fts5 ex_indexed "slack" "all" "all" "false" 1 20 with
  | Json200 body => body
  | Json500 _ =>
      {| rsp_workflows := []; rsp_total := Some 0%nat; rsp_page := 0;
         rsp_per_page := 0; rsp_pages := Num 0 |}
  end.

(** The scores of the design document, as exact rationals. *)
Definition jaccard (a b : list string) : Q :=
  let union := List.length (Set_of (app a b)) in
  if (0 <? union)%nat
  then inject_Z (Z.of_nat (List.length (shared a b))) / inject_Z (Z.of_nat union)
  else 0.

Definition node_count_ratio (a b : nat) : Q :=
  1 - Qabs (inject_Z (Z.of_nat a - Z.of_nat b)) / inject_Z (Z.of_nat (Nat.max a b)).

Definition trigger_score (a b : string) : Q :=
  if String.eqb a b then 1 else 1 # 2.

(** combined = 0.5 integrationSimilarity + 0.3 nodeCountSimilarity
    + 0.2 triggerSimilarity *)
Definition combined_score (reference w : workflow_row) : Q :=
  (5 # 10) * jaccard (integrations reference) (integrations w)
  + (3 # 10) * node_count_ratio (node_count reference) (node_count w)
  + (2 # 10) * trigger_score (trigger_type reference) (trigger_type w).





(** Counts that the number type holds exactly and that an array can
    have: a node count below [2^53], fewer than [2^32] integrations. *)
Definition in_range (w : workflow_row) : Prop :=
  (Z.of_nat (node_count w) < 2 ^ 53)%Z
  /\ (Z.of_nat (List.length (integrations w)) < 2 ^ 32)%Z.




(** The candidates of a request: every record but the reference. *)
Definition candidates (d : sqlite) (file : string) : list workflow_row :=
  filter (fun w => negb (String.eqb (filename w) file)) (workflows d).

Definition qualifies (reference : workflow_row) (threshold : jsnum)
  (w : workflow_row) : bool :=
  js_ge (similarity reference w) threshold.

(** Records for the similarity examples. *)
Definition ex_row (rowid : nat) (file : string) (trigger : string) (count : nat)
  (ints : list string) : workflow_row :=
  {| id := rowid; filename := file; name := file; workflow_id := Text "";
     active := false; description := ""; trigger_type := trigger;
     complexity := "low"; node_count := count; integrations := ints;
     tags := JArr []; created_at := Text ""; updated_at := Text "";
     file_hash := ""; file_size := 0 |}.

Definition ex_store (rows : list workflow_row) : sqlite :=
  {| workflows := rows; workflows_fts := map shadow rows;
     sqlite_sequence := List.length rows; recursive_triggers := false |}.

(** Two documents without nodes. *)
Definition ex_empty_a : workflow_row := ex_row 1 "a.json" "Manual" 0 [].
Definition ex_empty_b : workflow_row := ex_row 2 "b.json" "Manual" 0 [].

(** A reference of 100 nodes and two candidates of 66 and 67. *)
Definition ex_ref100 : workflow_row := ex_row 1 "ref.json" "Webhook" 100 ["Slack"].
Definition ex_66 : workflow_row := ex_row 2 "c66.json" "Webhook" 66 ["Slack"].
Definition ex_67 : workflow_row := ex_row 3 "c67.json" "Webhook" 67 ["Slack"].


(** The report indexed, then edited and indexed again. *)
Definition ex_after_v1 : WorkflowDatabase * index_result :=
  match indexWorkflows fresh_database (Return [ex_report_v1]) false with
  | Return x => x
  | Throw _ =>
      (fresh_database,
       {| res_processed := 0; res_skipped := 0; res_errors := 0; res_total := 0 |})
  end.

Definition ex_after_v2 : WorkflowDatabase * index_result :=
  match indexWorkflows (fst ex_after_v1) (Return [ex_report_v2]) false with
  | Return x => x
  | Throw _ =>
      (fresh_database,
       {| res_processed := 0; res_skipped := 0; res_errors := 0; res_total := 0 |})
  end.

(** Proof steps that recur. *)

Ltac bind_inv H :=
  repeat match type of H with
         | bind ?m _ = Return _ =>
             let E := fresh "E" in
             destruct m eqn:E; simpl in H; [ | discriminate H ]
         | (let '(_, _) := ?p in _) = Return _ =>
             destruct p
         end.

Ltac eval_prepare :=
  match goal with
  | |- context [prepare ?s] =>
      let r := eval vm_compute in (prepare s) in
      change (prepare s) with r
  | H : context [prepare ?s] |- _ =>
      let r := eval vm_compute in (prepare s) in
      change (prepare s) with r in H
  end.

(** A document with only a name. *)
Definition ex_file_no_nodes : corpus_file :=
  {| file_name := "0005_Empty.json";
     file_json := Return (JObj [("name", JStr "Empty")]);
     file_size_bytes := 17;
     file_md5 := "c4ca4238a0b923820dcc509a6f75849b" |}.

Definition not_underscore (c : ascii) : bool := negb (Ascii.eqb c "_").

(** One live record per file name. *)
Definition unique_filenames (d : sqlite) : Prop :=
  NoDup (map filename (workflows d)).

(** The records [stmt.run] takes: the arguments fill the 14
    placeholders. *)
Definition storable (w : workflow) : bool :=
  match bind_all (upsert_arguments w) with
  | Return _ => true
  | Throw _ => false
  end.

(** A value that fills one placeholder: a number, a string, null, or an
    array of one of these. *)
Definition fills_one (v : json) : bool :=
  match v with
  | JNull | JNum _ | JStr _ => true
  | JArr [JNull] | JArr [JNum _] | JArr [JStr _] => true
  | _ => false
  end.

(** The value it binds. *)
Definition bound_of (v : json) : bound :=
  match v with
  | JNum z | JArr [JNum z] => BoundNumber z
  | JStr s | JArr [JStr s] => BoundText s
  | _ => BoundNull
  end.

(** Documents whose id is an array, a number, and an empty array with
    a createdAt of two elements. *)
Definition ex_file_array_id : corpus_file :=
  {| file_name := "0002_Array_Id.json";
     file_json := Return (JObj [("id", JArr [JStr "w1"]); ("name", JStr "Array id")]);
     file_size_bytes := 40;
     file_md5 := "900150983cd24fb0d6963f7d28e17f72" |}.

Definition ex_workflow_with_id (v : json) : workflow :=
  {| wf_filename := "0002_Array_Id.json";
     wf_name := "Array id";
     wf_workflow_id := v;
     wf_active := JBool false;
     wf_nodes := [];
     wf_connections := JObj [];
     wf_tags := JArr [];
     wf_created_at := JStr "";
     wf_updated_at := JStr "";
     wf_file_hash := "900150983cd24fb0d6963f7d28e17f72";
     wf_file_size := 40;
     wf_node_count := 0;
     wf_complexity := "low";
     wf_trigger_type := "Manual";
     wf_integrations := [];
     wf_description := "Manual workflow with 0 nodes (low complexity)" |}.

Definition ex_workflow_array_id : workflow := ex_workflow_with_id (JArr [JStr "w1"]).

Definition ex_file_number_id : corpus_file :=
  {| file_name := "0003_Number_Id.json";
     file_json := Return (JObj [("id", JNum 12); ("name", JStr "Number id")]);
     file_size_bytes := 36;
     file_md5 := "e2fc714c4727ee9395f324cd2e7f331f" |}.

Definition ex_file_shifted : corpus_file :=
  {| file_name := "0004_Shifted.json";
     file_json :=
       Return (JObj [("id", JArr []); ("createdAt", JArr [JStr "a"; JStr "b"]);
                     ("name", JStr "Shifted")]);
     file_size_bytes := 60;
     file_md5 := "0cc175b9c0f1b6a831c399e269772661" |}.

Definition ex_workflow_shifted : workflow :=
  match analyzeWorkflow ex_file_shifted with
  | Some w => w
  | None => ex_workflow_with_id JNull
  end.

(** A corpus with the two documents whose id is an array. *)
Definition ex_corpus_ids : list corpus_file :=
  [ex_file_array_id; ex_file_broken; ex_file_shifted].

(** A corpus of three files with distinct names, one of them broken. *)
Definition ex_corpus : list corpus_file :=
  [ex_report_v1; ex_file_broken; ex_file_webhook].

Ltac solve_NoDup :=
  repeat (apply NoDup_cons;
          [ cbn [In]; intros Hin;
            repeat (destruct Hin as [Hin | Hin]; [ discriminate Hin | ]);
            exact Hin | ]);
  apply NoDup_nil.


(** The answer to the request for the records similar to ref.json. *)
Definition ex_similar_result : similar_result :=
  match findSimilar (ex_store [ex_ref100; ex_66; ex_67]) "ref.json"
          (js_literal (7 # 10)) with
  | Return r => r
  | Throw _ =>
      {| reference_workflow := ex_ref100; similar_workflows := []; total_found := 0 |}
  end.

(** A record with the profile of the reference. *)
Definition ex_twin : workflow_row := ex_row 4 "twin.json" "Webhook" 100 ["Slack"].

Definition id_char (c : ascii) : bool := is_alnum c || Ascii.eqb c underscore.

Definition not_dquote (c : ascii) : bool := negb (is_dquote c).

Definition not_space (c : ascii) : bool := negb (JsString.is_space c).

(** A character the first [replace] blanks out or that is blank
    already. *)
Definition blank_char (c : ascii) : bool := JsString.is_space c || negb (fts_kept c).

(** A character of a search term: kept by the first [replace], neither
    white space nor a double quote. *)
Definition term_char (c : ascii) : bool :=
  fts_kept c && not_space c && not_dquote c.

(** An element of [allTerms] that is neither empty nor a bare
    wildcard. *)
Definition proper_term (e : string) : Prop := e <> EmptyString /\ e <> "*".




(** The page both listings read: the first thousand records by name. *)
Definition listing_page (d : sqlite) : list workflow_row :=
  firstn 1000 (order_by_name (workflows d)).


(** The test of the callback of [filter] on a node with a type. *)
Definition trigger_like (ty : option string) : bool :=
  match ty with
  | Some s =>
      JsString.includes s "trigger" || JsString.includes s "Trigger"
      || JsString.includes s "webhook"
  | None => false
  end.

Definition typed (ty : option string) : Prop := ty <> None.

(** ** Properties of the analyzer *)

Lemma analyzeNode_trigger (ints : list string) (t : string) (node : json)
  (ints' : list string) (t' : string) :
  analyzeNode (ints, t) node = Return (ints', t') ->
  t' = match node_class node with Some c => c | None => t end.
Proof.
  unfold analyzeNode, node_class. intros H.
  destruct (get_prop node "type") as [ty|] eqn:Ety; simpl in H; [ | discriminate H ].
  simpl.
  destruct (js_includes (or_default ty (JStr "")) ".") as [hasDot|]; simpl in H;
    [ | discriminate H ].
  match type of H with
  | bind ?m _ = _ => destruct m as [ints1|]; simpl in H; [ | discriminate H ]
  end.
  destruct (nodeTrigger (or_default ty (JStr ""))) as [tr|]; simpl in H;
    [ | discriminate H ].
  inversion H; subst. reflexivity.
Qed.

Lemma forEach_analyzeNode_trigger (nodes : list json) :
  forall ints t ints' t',
    forEach analyzeNode nodes (ints, t) = Return (ints', t') ->
    t' = last_class nodes t.
Proof.
  induction nodes as [ | n nodes IH ]; intros ints t ints' t' H;
    cbn [forEach] in H.
  - inversion H; reflexivity.
  - destruct (analyzeNode (ints, t) n) as [[ints1 t1]|] eqn:E;
      cbn [bind] in H; [ | discriminate H ].
    apply analyzeNode_trigger in E. subst t1.
    apply IH in H. exact H.
Qed.

Lemma last_class_none (nodes : list json) (t0 : string) :
  (forall n, In n nodes -> node_class n = None) -> last_class nodes t0 = t0.
Proof.
  revert t0. induction nodes as [ | n nodes IH ]; intros t0 H; simpl.
  - reflexivity.
  - unfold last_class in *. simpl. rewrite (H n (or_introl eq_refl)).
    apply IH. intros m Hm. apply H. right. exact Hm.
Qed.

Lemma last_class_app (l1 l2 : list json) (t0 : string) :
  last_class (l1 ++ l2)%list t0 = last_class l2 (last_class l1 t0).
Proof. unfold last_class. apply fold_left_app. Qed.

Lemma node_class_string (ty : string) : node_class (mk_node ty) = classify ty.
Proof.
  unfold node_class, classify, mk_node. simpl.
  destruct (String.eqb ty "") eqn:Eempty; simpl.
  - apply String.eqb_eq in Eempty. subst ty. reflexivity.
  - unfold nodeTrigger. simpl.
    destruct (JsString.includes ty "webhook"); simpl; [ reflexivity | ].
    destruct (JsString.includes ty "cron"); simpl; [ reflexivity | ].
    destruct (JsString.includes ty "schedule"); simpl; [ reflexivity | ].
    destruct (JsString.includes ty "trigger"); reflexivity.
Qed.

(** C2, as the code has it.  [analyzeNodes] scans the nodes in array
    order and every matching node overwrites the trigger type, so the
    LAST matching node decides; within one node the priority is Webhook,
    then Scheduled (cron or schedule), then Triggered; the result is
    Manual when no node matches. *)
Theorem analyzeNodes_last_match_wins (nodes : list json) (ints : list string)
  (t : string) :
  analyzeNodes nodes = Return (ints, t) ->
  ((forall n, In n nodes -> node_class n = None) -> t = "Manual")
  /\ (forall before n after c,
        nodes = (before ++ n :: after)%list ->
        node_class n = Some c ->
        (forall m, In m after -> node_class m = None) ->
        t = c)
  /\ (forall ty, node_class (mk_node ty) = classify ty).
Proof.
  unfold analyzeNodes. intros H.
  apply forEach_analyzeNode_trigger in H. subst t.
  split; [ | split ].
  - intros Hnone. apply last_class_none. exact Hnone.
  - intros before n after c Hsplit Hn Hafter. subst nodes.
    rewrite last_class_app.
    change (n :: after) with ([n] ++ after)%list. rewrite last_class_app.
    rewrite (last_class_none after _ Hafter).
    unfold last_class. simpl. rewrite Hn. reflexivity.
  - exact node_class_string.
Qed.

Lemma analyzeNodes_last_match_wins_witness :
  analyzeNodes ex_webhook_cron_slack = Return (["Webhook"; "Cron"; "Slack"], "Scheduled")
  /\ (((forall n, In n ex_webhook_cron_slack -> node_class n = None) ->
       "Scheduled" = "Manual")
      /\ (forall before n after c,
            ex_webhook_cron_slack = (before ++ n :: after)%list ->
            node_class n = Some c ->
            (forall m, In m after -> node_class m = None) ->
            "Scheduled" = c)
      /\ (forall ty, node_class (mk_node ty) = classify ty)).
Proof.
  split; [ reflexivity | ].
  apply (@analyzeNodes_last_match_wins ex_webhook_cron_slack
           ["Webhook"; "Cron"; "Slack"] "Scheduled").
  reflexivity.
Defined.

(** C2, as stated, fails: with a webhook node followed by a cron node the
    first matching node is the webhook, and the analyzer answers
    Scheduled. *)
Lemma first_match_does_not_win :
  analyzeNodes ex_webhook_cron = Return (["Webhook"; "Cron"], "Scheduled")
  /\ trigger_first_match ex_webhook_cron = "Webhook"
  /\ ~ (forall nodes ints t,
          analyzeNodes nodes = Return (ints, t) -> t = trigger_first_match nodes).
Proof.
  split; [ reflexivity | split; [ reflexivity | ] ].
  intros H.
  specialize (H ex_webhook_cron ["Webhook"; "Cron"] "Scheduled" eq_refl).
  discriminate H.
Qed.

(** What a successful analysis says about its result. *)
Lemma analyzeWorkflow_inv (f : corpus_file) (w : workflow) :
  analyzeWorkflow f = Some w ->
  wf_filename w = file_name f
  /\ wf_file_hash w = file_md5 f
  /\ wf_node_count w = List.length (wf_nodes w)
  /\ wf_complexity w =
       (if (wf_node_count w <=? 5)%nat then "low"
        else if (wf_node_count w <=? 15)%nat then "medium" else "high")
  /\ analyzeNodes (wf_nodes w) = Return (wf_integrations w, wf_trigger_type w).
Proof.
  unfold analyzeWorkflow.
  destruct (analyzeWorkflow_body f) as [w0|] eqn:E; [ | discriminate ].
  intros H; inversion H; subst w0; clear H.
  unfold analyzeWorkflow_body in E.
  bind_inv E.
  destruct (or_default _ (JArr [])) as [ | | | | nodeList | ]; try discriminate E.
  bind_inv E.
  inversion E; subst w; clear E; simpl.
  repeat split; assumption.
Qed.

Lemma getComplexityLevel_of_nat (n : nat) :
  getComplexityLevel (Z.of_nat n) =
    (if (n <=? 5)%nat then "low" else if (n <=? 15)%nat then "medium" else "high").
Proof.
  unfold getComplexityLevel.
  destruct (Nat.leb_spec n 5), (Z.leb_spec (Z.of_nat n) 5); try lia; try reflexivity.
  destruct (Nat.leb_spec n 15), (Z.leb_spec (Z.of_nat n) 15); try lia; reflexivity.
Qed.

Lemma getComplexityLevel_thresholds (n : Z) :
  (getComplexityLevel n = "low" <-> (n <= 5)%Z)
  /\ (getComplexityLevel n = "medium" <-> (6 <= n <= 15)%Z)
  /\ (getComplexityLevel n = "high" <-> (15 < n)%Z).
Proof.
  unfold getComplexityLevel.
  destruct (Z.leb_spec n 5); [ | destruct (Z.leb_spec n 15) ];
    repeat split; intros; try discriminate; try lia; reflexivity.
Qed.

(** C6.  For every analyzed document the complexity is low exactly when
    node_count <= 5, medium exactly when 6 <= node_count <= 15 and high
    exactly when node_count > 15, where node_count is the number of node
    entries; [getComplexityLevel] of the MCP server assigns the same
    classes. *)
Theorem complexity_is_a_function_of_node_count (f : corpus_file) (w : workflow) :
  analyzeWorkflow f = Some w ->
  wf_node_count w = List.length (wf_nodes w)
  /\ (wf_complexity w = "low" <-> (wf_node_count w <= 5)%nat)
  /\ (wf_complexity w = "medium" <-> (6 <= wf_node_count w <= 15)%nat)
  /\ (wf_complexity w = "high" <-> (15 < wf_node_count w)%nat)
  /\ wf_complexity w = getComplexityLevel (Z.of_nat (wf_node_count w)).
Proof.
  intros H. apply analyzeWorkflow_inv in H.
  destruct H as (_ & _ & Hcount & Hcx & _).
  split; [ exact Hcount | ].
  rewrite getComplexityLevel_of_nat, Hcx.
  destruct (Nat.leb_spec (wf_node_count w) 5);
    [ | destruct (Nat.leb_spec (wf_node_count w) 15) ];
    repeat split; intros; try discriminate; try lia; reflexivity.
Qed.

Lemma complexity_is_a_function_of_node_count_witness :
  analyzeWorkflow ex_file_webhook = Some ex_workflow_webhook
  /\ (wf_node_count ex_workflow_webhook = List.length (wf_nodes ex_workflow_webhook)
      /\ (wf_complexity ex_workflow_webhook = "low"
          <-> (wf_node_count ex_workflow_webhook <= 5)%nat)
      /\ (wf_complexity ex_workflow_webhook = "medium"
          <-> (6 <= wf_node_count ex_workflow_webhook <= 15)%nat)
      /\ (wf_complexity ex_workflow_webhook = "high"
          <-> (15 < wf_node_count ex_workflow_webhook)%nat)
      /\ wf_complexity ex_workflow_webhook
         = getComplexityLevel (Z.of_nat (wf_node_count ex_workflow_webhook))).
Proof.
  split; [ reflexivity | ].
  apply (@complexity_is_a_function_of_node_count ex_file_webhook ex_workflow_webhook).
  reflexivity.
Defined.

(** C4.  The claim fails on the analyzer that fills the index.
    [extractIntegrations] of the MCP server leaves out the node kinds
    start, noOp, function, set, if, merge and switch of n8n-nodes-base;
    [analyzeNodes] leaves out only the names core and base, so each of
    the seven becomes an integration of the analyzed document. *)
Theorem analyzeNodes_keeps_structural_kinds :
  Forall (fun kind =>
            analyzeNodes [mk_node ("n8n-nodes-base." ++ kind)]
            = Return ([JsString.capitalize kind], "Manual")
            /\ extractIntegrations [Some ("n8n-nodes-base." ++ kind)] = [])
         mcp_excluded
  /\ option_map wf_integrations (analyzeWorkflow ex_file_set) = Some ["Set"].
Proof.
  split; [ | reflexivity ].
  unfold mcp_excluded. repeat constructor.
Qed.

(** ** Properties of the index store *)

Lemma upsertWorkflow_inv (d d' : sqlite) (w : workflow) :
  upsertWorkflow d w = Return d' ->
  exists values,
    d' = insert_or_replace d values
    /\ (forall rowid, filename (values rowid) = wf_filename w)
    /\ (forall rowid, file_hash (values rowid) = wf_file_hash w)
    /\ (forall rowid, name (values rowid) = wf_name w)
    /\ (forall rowid, file_size (values rowid) = wf_file_size w).
Proof.
  unfold upsertWorkflow. intros H. bind_inv H.
  inversion H; subst d'; clear H.
  eexists. split; [ reflexivity | ].
  repeat split; intros; reflexivity.
Qed.

(** Without recursive triggers an upsert only ever adds to the shadow
    table: the rows of the record it replaces stay. *)
Lemma upsert_only_adds_shadow_rows (d d' : sqlite) (w : workflow) :
  recursive_triggers d = false ->
  upsertWorkflow d w = Return d' ->
  exists new,
    workflows_fts d' = (workflows_fts d ++ [new])%list
    /\ fts_filename new = wf_filename w.
Proof.
  intros Hoff H. apply upsertWorkflow_inv in H.
  destruct H as (values & Hd' & Hname & _).
  subst d'. unfold insert_or_replace. simpl. rewrite Hoff.
  unfold workflows_ai. eexists. split; [ reflexivity | ].
  simpl. apply Hname.
Qed.

Lemma initDatabase_recursive_triggers (d : sqlite) :
  recursive_triggers (initDatabase d) = false.
Proof. reflexivity. Qed.

Lemma filter_filter_same {A : Type} (p : A -> bool) (l : list A) :
  filter p (filter p l) = filter p l.
Proof.
  induction l as [ | a l IH ]; simpl; [ reflexivity | ].
  destruct (p a) eqn:E; simpl; [ rewrite E, IH; reflexivity | exact IH ].
Qed.

Lemma fold_workflows_ad (fn : string) (deleted : list workflow_row) :
  forall fts,
    (forall o, In o deleted -> filename o = fn) ->
    fold_left (fun fts old => workflows_ad old fts) deleted fts
    = match deleted with
      | [] => fts
      | _ :: _ => filter (fun r => negb (String.eqb (fts_filename r) fn)) fts
      end.
Proof.
  induction deleted as [ | o deleted IH ]; intros fts Hall; simpl.
  - reflexivity.
  - rewrite IH by (intros o' Ho'; apply Hall; right; exact Ho').
    unfold workflows_ad. rewrite (Hall o (or_introl eq_refl)).
    destruct deleted; [ reflexivity | apply filter_filter_same ].
Qed.

Lemma filter_none {A : Type} (p : A -> bool) (l : list A) :
  filter p l = [] -> filter (fun a => negb (p a)) l = l.
Proof.
  induction l as [ | a l IH ]; simpl; [ reflexivity | ].
  destruct (p a); simpl; [ discriminate | ].
  intros H. rewrite (IH H). reflexivity.
Qed.

Lemma shadow_of_kept (fn : string) (ws : list workflow_row) :
  filter (fun r => negb (String.eqb (fts_filename r) fn)) (map shadow ws)
  = map shadow (filter (fun w => negb (String.eqb (filename w) fn)) ws).
Proof.
  induction ws as [ | w ws IH ]; simpl; [ reflexivity | ].
  destruct (String.eqb (filename w) fn); simpl; rewrite IH; reflexivity.
Qed.

(** With recursive triggers on, the replaced record's delete trigger
    fires and an upsert keeps the shadow table in step. *)
Lemma upsert_in_step_with_recursive_triggers (d d' : sqlite) (w : workflow) :
  recursive_triggers d = true ->
  shadow_in_step d ->
  upsertWorkflow d w = Return d' ->
  shadow_in_step d'.
Proof.
  unfold shadow_in_step. intros Hon Hstep H.
  apply upsertWorkflow_inv in H. destruct H as (values & Hd' & _).
  subst d'. unfold insert_or_replace. simpl. rewrite Hon.
  set (new := values (S (sqlite_sequence d))).
  rewrite (@fold_workflows_ad (filename new)).
  - unfold workflows_ai. rewrite map_app. simpl. f_equal.
    rewrite Hstep.
    destruct (filter _ (workflows d)) eqn:E.
    + apply filter_none in E. rewrite E. reflexivity.
    + apply shadow_of_kept.
  - intros o Ho. apply filter_In in Ho. destruct Ho as [_ Ho].
    apply String.eqb_eq in Ho. exact Ho.
Qed.

Lemma fts_join_In (d : sqlite) (matches : fts_row -> bool) (w : workflow_row) :
  In w (fts_join d matches) -> In w (workflows d).
Proof.
  unfold fts_join. intros H. apply in_flat_map in H.
  destruct H as (r & _ & H). destruct (matches r); [ | contradiction ].
  apply filter_In in H. apply H.
Qed.

Lemma filter_nothing {A : Type} (p : A -> bool) (l : list A) :
  (forall a, In a l -> p a = false) -> filter p l = [].
Proof.
  induction l as [ | a l IH ]; intros H; simpl; [ reflexivity | ].
  rewrite (H a (or_introl eq_refl)). apply IH.
  intros b Hb. apply H. right. exact Hb.
Qed.

(** The delete trigger: after a DELETE no search has a hit for the
    file. *)
Lemma delete_leaves_no_hit (d : sqlite) (file : string) (matches : fts_row -> bool) :
  hits_for (delete_by_filename d file) matches file = [].
Proof.
  unfold hits_for. apply filter_nothing. intros w Hw.
  apply fts_join_In in Hw. unfold delete_by_filename in Hw. simpl in Hw.
  apply filter_In in Hw. destruct Hw as [_ Hw].
  apply negb_true_iff in Hw. exact Hw.
Qed.

(** Without recursive triggers, whatever matched the shadow row of a
    record still finds the file after the record is replaced. *)
Lemma replaced_record_is_still_found (d d' : sqlite) (w : workflow)
  (old : workflow_row) (matches : fts_row -> bool) :
  recursive_triggers d = false ->
  In (shadow old) (workflows_fts d) ->
  filename old = wf_filename w ->
  upsertWorkflow d w = Return d' ->
  matches (shadow old) = true ->
  exists hit, In hit (hits_for d' matches (wf_filename w)).
Proof.
  intros Hoff Hin Hname Hup Hmatch.
  apply upsertWorkflow_inv in Hup. destruct Hup as (values & Hd' & Hfn & _).
  subst d'. exists (values (S (sqlite_sequence d))).
  unfold hits_for. apply filter_In. split.
  - unfold fts_join. apply in_flat_map. exists (shadow old). split.
    + unfold insert_or_replace. cbn [workflows_fts]. rewrite Hoff.
      unfold workflows_ai. apply in_or_app. left. exact Hin.
    + rewrite Hmatch. apply filter_In. split.
      * unfold insert_or_replace. cbn [workflows]. apply in_or_app. right.
        left. reflexivity.
      * cbn [shadow fts_filename]. rewrite Hfn, Hname. apply String.eqb_refl.
  - rewrite Hfn. apply String.eqb_refl.
Qed.

(** C1.  The claim fails on the code: a record replaced by an upsert
    keeps its old shadow row.  The corpus file 0003_Report.json is
    indexed, edited and indexed again; the table of records then holds
    one row, the shadow table two, and the search for slack, a token of
    the first version only, has a hit for the file. *)
Theorem replaced_record_keeps_its_shadow_row :
  indexWorkflows fresh_database (Return [ex_report_v1]) false = Return ex_after_v1
  /\ indexWorkflows (fst ex_after_v1) (Return [ex_report_v2]) false
     = Return ex_after_v2
  /\ res_processed (snd ex_after_v1) = 1%nat
  /\ res_processed (snd ex_after_v2) = 1%nat
  /\ map description (workflows (db (fst ex_after_v2)))
     = ["Manual workflow integrating Gmail with 1 nodes (low complexity)"]
  /\ map fts_description (workflows_fts (db (fst ex_after_v2)))
     = ["Manual workflow integrating Slack with 1 nodes (low complexity)";
        "Manual workflow integrating Gmail with 1 nodes (low complexity)"]
  /\ map (has_token "slack") (map shadow (workflows (db (fst ex_after_v2))))
     = [false]
  /\ map filename
       (hits_for (db (fst ex_after_v2)) (has_token "slack") "0003_Report.json")
     = ["0003_Report.json"].
Proof.
  repeat split; vm_compute; reflexivity.
Qed.

(** ** Properties of the indexing pipeline *)

Lemma add_counts_assoc (c k1 k2 : counters) :
  add_counts c (add_counts k1 k2) = add_counts (add_counts c k1) k2.
Proof. unfold add_counts. simpl. f_equal; lia. Qed.

Lemma add_no_counts (c : counters) : add_counts c no_counts = c.
Proof. destruct c. unfold add_counts. simpl. f_equal; lia. Qed.

(** One file moves the store as it would from fresh counters, and adds
    its own count to the counters. *)
Lemma index_file_counts (force : bool) (d : sqlite) (c : counters) (f : corpus_file) :
  index_file force (d, c) f
  = (fst (index_file force (d, no_counts) f),
     add_counts c (snd (index_file force (d, no_counts) f))).
Proof.
  destruct c as [p s e]. unfold index_file, add_counts.
  destruct (analyzeWorkflow f) as [w|]; simpl.
  - destruct (negb force && _); simpl.
    + f_equal. f_equal; lia.
    + destruct (upsertWorkflow d w); simpl; f_equal; f_equal; lia.
  - f_equal. f_equal; lia.
Qed.

(** Each file increments exactly one counter. *)
Lemma index_file_one (force : bool) (d : sqlite) (f : corpus_file) :
  count_sum (snd (index_file force (d, no_counts) f)) = 1%nat.
Proof.
  unfold index_file, count_sum.
  destruct (analyzeWorkflow f) as [w|]; simpl; [ | reflexivity ].
  destruct (negb force && _); simpl; [ reflexivity | ].
  destruct (upsertWorkflow d w); reflexivity.
Qed.

Lemma index_file_exactly_one (force : bool) (d : sqlite) (c : counters)
  (f : corpus_file) :
  let c' := snd (index_file force (d, c) f) in
  (processed c' = S (processed c) /\ skipped c' = skipped c
   /\ errors c' = errors c)
  \/ (processed c' = processed c /\ skipped c' = S (skipped c)
      /\ errors c' = errors c)
  \/ (processed c' = processed c /\ skipped c' = skipped c
      /\ errors c' = S (errors c)).
Proof.
  unfold index_file.
  destruct (analyzeWorkflow f) as [w|]; cbn [snd processed skipped errors];
    [ | right; right; repeat split ].
  destruct (negb force && _); cbn [snd processed skipped errors];
    [ right; left; repeat split | ].
  destruct (upsertWorkflow d w); cbn [snd processed skipped errors];
    [ left | right; right ]; repeat split.
Qed.

Lemma index_loop_counts (force : bool) (l : list corpus_file) :
  forall d c,
    index_loop force l (d, c)
    = (fst (index_loop force l (d, no_counts)),
       add_counts c (snd (index_loop force l (d, no_counts)))).
Proof.
  unfold index_loop.
  induction l as [ | f l IH ]; intros d c; cbn [fold_left].
  - cbn [fst snd]. rewrite add_no_counts. reflexivity.
  - rewrite (index_file_counts force d c f).
    destruct (index_file force (d, no_counts) f) as [d1 k1]. cbn [fst snd].
    rewrite (IH d1 (add_counts c k1)). rewrite (IH d1 k1). cbn [fst snd].
    rewrite add_counts_assoc. reflexivity.
Qed.

Lemma index_loop_sum (force : bool) (l : list corpus_file) :
  forall d, count_sum (snd (index_loop force l (d, no_counts))) = List.length l.
Proof.
  induction l as [ | f l IH ]; intros d; [ reflexivity | ].
  unfold index_loop. cbn [fold_left].
  pose proof (index_file_one force d f) as H1.
  destruct (index_file force (d, no_counts) f) as [d1 k1]. cbn [snd] in H1.
  change (fold_left (index_file force) l (d1, k1))
    with (index_loop force l (d1, k1)).
  rewrite index_loop_counts. cbn [snd].
  specialize (IH d1).
  unfold count_sum, add_counts in *. cbn [processed skipped errors] in *.
  cbn [List.length]. lia.
Qed.

(** C10.  For every indexing run that enumerates its directory, the
    call returns, total is the number of .json entries,
    processed + skipped + errors = total, and each turn of the loop
    adds one to exactly one of the three counters. *)
Theorem counters_add_up_to_total (self : WorkflowDatabase)
  (workflowFiles : list corpus_file) (forceReindex : bool) :
  (exists self' r,
     indexWorkflows self (Return workflowFiles) forceReindex = Return (self', r)
     /\ res_total r = List.length (jsonFiles_of workflowFiles)
     /\ (res_processed r + res_skipped r + res_errors r = res_total r)%nat)
  /\ (forall d c f,
        let c' := snd (index_file forceReindex (d, c) f) in
        (processed c' = S (processed c) /\ skipped c' = skipped c
         /\ errors c' = errors c)
        \/ (processed c' = processed c /\ skipped c' = S (skipped c)
            /\ errors c' = errors c)
        \/ (processed c' = processed c /\ skipped c' = skipped c
            /\ errors c' = S (errors c))).
Proof.
  split; [ | exact (index_file_exactly_one forceReindex) ].
  unfold indexWorkflows. cbn [bind].
  pose proof (index_loop_sum forceReindex (jsonFiles_of workflowFiles)
                (db (initialize self))) as Hsum.
  fold no_counts.
  destruct (index_loop forceReindex (jsonFiles_of workflowFiles)
              (db (initialize self), no_counts)) as [d c].
  do 2 eexists. split; [ reflexivity | ]. simpl.
  split; [ reflexivity | exact Hsum ].
Qed.

Lemma index_file_failed_analysis (force : bool) (d : sqlite) (c : counters)
  (bad : corpus_file) :
  analyzeWorkflow bad = None ->
  index_file force (d, c) bad
  = (d, {| processed := processed c; skipped := skipped c; errors := S (errors c) |}).
Proof. intros H. unfold index_file. rewrite H. reflexivity. Qed.

Lemma jsonFiles_of_insert (before after : list corpus_file) (f : corpus_file) :
  JsString.endsWith (file_name f) ".json" = true ->
  jsonFiles_of (before ++ f :: after)
  = (jsonFiles_of before ++ f :: jsonFiles_of after)%list.
Proof.
  intros H. unfold jsonFiles_of. rewrite filter_app. cbn [filter].
  rewrite H. reflexivity.
Qed.

Lemma jsonFiles_of_app (before after : list corpus_file) :
  jsonFiles_of (before ++ after)
  = (jsonFiles_of before ++ jsonFiles_of after)%list.
Proof. unfold jsonFiles_of. apply filter_app. Qed.

(** C9.  A file whose analysis fails adds one to the error counter and
    nothing else: the run over a corpus with such a file anywhere in it
    returns, ends in the same store and reports the same processed and
    skipped counts as the run over the corpus without it, with errors
    and total one higher. *)
Theorem failed_analysis_is_counted_and_passed_over (self : WorkflowDatabase)
  (before after : list corpus_file) (bad : corpus_file) (forceReindex : bool) :
  JsString.endsWith (file_name bad) ".json" = true ->
  analyzeWorkflow bad = None ->
  exists self' r,
    indexWorkflows self (Return (before ++ after)%list) forceReindex
    = Return (self', r)
    /\ indexWorkflows self (Return (before ++ bad :: after)%list) forceReindex
       = Return (self', {| res_processed := res_processed r;
                           res_skipped := res_skipped r;
                           res_errors := S (res_errors r);
                           res_total := S (res_total r) |}).
Proof.
  intros Hjson Hbad. unfold indexWorkflows. cbn [bind].
  rewrite (jsonFiles_of_insert before after bad Hjson).
  rewrite (jsonFiles_of_app before after).
  unfold index_loop. rewrite !fold_left_app. cbn [fold_left].
  destruct (fold_left (index_file forceReindex) (jsonFiles_of before)
              (db (initialize self), _)) as [d1 c1].
  rewrite (index_file_failed_analysis forceReindex d1 c1 bad Hbad).
  change (fold_left (index_file forceReindex) (jsonFiles_of after))
    with (index_loop forceReindex (jsonFiles_of after)).
  rewrite (index_loop_counts forceReindex (jsonFiles_of after) d1 c1).
  rewrite (index_loop_counts forceReindex (jsonFiles_of after) d1
             {| processed := processed c1; skipped := skipped c1;
                errors := S (errors c1) |}).
  destruct (index_loop forceReindex (jsonFiles_of after) (d1, no_counts)) as [d2 k].
  cbn [fst snd]. do 2 eexists. split; [ reflexivity | ].
  unfold add_counts. cbn [processed skipped errors res_processed res_skipped
                          res_errors res_total].
  rewrite !length_app. cbn [List.length].
  rewrite <- plus_n_Sm. reflexivity.
Qed.

Lemma failed_analysis_is_counted_and_passed_over_witness :
  (JsString.endsWith (file_name ex_file_broken) ".json" = true
   /\ analyzeWorkflow ex_file_broken = None)
  /\ exists self' r,
       indexWorkflows fresh_database (Return ([ex_report_v1] ++ [ex_file_webhook])%list) false
       = Return (self', r)
       /\ indexWorkflows fresh_database
            (Return ([ex_report_v1] ++ ex_file_broken :: [ex_file_webhook])%list) false
          = Return (self', {| res_processed := res_processed r;
                              res_skipped := res_skipped r;
                              res_errors := S (res_errors r);
                              res_total := S (res_total r) |}).
Proof.
  split; [ split; reflexivity | ].
  apply (@failed_analysis_is_counted_and_passed_over fresh_database
           [ex_report_v1] [ex_file_webhook] ex_file_broken false);
    reflexivity.
Defined.

Lemma find_app_first {A : Type} (p : A -> bool) (l1 l2 : list A) :
  find p (l1 ++ l2) = match find p l1 with
                      | Some a => Some a
                      | None => find p l2
                      end.
Proof.
  induction l1 as [ | a l1 IH ]; simpl; [ reflexivity | ].
  destruct (p a); [ reflexivity | exact IH ].
Qed.

Lemma find_filter_agree {A : Type} (p q : A -> bool) (l : list A) :
  (forall a, p a = true -> q a = true) ->
  find p (filter q l) = find p l.
Proof.
  intros Hpq. induction l as [ | a l IH ]; simpl; [ reflexivity | ].
  destruct (q a) eqn:Eq; simpl.
  - rewrite IH. reflexivity.
  - destruct (p a) eqn:Ep; [ | exact IH ].
    rewrite (Hpq a Ep) in Eq. discriminate Eq.
Qed.

Lemma find_filter_disjoint {A : Type} (p : A -> bool) (l : list A) :
  find p (filter (fun a => negb (p a)) l) = None.
Proof.
  induction l as [ | a l IH ]; simpl; [ reflexivity | ].
  destruct (p a) eqn:Ep; simpl; [ exact IH | rewrite Ep; exact IH ].
Qed.

(** The record found under a name after INSERT OR REPLACE. *)
Lemma getWorkflowByFilename_insert (d : sqlite) (values : nat -> workflow_row)
  (file : string) :
  getWorkflowByFilename (insert_or_replace d values) file
  = if String.eqb (filename (values (S (sqlite_sequence d)))) file
    then Some (values (S (sqlite_sequence d)))
    else getWorkflowByFilename d file.
Proof.
  unfold getWorkflowByFilename, insert_or_replace. cbn [workflows].
  set (new := values (S (sqlite_sequence d))).
  rewrite find_app_first. cbn [find].
  destruct (String.eqb (filename new) file) eqn:E.
  - apply String.eqb_eq in E. rewrite <- E.
    rewrite find_filter_disjoint. reflexivity.
  - rewrite find_filter_agree.
    + destruct (find _ (workflows d)); reflexivity.
    + intros w Hw. apply String.eqb_eq in Hw.
      apply negb_true_iff. rewrite Hw, String.eqb_sym. exact E.
Qed.

(** Whether [stmt.run] throws depends on the record alone. *)
Lemma upsertWorkflow_throws_anywhere (d d2 : sqlite) (w : workflow) (e : string) :
  upsertWorkflow d w = Throw e -> upsertWorkflow d2 w = Throw e.
Proof.
  unfold upsertWorkflow.
  destruct (bind_all (upsert_arguments w)); cbn [bind]; [ | exact (fun H => H) ].
  discriminate.
Qed.

(** One file leaves the records of the other names alone. *)
Lemma index_file_other_names (force : bool) (d : sqlite) (c : counters)
  (f : corpus_file) (file : string) :
  file <> file_name f ->
  getWorkflowByFilename (fst (index_file force (d, c) f)) file
  = getWorkflowByFilename d file.
Proof.
  intros Hne. unfold index_file.
  destruct (analyzeWorkflow f) as [w|] eqn:Ew; [ | reflexivity ].
  destruct (negb force && _); [ reflexivity | ].
  destruct (upsertWorkflow d w) as [d'|] eqn:Eu; [ | reflexivity ].
  cbn [fst]. apply upsertWorkflow_inv in Eu.
  destruct Eu as (values & Hd' & Hname & _). subst d'.
  rewrite getWorkflowByFilename_insert, Hname.
  apply analyzeWorkflow_inv in Ew. destruct Ew as (Hfn & _). rewrite Hfn.
  destruct (String.eqb (file_name f) file) eqn:E; [ | reflexivity ].
  apply String.eqb_eq in E. congruence.
Qed.

Lemma index_loop_other_names (force : bool) (l : list corpus_file) (file : string) :
  forall d c,
    ~ In file (map file_name l) ->
    getWorkflowByFilename (fst (index_loop force l (d, c))) file
    = getWorkflowByFilename d file.
Proof.
  unfold index_loop.
  induction l as [ | f l IH ]; intros d c Hnot; cbn [fold_left]; [ reflexivity | ].
  cbn [map In] in Hnot.
  destruct (index_file force (d, c) f) as [d1 c1] eqn:E.
  rewrite IH by tauto.
  change d1 with (fst (d1, c1)). rewrite <- E.
  apply index_file_other_names. intros Heq. apply Hnot. left. congruence.
Qed.

(** A second look at a file, in any store that holds for its name what
    the first look left there. *)
Lemma index_file_settled (d da d2 : sqlite) (ka : counters) (f : corpus_file) :
  index_file false (d, no_counts) f = (da, ka) ->
  getWorkflowByFilename d2 (file_name f) = getWorkflowByFilename da (file_name f) ->
  index_file false (d2, no_counts) f = (d2, settle ka).
Proof.
  unfold index_file. cbn [negb andb].
  destruct (analyzeWorkflow f) as [w|] eqn:Ew.
  - pose proof (@analyzeWorkflow_inv f w Ew) as (Hfn & _).
    destruct (match getWorkflowByFilename d (file_name f) with
              | Some existing => String.eqb (file_hash existing) (wf_file_hash w)
              | None => false
              end) eqn:Eun.
    + intros H Hsame. inversion H; subst da ka; clear H.
      rewrite Hsame, Eun. reflexivity.
    + destruct (upsertWorkflow d w) as [d'|e] eqn:Eu.
      * intros H Hsame. inversion H; subst da ka; clear H.
        rewrite Hsame.
        apply upsertWorkflow_inv in Eu.
        destruct Eu as (values & Hd' & Hname & Hhash & _). subst d'.
        rewrite getWorkflowByFilename_insert, Hname, Hfn, String.eqb_refl.
        rewrite Hhash, String.eqb_refl. reflexivity.
      * intros H Hsame. inversion H; subst da ka; clear H.
        rewrite Hsame, Eun.
        rewrite (@upsertWorkflow_throws_anywhere d d2 w e Eu). reflexivity.
  - intros H _. inversion H; subst da ka; clear H. reflexivity.
Qed.

Lemma settle_add (k1 k2 : counters) :
  add_counts (settle k1) (settle k2) = settle (add_counts k1 k2).
Proof. unfold settle, add_counts. simpl. f_equal; lia. Qed.

(** The second pass over a corpus, in any store that agrees with the
    result of the first pass on the names of the corpus. *)
Lemma index_loop_settled (l : list corpus_file) :
  forall d d2,
    NoDup (map file_name l) ->
    (forall f, In f l ->
       getWorkflowByFilename d2 (file_name f)
       = getWorkflowByFilename (fst (index_loop false l (d, no_counts))) (file_name f)) ->
    index_loop false l (d2, no_counts)
    = (d2, settle (snd (index_loop false l (d, no_counts)))).
Proof.
  induction l as [ | f l IH ]; intros d d2 Hnodup Hagree; [ reflexivity | ].
  cbn [map] in Hnodup. apply NoDup_cons_iff in Hnodup.
  destruct Hnodup as [Hfresh Hnodup].
  unfold index_loop in *. cbn [fold_left] in *.
  destruct (index_file false (d, no_counts) f) as [da ka] eqn:Ea.
  change (fold_left (index_file false) l) with (index_loop false l) in *.
  rewrite (index_loop_counts false l da ka) in Hagree |- *. cbn [fst snd] in *.
  assert (Hf : getWorkflowByFilename d2 (file_name f)
               = getWorkflowByFilename da (file_name f)).
  { rewrite (Hagree f (or_introl eq_refl)).
    apply index_loop_other_names. exact Hfresh. }
  rewrite (@index_file_settled d da d2 ka f Ea Hf).
  rewrite (index_loop_counts false l d2 (settle ka)).
  unfold index_loop in *.
  rewrite (IH da d2 Hnodup).
  - cbn [fst snd]. rewrite settle_add. reflexivity.
  - intros g Hg. apply Hagree. right. exact Hg.
Qed.

Lemma NoDup_names_jsonFiles (l : list corpus_file) :
  NoDup (map file_name l) -> NoDup (map file_name (jsonFiles_of l)).
Proof.
  unfold jsonFiles_of.
  induction l as [ | f l IH ]; intros H; cbn [filter map] in *; [ exact H | ].
  apply NoDup_cons_iff in H. destruct H as [Hfresh H].
  destruct (JsString.endsWith (file_name f) ".json"); [ | exact (IH H) ].
  cbn [map]. apply NoDup_cons; [ | exact (IH H) ].
  intros Hin. apply Hfresh. apply in_map_iff in Hin.
  destruct Hin as (g & Hg & Hin). apply filter_In in Hin.
  apply in_map_iff. exists g. tauto.
Qed.

(** C7, as the code has it.  Over a corpus that does not change between
    two consecutive runs without force, the second run leaves the store
    as it is and returns processed = 0, the error count of the first
    run, and skipped = total - errors; skipped = total when the first
    run met no error. *)
Theorem second_run_processes_nothing (self : WorkflowDatabase)
  (workflowFiles : list corpus_file) :
  NoDup (map file_name workflowFiles) ->
  exists self1 r1 self2 r2,
    indexWorkflows self (Return workflowFiles) false = Return (self1, r1)
    /\ indexWorkflows self1 (Return workflowFiles) false = Return (self2, r2)
    /\ db self2 = db self1
    /\ res_processed r2 = 0%nat
    /\ res_errors r2 = res_errors r1
    /\ res_skipped r2 = (res_total r2 - res_errors r2)%nat
    /\ (res_errors r1 = 0%nat -> res_skipped r2 = res_total r2).
Proof.
  intros Hnodup. apply NoDup_names_jsonFiles in Hnodup.
  unfold indexWorkflows. cbn [bind]. fold no_counts.
  pose proof (index_loop_sum false (jsonFiles_of workflowFiles)
                (db (initialize self))) as Hsum.
  pose proof (@index_loop_settled (jsonFiles_of workflowFiles)
                (db (initialize self))
                (fst (index_loop false (jsonFiles_of workflowFiles)
                        (db (initialize self), no_counts)))
                Hnodup (fun f _ => eq_refl)) as Hsecond.
  destruct (index_loop false (jsonFiles_of workflowFiles)
              (db (initialize self), no_counts)) as [d1 k1].
  cbn [fst snd] in *.
  do 4 eexists. split; [ reflexivity | ].
  unfold initialize. cbn [initialized db]. rewrite Hsecond.
  split; [ reflexivity | ].
  unfold count_sum in Hsum.
  cbn [db res_processed res_skipped res_errors res_total settle
       processed skipped errors].
  repeat split; lia.
Qed.

Lemma second_run_processes_nothing_witness :
  NoDup (map file_name [ex_report_v1; ex_file_broken; ex_file_webhook])
  /\ exists self1 r1 self2 r2,
       indexWorkflows fresh_database
         (Return [ex_report_v1; ex_file_broken; ex_file_webhook]) false
       = Return (self1, r1)
       /\ indexWorkflows self1
            (Return [ex_report_v1; ex_file_broken; ex_file_webhook]) false
          = Return (self2, r2)
       /\ db self2 = db self1
       /\ res_processed r2 = 0%nat
       /\ res_errors r2 = res_errors r1
       /\ res_skipped r2 = (res_total r2 - res_errors r2)%nat
       /\ (res_errors r1 = 0%nat -> res_skipped r2 = res_total r2).
Proof.
  assert (H : NoDup (map file_name [ex_report_v1; ex_file_broken; ex_file_webhook])).
  { cbn [map file_name ex_report_v1 ex_file_broken ex_file_webhook].
    repeat (apply NoDup_cons;
            [ cbn [In]; intros Hin;
              repeat (destruct Hin as [Hin | Hin]; [ discriminate Hin | ]);
              exact Hin | ]).
    apply NoDup_nil. }
  split; [ exact H | ].
  apply (@second_run_processes_nothing fresh_database
           [ex_report_v1; ex_file_broken; ex_file_webhook] H).
Defined.

(** C7, as stated, fails: over an unchanged corpus with one file that is
    not a JSON document the second run counts that file as an error
    again, so skipped stays below total. *)
Lemma second_run_skipped_below_total :
  exists self1 r1 self2 r2,
    indexWorkflows fresh_database (Return [ex_report_v1; ex_file_broken]) false
    = Return (self1, r1)
    /\ indexWorkflows self1 (Return [ex_report_v1; ex_file_broken]) false
       = Return (self2, r2)
    /\ res_processed r2 = 0%nat
    /\ res_skipped r2 = 1%nat
    /\ res_errors r2 = 1%nat
    /\ res_total r2 = 2%nat
    /\ res_skipped r2 <> res_total r2.
Proof.
  do 4 eexists. vm_compute. repeat split; try reflexivity. discriminate.
Qed.

(** ** Properties of the double arithmetic *)

Unset Implicit Arguments.

Lemma two_neq_0 : ~ 2 == 0.
Proof. intros H. discriminate H. Qed.

Lemma pow2_pos (z : Z) : 0 < 2 ^ z.
Proof. apply Qpower_0_lt. reflexivity. Qed.

Lemma pow2_neq_0 (z : Z) : ~ 2 ^ z == 0.
Proof. apply Qpower_not_0, two_neq_0. Qed.

Lemma pow2_le (a b : Z) : (a <= b)%Z -> 2 ^ a <= 2 ^ b.
Proof. intros H. apply Qpower_le_compat_l; [ exact H | discriminate ]. Qed.

Lemma pow2_lt (a b : Z) : (a < b)%Z -> 2 ^ a < 2 ^ b.
Proof. intros H. apply Qpower_lt_compat_l; [ exact H | reflexivity ]. Qed.

Lemma pow2_lt_inv (a b : Z) : 2 ^ a < 2 ^ b -> (a < b)%Z.
Proof. intros H. apply (Qpower_lt_compat_l_inv 2); [ exact H | reflexivity ]. Qed.

Lemma pow2_plus (a b : Z) : 2 ^ (a + b) == 2 ^ a * 2 ^ b.
Proof. apply Qpower_plus, two_neq_0. Qed.

Lemma pow2_minus (a b : Z) : 2 ^ (a - b) == 2 ^ a / 2 ^ b.
Proof. apply Qpower_minus, two_neq_0. Qed.

Lemma pow2_inject (n : Z) : (0 <= n)%Z -> inject_Z (2 ^ n) == 2 ^ n.
Proof. intros H. apply (Zpower_Qpower 2 n H). Qed.

(** [q / 2^E] as a product. *)
Lemma div_pow2 (q : Q) (E : Z) : q / 2 ^ E == q * 2 ^ (- E).
Proof.
  unfold Qdiv. rewrite Qpower_opp. reflexivity.
Qed.

Lemma mul_div_pow2 (q : Q) (E : Z) : q / 2 ^ E * 2 ^ E == q.
Proof.
  field. apply pow2_neq_0.
Qed.

Lemma inject_Z_pos (z : Z) : (0 < z)%Z -> 0 < inject_Z z.
Proof. intros H. unfold Qlt. cbn. lia. Qed.

Lemma inject_Z_nonneg (z : Z) : (0 <= z)%Z -> 0 <= inject_Z z.
Proof. intros H. unfold Qle. cbn. lia. Qed.

Lemma ilog2_spec (q : Q) : 0 < q -> 2 ^ ilog2 q <= q /\ q < 2 ^ (ilog2 q + 1).
Proof.
  intros Hq. unfold ilog2.
  destruct q as [n d]. cbn [Qnum Qden].
  assert (Hn : (0 < n)%Z).
  { unfold Qlt in Hq. cbn in Hq. lia. }
  pose proof (Z.log2_spec n Hn) as [Ha1 Ha2].
  pose proof (Z.log2_spec (Zpos d) (Pos2Z.is_pos d)) as [Hb1 Hb2].
  pose proof (Z.log2_nonneg n) as Ha0.
  pose proof (Z.log2_nonneg (Zpos d)) as Hb0.
  set (a := Z.log2 n) in *. set (b := Z.log2 (Zpos d)) in *.
  assert (H2b : (0 < 2 ^ b)%Z) by (apply Z.pow_pos_nonneg; lia).
  assert (H2b' : (0 < 2 ^ (b + 1))%Z) by (apply Z.pow_pos_nonneg; lia).
  assert (H2bs : (2 ^ (b + 1) = 2 * 2 ^ b)%Z).
  { rewrite Z.pow_add_r by lia. lia. }
  assert (H2as : (2 ^ (a + 1) = 2 * 2 ^ a)%Z).
  { rewrite Z.pow_add_r by lia. lia. }
  assert (Hq' : n # d == inject_Z n / inject_Z (Zpos d)).
  { rewrite Qmake_Qdiv. reflexivity. }
  assert (Hd : 0 < inject_Z (Zpos d)) by (apply inject_Z_pos; lia).
  destruct (Qle_bool (2 ^ (a - b)) (n # d)) eqn:E.
  - apply Qle_bool_iff in E. split; [ exact E | ].
    replace (a - b + 1)%Z with ((a + 1) - b)%Z by lia.
    rewrite pow2_minus, Hq'.
    rewrite <- !pow2_inject by lia.
    assert (Hpb : 0 < inject_Z (2 ^ b)) by (apply inject_Z_pos; exact H2b).
    apply Qlt_shift_div_l; [ exact Hpb | ].
    unfold Qdiv. rewrite <- Qmult_assoc, (Qmult_comm (/ _)), Qmult_assoc.
    apply Qlt_shift_div_r; [ exact Hd | ].
    { rewrite <- !inject_Z_mult, <- Zlt_Qlt.
      replace (Z.succ a) with (a + 1)%Z in Ha2 by lia.
      nia. }
  - assert (E' : n # d < 2 ^ (a - b)).
    { apply Qnot_le_lt. intros H. apply Qle_bool_iff in H. congruence. }
    split.
    + replace (a - b - 1)%Z with (a - (b + 1))%Z by lia.
      rewrite pow2_minus, Hq'.
      rewrite <- !pow2_inject by lia.
      assert (Hpb : 0 < inject_Z (2 ^ (b + 1))) by (apply inject_Z_pos; exact H2b').
      apply Qle_shift_div_r; [ exact Hpb | ].
      unfold Qdiv. rewrite <- Qmult_assoc, (Qmult_comm (/ _)), Qmult_assoc.
      apply Qle_shift_div_l; [ exact Hd | ].
      rewrite <- !inject_Z_mult, <- Zle_Qle.
      replace (Z.succ b) with (b + 1)%Z in Hb2 by lia.
      nia.
    + replace (a - b - 1 + 1)%Z with (a - b)%Z by lia. exact E'.
Qed.

Lemma ilog2_unique (q : Q) (e : Z) :
  0 < q -> 2 ^ e <= q -> q < 2 ^ (e + 1) -> ilog2 q = e.
Proof.
  intros Hq Hlo Hhi. destruct (ilog2_spec q Hq) as [Hlo' Hhi'].
  assert (H1 : (ilog2 q < e + 1)%Z).
  { apply pow2_lt_inv. apply Qle_lt_trans with q; assumption. }
  assert (H2 : (e < ilog2 q + 1)%Z).
  { apply pow2_lt_inv. apply Qle_lt_trans with q; assumption. }
  lia.
Qed.

Lemma ilog2_mono (x y : Q) : 0 < x -> x <= y -> (ilog2 x <= ilog2 y)%Z.
Proof.
  intros Hx Hxy.
  assert (Hy : 0 < y) by (apply Qlt_le_trans with x; assumption).
  destruct (ilog2_spec x Hx) as [Hlo _].
  destruct (ilog2_spec y Hy) as [_ Hhi].
  assert (H : (ilog2 x < ilog2 y + 1)%Z).
  { apply pow2_lt_inv. apply Qle_lt_trans with x; [ exact Hlo | ].
    apply Qle_lt_trans with y; assumption. }
  lia.
Qed.

Lemma ilog2_comp (x y : Q) : 0 < x -> x == y -> ilog2 x = ilog2 y.
Proof.
  intros Hx Hxy. symmetry.
  assert (Hy : 0 < y) by (rewrite <- Hxy; exact Hx).
  destruct (ilog2_spec x Hx) as [Hlo Hhi].
  apply ilog2_unique; [ exact Hy | rewrite <- Hxy; exact Hlo | rewrite <- Hxy; exact Hhi ].
Qed.

(** *** The nearest integer *)

Lemma rne_comp (x y : Q) : x == y -> rne x = rne y.
Proof.
  intros H. unfold rne. rewrite (Qfloor_comp x y H).
  assert (Hc : Qcompare (x - inject_Z (Qfloor y)) (1 # 2)
               = Qcompare (y - inject_Z (Qfloor y)) (1 # 2)).
  { apply Qcompare_comp; [ rewrite H; reflexivity | reflexivity ]. }
  rewrite Hc. reflexivity.
Qed.

Lemma rne_floor (x : Q) : (Qfloor x <= rne x <= Qfloor x + 1)%Z.
Proof.
  unfold rne.
  destruct (Qcompare (x - inject_Z (Qfloor x)) (1 # 2));
    [ destruct (Z.even (Qfloor x)) | | ]; lia.
Qed.

Lemma Qfloor_inject (k : Z) : Qfloor (inject_Z k) = k.
Proof.
  unfold Qfloor, inject_Z. cbn. apply Z.div_1_r.
Qed.

Lemma rne_integer (k : Z) : rne (inject_Z k) = k.
Proof.
  unfold rne. rewrite Qfloor_inject.
  assert (H : Qcompare (inject_Z k - inject_Z k) (1 # 2) = Lt).
  { apply Qlt_alt. setoid_replace (inject_Z k - inject_Z k) with 0 by ring.
    reflexivity. }
  rewrite H. reflexivity.
Qed.


Lemma rne_mono (x y : Q) : x <= y -> (rne x <= rne y)%Z.
Proof.
  intros Hxy.
  pose proof (Qfloor_resp_le x y Hxy) as Hf.
  pose proof (rne_floor x) as Hx. pose proof (rne_floor y) as Hy.
  destruct (Z.eq_dec (Qfloor x) (Qfloor y)) as [Heq | Hne]; [ | lia ].
  unfold rne in *. rewrite <- Heq in *.
  destruct (Qcompare (x - inject_Z (Qfloor x)) (1 # 2)) eqn:Ex;
    destruct (Qcompare (y - inject_Z (Qfloor x)) (1 # 2)) eqn:Ey;
    try (destruct (Z.even (Qfloor x))); try lia;
    first [ apply (proj2 (Qeq_alt _ _)) in Ex | apply (proj2 (Qlt_alt _ _)) in Ex
          | apply (proj2 (Qgt_alt _ _)) in Ex ];
    first [ apply (proj2 (Qeq_alt _ _)) in Ey | apply (proj2 (Qlt_alt _ _)) in Ey
          | apply (proj2 (Qgt_alt _ _)) in Ey ];
    exfalso; lra.
Qed.

Lemma rne_le_integer (x : Q) (k : Z) : x <= inject_Z k -> (rne x <= k)%Z.
Proof.
  intros H. rewrite <- (rne_integer k). apply rne_mono. exact H.
Qed.

Lemma rne_ge_integer (x : Q) (k : Z) : inject_Z k <= x -> (k <= rne x)%Z.
Proof.
  intros H. rewrite <- (rne_integer k). apply rne_mono. exact H.
Qed.

(** *** Rounding positive rationals *)

Lemma ulp_exponent_mono (x y : Q) :
  0 < x -> x <= y -> (ulp_exponent x <= ulp_exponent y)%Z.
Proof.
  intros Hx Hxy. unfold ulp_exponent.
  pose proof (ilog2_mono x y Hx Hxy). lia.
Qed.

Lemma ulp_exponent_comp (x y : Q) : 0 < x -> x == y -> ulp_exponent x = ulp_exponent y.
Proof.
  intros Hx Hxy. unfold ulp_exponent. rewrite (ilog2_comp x y Hx Hxy). reflexivity.
Qed.

Lemma fl_pos_comp (x y : Q) : 0 < x -> x == y -> fl_pos x == fl_pos y.
Proof.
  intros Hx Hxy. unfold fl_pos. rewrite (ulp_exponent_comp x y Hx Hxy).
  rewrite (rne_comp (x / 2 ^ ulp_exponent y) (y / 2 ^ ulp_exponent y)).
  - reflexivity.
  - rewrite Hxy. reflexivity.
Qed.

Lemma fl_pos_nonneg (x : Q) : 0 < x -> 0 <= fl_pos x.
Proof.
  intros Hx. unfold fl_pos.
  apply Qmult_le_0_compat; [ | apply Qlt_le_weak, pow2_pos ].
  apply inject_Z_nonneg. apply (rne_ge_integer _ 0).
  apply Qle_shift_div_l; [ apply pow2_pos | ]. change (inject_Z 0) with 0. lra.
Qed.

Lemma scaled_le (x : Q) (E k : Z) :
  x <= 2 ^ k -> (E <= k)%Z -> x / 2 ^ E <= inject_Z (2 ^ (k - E)).
Proof.
  intros H HE. rewrite pow2_inject by lia. rewrite pow2_minus.
  apply Qmult_le_r; [ apply Qinv_lt_0_compat, pow2_pos | exact H ].
Qed.

Lemma scaled_ge (x : Q) (E k : Z) :
  2 ^ k <= x -> (E <= k)%Z -> inject_Z (2 ^ (k - E)) <= x / 2 ^ E.
Proof.
  intros H HE. rewrite pow2_inject by lia. rewrite pow2_minus.
  apply Qmult_le_r; [ apply Qinv_lt_0_compat, pow2_pos | exact H ].
Qed.

Lemma fl_pos_le_pow2 (x : Q) (k : Z) :
  0 < x -> x <= 2 ^ k -> (ulp_exponent x <= k)%Z -> fl_pos x <= 2 ^ k.
Proof.
  intros Hx H HE. unfold fl_pos. set (E := ulp_exponent x) in *.
  pose proof (rne_le_integer _ _ (scaled_le x E k H HE)) as Hr.
  apply Qle_trans with (inject_Z (2 ^ (k - E)) * 2 ^ E).
  - apply Qmult_le_r; [ apply pow2_pos | ]. rewrite <- Zle_Qle. exact Hr.
  - rewrite pow2_inject by lia. rewrite <- pow2_plus.
    replace (k - E + E)%Z with k by lia. apply Qle_refl.
Qed.

Lemma fl_pos_ge_pow2 (x : Q) (k : Z) :
  0 < x -> 2 ^ k <= x -> (ulp_exponent x <= k)%Z -> 2 ^ k <= fl_pos x.
Proof.
  intros Hx H HE. unfold fl_pos. set (E := ulp_exponent x) in *.
  pose proof (rne_ge_integer _ _ (scaled_ge x E k H HE)) as Hr.
  apply Qle_trans with (inject_Z (2 ^ (k - E)) * 2 ^ E).
  - rewrite pow2_inject by lia. rewrite <- pow2_plus.
    replace (k - E + E)%Z with k by lia. apply Qle_refl.
  - apply Qmult_le_r; [ apply pow2_pos | ]. rewrite <- Zle_Qle. exact Hr.
Qed.

Lemma fl_pos_mono (x y : Q) : 0 < x -> x <= y -> fl_pos x <= fl_pos y.
Proof.
  intros Hx Hxy.
  assert (Hy : 0 < y) by (apply Qlt_le_trans with x; assumption).
  pose proof (ulp_exponent_mono x y Hx Hxy) as HE.
  destruct (Z.eq_dec (ulp_exponent x) (ulp_exponent y)) as [Heq | Hne].
  - unfold fl_pos. rewrite Heq.
    apply Qmult_le_r; [ apply pow2_pos | ]. rewrite <- Zle_Qle.
    apply rne_mono. apply Qmult_le_r; [ apply Qinv_lt_0_compat, pow2_pos | exact Hxy ].
  - assert (Hlt : (ulp_exponent x < ulp_exponent y)%Z) by lia.
    unfold ulp_exponent in Hlt, HE.
    destruct (ilog2_spec x Hx) as [_ Hxhi].
    destruct (ilog2_spec y Hy) as [Hylo _].
    set (ex := ilog2 x) in *. set (ey := ilog2 y) in *.
    apply Qle_trans with (2 ^ ey).
    + apply fl_pos_le_pow2; [ exact Hx | | ].
      * apply Qle_trans with (2 ^ (ex + 1)); [ apply Qlt_le_weak; exact Hxhi | ].
        apply pow2_le. lia.
      * unfold ulp_exponent. fold ex. lia.
    + apply fl_pos_ge_pow2; [ exact Hy | exact Hylo | ].
      unfold ulp_exponent. fold ey. lia.
Qed.

(** *** Rounding *)

Lemma fl_0 : fl 0 = 0.
Proof. reflexivity. Qed.

Lemma fl_of_pos (x : Q) : 0 < x -> fl x = fl_pos x.
Proof.
  intros H. unfold fl.
  destruct (Qcompare x 0) eqn:E; [ | | reflexivity ].
  - apply (proj2 (Qeq_alt _ _)) in E. lra.
  - apply (proj2 (Qlt_alt _ _)) in E. lra.
Qed.

Lemma fl_of_neg (x : Q) : x < 0 -> fl x = - fl_pos (- x).
Proof.
  intros H. unfold fl.
  destruct (Qcompare x 0) eqn:E; [ | reflexivity | ].
  - apply (proj2 (Qeq_alt _ _)) in E. lra.
  - apply (proj2 (Qgt_alt _ _)) in E. lra.
Qed.

Lemma fl_of_zero (x : Q) : x == 0 -> fl x = 0.
Proof.
  intros H. unfold fl.
  destruct (Qcompare x 0) eqn:E; [ reflexivity | | ].
  - apply (proj2 (Qlt_alt _ _)) in E. lra.
  - apply (proj2 (Qgt_alt _ _)) in E. lra.
Qed.

Lemma Q_sign_cases (x : Q) : x < 0 \/ x == 0 \/ 0 < x.
Proof.
  destruct (Q_dec x 0) as [ [H | H] | H ]; tauto.
Qed.

Lemma fl_comp (x y : Q) : x == y -> fl x == fl y.
Proof.
  intros H. destruct (Q_sign_cases x) as [ Hx | [ Hx | Hx ] ].
  - rewrite (fl_of_neg x Hx), (fl_of_neg y) by (rewrite <- H; exact Hx).
    apply Qopp_comp. apply fl_pos_comp; [ lra | rewrite H; reflexivity ].
  - rewrite (fl_of_zero x Hx), (fl_of_zero y) by (rewrite <- H; exact Hx).
    reflexivity.
  - rewrite (fl_of_pos x Hx), (fl_of_pos y) by (rewrite <- H; exact Hx).
    apply fl_pos_comp; assumption.
Qed.

Lemma fl_opp (x : Q) : fl (- x) == - fl x.
Proof.
  destruct (Q_sign_cases x) as [ Hx | [ Hx | Hx ] ].
  - rewrite (fl_of_neg x Hx), (fl_of_pos (- x)) by lra. ring.
  - rewrite (fl_of_zero x Hx), (fl_of_zero (- x)) by lra. reflexivity.
  - rewrite (fl_of_pos x Hx), (fl_of_neg (- x)) by lra.
    apply Qopp_comp. apply fl_pos_comp; [ lra | ring ].
Qed.

Lemma fl_nonneg (x : Q) : 0 <= x -> 0 <= fl x.
Proof.
  intros H. destruct (Q_sign_cases x) as [ Hx | [ Hx | Hx ] ]; [ lra | | ].
  - rewrite (fl_of_zero x Hx). apply Qle_refl.
  - rewrite (fl_of_pos x Hx). apply fl_pos_nonneg. exact Hx.
Qed.

Lemma fl_nonpos (x : Q) : x <= 0 -> fl x <= 0.
Proof.
  intros H. assert (H' : 0 <= fl (- x)) by (apply fl_nonneg; lra).
  rewrite fl_opp in H'. lra.
Qed.

Lemma fl_mono (x y : Q) : x <= y -> fl x <= fl y.
Proof.
  intros Hxy.
  destruct (Q_sign_cases x) as [ Hx | [ Hx | Hx ] ];
    destruct (Q_sign_cases y) as [ Hy | [ Hy | Hy ] ]; try (exfalso; lra).
  - rewrite (fl_of_neg x Hx), (fl_of_neg y Hy).
    apply Qopp_le_compat. apply fl_pos_mono; lra.
  - apply Qle_trans with 0; [ apply fl_nonpos | apply fl_nonneg ]; lra.
  - apply Qle_trans with 0; [ apply fl_nonpos | apply fl_nonneg ]; lra.
  - rewrite (fl_of_zero x Hx), (fl_of_zero y Hy). apply Qle_refl.
  - apply Qle_trans with 0; [ apply fl_nonpos | apply fl_nonneg ]; lra.
  - rewrite (fl_of_pos x Hx), (fl_of_pos y Hy). apply fl_pos_mono; assumption.
Qed.

(** A rational [m * 2^E] with [|m| < 2^53] and [E >= -1074] is a double:
    rounding leaves it as it is. *)
Lemma fl_pos_representable (m E : Z) :
  (0 < m < 2 ^ 53)%Z -> (-1074 <= E)%Z ->
  fl_pos (inject_Z m * 2 ^ E) == inject_Z m * 2 ^ E.
Proof.
  intros Hm HE. set (x := inject_Z m * 2 ^ E).
  assert (Hx : 0 < x).
  { unfold x. apply Qmult_lt_0_compat; [ apply inject_Z_pos; lia | apply pow2_pos ]. }
  destruct (ilog2_spec x Hx) as [Hlo _].
  assert (Hhi : x < 2 ^ (53 + E)).
  { unfold x. rewrite pow2_plus. apply Qmult_lt_r; [ apply pow2_pos | ].
    rewrite <- (pow2_inject 53) by lia. rewrite <- Zlt_Qlt. lia. }
  assert (He : (ilog2 x < 53 + E)%Z).
  { apply pow2_lt_inv. apply Qle_lt_trans with x; assumption. }
  unfold fl_pos. set (U := ulp_exponent x).
  assert (HU : (U <= E)%Z) by (unfold U, ulp_exponent; lia).
  assert (Hint : x / 2 ^ U == inject_Z (m * 2 ^ (E - U))).
  { unfold x. rewrite inject_Z_mult, pow2_inject by lia.
    rewrite pow2_minus. field. apply pow2_neq_0. }
  rewrite (rne_comp _ _ Hint), rne_integer.
  rewrite inject_Z_mult, pow2_inject by lia. rewrite pow2_minus.
  unfold x. field. apply pow2_neq_0.
Qed.

Lemma fl_representable (m E : Z) :
  (Z.abs m < 2 ^ 53)%Z -> (-1074 <= E)%Z ->
  fl (inject_Z m * 2 ^ E) == inject_Z m * 2 ^ E.
Proof.
  intros Hm HE. destruct (Z.lt_trichotomy m 0) as [ Hneg | [ -> | Hpos ] ].
  - assert (Heq : inject_Z m * 2 ^ E == - (inject_Z (- m) * 2 ^ E))
      by (rewrite inject_Z_opp; ring).
    rewrite (fl_comp _ _ Heq), fl_opp, Heq. apply Qopp_comp.
    rewrite fl_of_pos.
    + apply fl_pos_representable; lia.
    + apply Qmult_lt_0_compat; [ apply inject_Z_pos; lia | apply pow2_pos ].
  - rewrite fl_of_zero; [ | change (inject_Z 0) with 0; ring ].
    change (inject_Z 0) with 0. ring.
  - rewrite fl_of_pos.
    + apply fl_pos_representable; lia.
    + apply Qmult_lt_0_compat; [ apply inject_Z_pos; lia | apply pow2_pos ].
Qed.


(** *** The error of a rounding *)





(** *** Rounded results as numbers *)

Lemma js_round_comp (x y : Q) : x == y -> js_round x = js_round y.
Proof.
  intros H. unfold js_round.
  rewrite (Qred_complete _ _ (fl_comp x y H)). reflexivity.
Qed.

Lemma js_round_finite (x : Q) :
  Qabs (fl x) < 2 ^ 1024 -> js_round x = Num (Qred (fl x)).
Proof.
  intros H. unfold js_round. cbv zeta.
  destruct (Qle_bool (2 ^ 1024) (Qabs (Qred (fl x)))) eqn:E; [ | reflexivity ].
  apply Qle_bool_iff in E. rewrite (Qabs_wd _ _ (Qred_correct (fl x))) in E.
  exfalso. apply (Qlt_irrefl (2 ^ 1024)). apply Qle_lt_trans with (Qabs (fl x)); assumption.
Qed.

(** Between two doubles a result is rounded to a double between them. *)
Lemma js_round_between (x lo hi : Q) :
  fl lo == lo -> fl hi == hi ->
  - 2 ^ 1024 < lo -> hi < 2 ^ 1024 ->
  lo <= x -> x <= hi ->
  exists q, js_round x = Num q /\ q == fl x /\ lo <= q /\ q <= hi.
Proof.
  intros Hlo Hhi Hl Hh Hxl Hxh.
  pose proof (fl_mono _ _ Hxl) as H1. pose proof (fl_mono _ _ Hxh) as H2.
  rewrite Hlo in H1. rewrite Hhi in H2.
  exists (Qred (fl x)). split; [ | split; [ apply Qred_correct | ] ].
  - apply js_round_finite. apply Qabs_Qlt_condition. split; lra.
  - rewrite (Qred_correct (fl x)). split; assumption.
Qed.

Lemma js_round_exact (x : Q) :
  fl x == x -> Qabs x < 2 ^ 1024 -> js_round x = Num (Qred x).
Proof.
  intros Hx Hb. rewrite js_round_finite.
  - rewrite (Qred_complete _ _ Hx). reflexivity.
  - rewrite (Qabs_wd _ _ Hx). exact Hb.
Qed.

Lemma fl_integer (z : Z) : (Z.abs z < 2 ^ 53)%Z -> fl (inject_Z z) == inject_Z z.
Proof.
  intros H. pose proof (fl_representable z 0 H ltac:(lia)) as Hr.
  change (2 ^ 0) with 1 in Hr.
  assert (Heq : inject_Z z == inject_Z z * 1) by ring.
  rewrite (fl_comp _ _ Heq), Hr. ring.
Qed.

Lemma fl_pow2 (k : Z) : (-1074 <= k)%Z -> fl (2 ^ k) == 2 ^ k.
Proof.
  intros H. pose proof (fl_representable 1 k ltac:(reflexivity) H) as Hr.
  change (inject_Z 1) with 1 in Hr.
  assert (Heq : 2 ^ k == 1 * 2 ^ k) by ring.
  rewrite (fl_comp _ _ Heq), Hr. ring.
Qed.

Lemma Qred_inject_Z (z : Z) : Qred (inject_Z z) = inject_Z z.
Proof.
  unfold Qred, inject_Z.
  pose proof (Z.ggcd_gcd z 1) as Hg. pose proof (Z.ggcd_correct_divisors z 1) as Hd.
  destruct (Z.ggcd z 1) as [g [a b]]. cbn [fst snd] in *.
  rewrite Z.gcd_1_r in Hg. subst g. destruct Hd as [Ha Hb].
  rewrite Z.mul_1_l in Ha, Hb. subst a b. reflexivity.
Qed.



(** *** Integers as doubles *)

Lemma double_of_Z_exact (z : Z) : (Z.abs z < 2 ^ 53)%Z -> double_of_Z z = z.
Proof.
  intros H. unfold double_of_Z.
  rewrite (Qfloor_comp _ _ (fl_integer z H)). apply Qfloor_inject.
Qed.

Lemma double_of_Z_mono (a b : Z) : (a <= b)%Z -> (double_of_Z a <= double_of_Z b)%Z.
Proof.
  intros H. unfold double_of_Z. apply Qfloor_resp_le. apply fl_mono.
  rewrite <- Zle_Qle. exact H.
Qed.

Lemma double_of_Z_pow2 (k : Z) : (0 <= k)%Z -> double_of_Z (2 ^ k) = (2 ^ k)%Z.
Proof.
  intros H. unfold double_of_Z.
  assert (Heq : fl (inject_Z (2 ^ k)) == inject_Z (2 ^ k)).
  { rewrite (fl_comp _ _ (pow2_inject k H)), fl_pow2 by lia.
    symmetry. apply pow2_inject. exact H. }
  rewrite (Qfloor_comp _ _ Heq). apply Qfloor_inject.
Qed.

Lemma fl_inject_Z_opp (z : Z) :
  fl (inject_Z (- z)) == - fl (inject_Z z).
Proof.
  rewrite <- fl_opp. apply fl_comp. rewrite inject_Z_opp. reflexivity.
Qed.

(** The double of an integer is an integer. *)
Lemma fl_inject_Z_integer (z : Z) :
  fl (inject_Z z) == inject_Z (double_of_Z z).
Proof.
  unfold double_of_Z.
  destruct (Z_lt_le_dec (Z.abs z) (2 ^ 53)) as [Hs | Hl].
  - rewrite (Qfloor_comp _ _ (fl_integer z Hs)), Qfloor_inject. apply fl_integer. exact Hs.
  - assert (Hpos : forall y, (2 ^ 53 <= y)%Z ->
                     fl (inject_Z y) == inject_Z (Qfloor (fl (inject_Z y)))).
    { intros y Hy.
      assert (Hy0 : 0 < inject_Z y) by (apply inject_Z_pos; lia).
      rewrite (fl_of_pos _ Hy0). unfold fl_pos. set (E := ulp_exponent (inject_Z y)).
      assert (HE : (0 <= E)%Z).
      { unfold E, ulp_exponent.
        assert (H53 : 2 ^ 53 <= inject_Z y).
        { rewrite <- (pow2_inject 53) by lia. rewrite <- Zle_Qle. exact Hy. }
        pose proof (ilog2_mono (2 ^ 53) (inject_Z y) (pow2_pos 53) H53) as Hm.
        assert (H53' : ilog2 (2 ^ 53) = 53%Z).
        { apply ilog2_unique; [ apply pow2_pos | apply Qle_refl | apply pow2_lt; lia ]. }
        lia. }
      set (m := rne (inject_Z y / 2 ^ E)).
      assert (Hint : inject_Z m * 2 ^ E == inject_Z (m * 2 ^ E)).
      { rewrite inject_Z_mult, pow2_inject by exact HE. reflexivity. }
      rewrite (Qfloor_comp _ _ Hint), Qfloor_inject. exact Hint. }
    destruct (Z_lt_le_dec z 0) as [Hn | Hp].
    + assert (Hneg : fl (inject_Z z) == - fl (inject_Z (- z))).
      { rewrite fl_inject_Z_opp. ring. }
      specialize (Hpos (- z)%Z ltac:(lia)).
      assert (Hi : fl (inject_Z z) == inject_Z (- Qfloor (fl (inject_Z (- z))))).
      { rewrite Hneg, Hpos at 1. rewrite inject_Z_opp. reflexivity. }
      rewrite (Qfloor_comp _ _ Hi), Qfloor_inject. exact Hi.
    + apply Hpos. lia.
Qed.

(** *** Rounding twice *)




Set Implicit Arguments.

(** ** Properties of the search *)

(** The rows a statement other than a count returns are rows of
    [workflows]. *)
Lemma stmt_all_rows (fts5 : string -> option (fts_row -> bool)) (d : sqlite)
  (p : select_plan) (params : list sqlval) (rows : list result_row) :
  stmt_all fts5 d p params = Return rows ->
  sel_list p <> SelectCount ->
  forall r, In r rows -> exists w, r = RowWorkflow w.
Proof.
  unfold stmt_all. intros H Hsel.
  repeat match type of H with
         | bind ?m _ = Return _ =>
             destruct m as [[? ?]|]; cbn [bind] in H; [ | discriminate H ]
         end.
  match type of H with
  | match ?rest with _ => _ end = _ => destruct rest; [ | discriminate H ]
  end.
  destruct (sel_list p); [ congruence | | ];
    inversion H; subst rows; intros r Hr; apply in_map_iff in Hr;
    destruct Hr as (w & Hw & _); exists w; symmetry; exact Hw.
Qed.

Lemma searchWorkflows_text_total
  (buildFTSQuery : string -> string) (fts5 : string -> option (fts_row -> bool))
  (self : WorkflowDatabase) (q triggerFilter complexityFilter : string)
  (activeOnly : bool) (limit offset : Z) (r : search_result) :
  String.eqb (JsString.trim q) "" = false ->
  searchWorkflows buildFTSQuery fts5 self q triggerFilter complexityFilter
    activeOnly limit offset = Return r ->
  sr_total r = None.
Proof.
  intros Hq. unfold searchWorkflows. rewrite Hq. cbn [negb].
  destruct (initialized self); cbn [negb]; [ | discriminate ].
  destruct (String.eqb triggerFilter "all"), (String.eqb complexityFilter "all"),
    activeOnly; cbn [negb];
    unfold sql_fts; eval_prepare; cbn [bind]; unfold stmt_get;
    (match goal with
     | |- bind (bind ?m _) _ = _ -> _ =>
         destruct m as [rows|] eqn:Erows; cbn [bind]; [ | discriminate ]
     end);
    (destruct rows as [ | first rows ]; cbn [hd_error destructure_total bind];
     [ discriminate | ]);
    (pose proof (@stmt_all_rows fts5 _ _ _ _ Erows) as Hrows;
     cbn [sel_list] in Hrows;
     destruct (Hrows ltac:(discriminate) first (or_introl eq_refl)) as (w & ->));
    cbn [bind];
    (match goal with
     | |- bind ?m _ = _ -> _ => destruct m; cbn [bind]; [ | discriminate ]
     end);
    (match goal with
     | |- bind ?m _ = _ -> _ => destruct m; cbn [bind]; [ | discriminate ]
     end);
    intros H; inversion H; reflexivity.
Qed.

(** C3.  The claim fails for every request with a text query.  The
    count statement is made by replacing the text SELECT * in the
    statement, and the statement of a text search starts with
    SELECT w.*: nothing is replaced, the first row found has no column
    total, and the route answers without a total and with pages = NaN,
    or with status 500 when no row matches. *)
Theorem text_search_reports_no_total
  (buildFTSQuery : string -> string) (fts5 : string -> option (fts_row -> bool))
  (self : WorkflowDatabase) (q trigger complexityFilter active_only : string)
  (page per_page : Z) (body : search_response) :
  String.eqb (JsString.trim q) "" = false ->
  api_workflows buildFTSQuery fts5 self q trigger complexityFilter active_only
    page per_page = Json200 body ->
  rsp_total body = None /\ rsp_pages body = NaN.
Proof.
  intros Hq. unfold api_workflows.
  destruct (searchWorkflows _ _ _ _ _ _ _ _ _) as [r|] eqn:E; [ | discriminate ].
  apply (searchWorkflows_text_total _ _ _ _ _ _ _ _ _ Hq) in E.
  intros H. inversion H; subst body; clear H. cbn [rsp_total rsp_pages].
  rewrite E. split; reflexivity.
Qed.

Lemma text_search_reports_no_total_witness :
  (String.eqb (JsString.trim "slack") "" = false
   /\ api_workflows ex_buildFTSQuery ex_fts5 ex_indexed "slack" "all" "all" "false" 1 20
      = Json200 ex_search_body)
  /\ (rsp_total ex_search_body = None /\ rsp_pages ex_search_body = NaN).
Proof.
  split; [ split; reflexivity | ].
  apply (@text_search_reports_no_total ex_buildFTSQuery ex_fts5 ex_indexed
           "slack" "all" "all" "false" 1 20 ex_search_body);
    reflexivity.
Defined.

(** A text search that matches no row ends in the catch of the route. *)
Example text_search_without_hit :
  api_workflows ex_buildFTSQuery ex_fts5 ex_indexed "zapier" "all" "all" "false" 1 20
  = Json500 "TypeError: Cannot destructure property 'total' of undefined".
Proof. reflexivity. Qed.

Lemma filter_filter_and {A : Type} (f g : A -> bool) (l : list A) :
  filter f (filter g l) = filter (fun a => g a && f a) l.
Proof.
  induction l as [ | a l IH ]; cbn [filter]; [ reflexivity | ].
  destruct (g a); cbn [filter andb]; rewrite IH; reflexivity.
Qed.

Lemma filter_everything {A : Type} (p : A -> bool) (l : list A) :
  (forall a, p a = true) -> filter p l = l.
Proof.
  intros H. induction l as [ | a l IH ]; cbn [filter]; [ reflexivity | ].
  rewrite H, IH. reflexivity.
Qed.

(** Without a text query the count statement is a count: the total is
    the number of records the filters select, whatever the page, as
    long as limit and offset are 64-bit integers. *)
Lemma filters_only_total
  (buildFTSQuery : string -> string) (fts5 : string -> option (fts_row -> bool))
  (self : WorkflowDatabase) (q triggerFilter complexityFilter : string)
  (activeOnly : bool) (limit offset : Z) :
  initialized self = true ->
  String.eqb (JsString.trim q) "" = true ->
  sqlite_integer limit = true ->
  sqlite_integer offset = true ->
  exists r,
    searchWorkflows buildFTSQuery fts5 self q triggerFilter complexityFilter
      activeOnly limit offset = Return r
    /\ sr_total r
       = Some (List.length (filter (selected triggerFilter complexityFilter activeOnly)
                                   (workflows (db self)))).
Proof.
  intros Hinit Hq Hl Ho. unfold searchWorkflows. rewrite Hq, Hinit. cbn [negb].
  destruct (String.eqb triggerFilter "all") eqn:E1,
           (String.eqb complexityFilter "all") eqn:E2,
           activeOnly; cbn [negb];
    unfold sql_all; eval_prepare; cbn [bind]; eval_prepare; cbn [bind];
    unfold stmt_get, stmt_all;
    cbn [sel_join sel_trigger sel_complexity sel_active sel_page sel_list bind
         take_text take_int app text_equals hd_error map destructure_total];
    rewrite Hl; cbn [bind take_int]; rewrite Ho;
    cbn [bind hd_error map destructure_total];
    (eexists; split; [ reflexivity | ]); cbn [sr_total]; do 2 f_equal;
    first [ symmetry; apply filter_everything; intros a
          | rewrite ?filter_filter_and; apply filter_ext; intros a ];
    unfold selected; rewrite E1, E2; cbn [orb andb negb];
    rewrite ?andb_true_r, ?andb_assoc; reflexivity.
Qed.

(** A limit or an offset that is no 64-bit integer is refused by the
    statement of the page, with or without a text query. *)
Lemma page_out_of_range
  (buildFTSQuery : string -> string) (fts5 : string -> option (fts_row -> bool))
  (self : WorkflowDatabase) (q triggerFilter complexityFilter : string)
  (activeOnly : bool) (limit offset : Z) (r : search_result) :
  searchWorkflows buildFTSQuery fts5 self q triggerFilter complexityFilter
    activeOnly limit offset = Return r ->
  sqlite_integer limit = true /\ sqlite_integer offset = true.
Proof.
  unfold searchWorkflows.
  destruct (negb (initialized self)); [ discriminate | ].
  destruct (negb (String.eqb (JsString.trim q) "")),
           (negb (String.eqb triggerFilter "all")),
           (negb (String.eqb complexityFilter "all")),
           activeOnly;
    unfold sql_all, sql_fts; eval_prepare; cbn [bind];
    (match goal with
     | |- bind ?m _ = _ -> _ => destruct m; cbn [bind]; [ | discriminate ]
     end);
    (match goal with
     | |- bind ?m _ = _ -> _ => destruct m; cbn [bind]; [ | discriminate ]
     end);
    eval_prepare; cbn [bind];
    unfold stmt_all;
    cbn [sel_join sel_trigger sel_complexity sel_active sel_page sel_list
         take_text app bind];
    try (destruct (fts5 (buildFTSQuery (JsString.trim q))); cbn [bind];
         [ | discriminate ]);
    cbn [bind take_text take_int app];
    (destruct (sqlite_integer limit); cbn [bind take_int]; [ | discriminate ]);
    (destruct (sqlite_integer offset); cbn [bind]; [ | discriminate ]);
    intros _; split; reflexivity.
Qed.


Lemma positive_not_zero (z : Z) : (1 <= z)%Z -> Qzero_bool (inject_Z z) = false.
Proof.
  intros H. unfold Qzero_bool.
  destruct (Qeq_bool (inject_Z z) 0) eqn:E; [ | reflexivity ].
  apply Qeq_bool_iff in E. unfold Qeq in E. simpl in E. lia.
Qed.

(** *** The numbers of the search route *)

Lemma limit_in_range (per_page : Z) :
  sqlite_integer (Z.min 100 (Z.max 1 per_page)) = true.
Proof.
  unfold sqlite_integer. apply andb_true_iff. split; apply Z.ltb_lt; lia.
Qed.

(** A page number below [2^53] gives an offset SQLite takes. *)
Lemma offset_in_range (page per_page : Z) :
  (page < 2 ^ 53)%Z ->
  let pageNum := Z.max 1 (double_of_Z page) in
  let perPage := Z.min 100 (Z.max 1 (double_of_Z per_page)) in
  sqlite_integer (double_of_Z (double_of_Z (pageNum - 1) * perPage)) = true
  /\ (0 <= double_of_Z (double_of_Z (pageNum - 1) * perPage))%Z.
Proof.
  intros Hpage pageNum perPage.
  assert (Hp : (1 <= pageNum <= 2 ^ 53)%Z).
  { unfold pageNum. split; [ lia | ].
    apply Z.max_lub; [ lia | ].
    rewrite <- (double_of_Z_pow2 53) by lia. apply double_of_Z_mono. lia. }
  assert (Hpp : (1 <= perPage <= 100)%Z) by (unfold perPage; lia).
  rewrite (double_of_Z_exact (pageNum - 1)) by lia.
  assert (Hlo : (0 <= double_of_Z ((pageNum - 1) * perPage))%Z).
  { change 0%Z with (double_of_Z 0). apply double_of_Z_mono. nia. }
  assert (Hhi : (double_of_Z ((pageNum - 1) * perPage) <= 2 ^ 60)%Z).
  { rewrite <- (double_of_Z_pow2 60) by lia. apply double_of_Z_mono. nia. }
  split; [ | exact Hlo ].
  unfold sqlite_integer. apply andb_true_iff. split; apply Z.ltb_lt; lia.
Qed.


(** Below [2^45] records the rounded quotient has the ceiling of the
    exact one. *)
Lemma ceiling_of_rounded_ratio (n pp : Z) :
  (0 <= n < 2 ^ 45)%Z -> (1 <= pp <= 100)%Z ->
  Qceiling (fl (inject_Z n / inject_Z pp)) = Qceiling (inject_Z n / inject_Z pp).
Proof.
  intros Hn Hpp.
  set (x := inject_Z n / inject_Z pp).
  set (c := Qceiling x).
  assert (Hq : 0 < inject_Z pp) by (apply inject_Z_pos; lia).
  assert (Hx0 : 0 <= x).
  { unfold x. apply Qle_shift_div_l; [ exact Hq | ].
    rewrite Qmult_0_l. apply inject_Z_nonneg. lia. }
  assert (Hxn : x <= inject_Z n).
  { unfold x. apply Qle_shift_div_r; [ exact Hq | ].
    rewrite <- inject_Z_mult, <- Zle_Qle. nia. }
  pose proof (Qle_ceiling x) as Hup. fold c in Hup.
  pose proof (Qceiling_lt x) as Hlow. fold c in Hlow.
  assert (Hc0 : (0 <= c)%Z).
  { destruct (Z_lt_le_dec c 0) as [Hneg | Hok]; [ exfalso | exact Hok ].
    assert (Hc : inject_Z c <= -1).
    { change (-1) with (inject_Z (-1)). rewrite <- Zle_Qle. lia. }
    lra. }
  assert (Hcn : (c <= n)%Z).
  { unfold c. rewrite <- (Qceiling_Z n). apply Qceiling_resp_le. exact Hxn. }
  (* the numerator passes the multiple of pp below it by one at least *)
  assert (Hnum : ((c - 1) * pp + 1 <= n)%Z).
  { assert (Hlt : inject_Z (c - 1) * inject_Z pp < inject_Z n).
    { apply (proj2 (Qmult_lt_r _ _ (inject_Z pp) Hq)) in Hlow.
      assert (Hm : x * inject_Z pp == inject_Z n).
      { unfold x. field. intros H0. rewrite H0 in Hq. apply (Qlt_irrefl 0). exact Hq. }
      rewrite Hm in Hlow. exact Hlow. }
    rewrite <- inject_Z_mult, <- Zlt_Qlt in Hlt. lia. }
  set (g := inject_Z ((c - 1) * 2 ^ 7 + 1) * 2 ^ (-7)).
  assert (Hg : fl g == g).
  { unfold g. apply fl_representable; [ | lia ].
    assert (H45 : (2 ^ 45 * 2 ^ 7 < 2 ^ 53)%Z) by (vm_compute; reflexivity).
    lia. }
  assert (Hgval : g == inject_Z (c - 1) + 2 ^ (-7)).
  { unfold g. rewrite inject_Z_plus, inject_Z_mult.
    rewrite (pow2_inject 7) by lia. change (inject_Z 1) with 1.
    assert (H7 : 2 ^ 7 * 2 ^ (-7) == 1) by reflexivity.
    rewrite Qmult_plus_distr_l, <- Qmult_assoc, H7. ring. }
  assert (Hgx : g <= x).
  { rewrite Hgval. unfold x. apply Qle_shift_div_l; [ exact Hq | ].
    apply Qle_trans with (inject_Z ((c - 1) * pp + 1)).
    - rewrite inject_Z_plus, inject_Z_mult. change (inject_Z 1) with 1.
      rewrite Qmult_plus_distr_l.
      assert (Hsmall : 2 ^ (-7) * inject_Z pp <= 1).
      { apply Qle_trans with (2 ^ (-7) * inject_Z 100).
        - apply Qmult_le_l; [ reflexivity | rewrite <- Zle_Qle; lia ].
        - vm_compute. discriminate. }
      lra.
    - rewrite <- Zle_Qle. exact Hnum. }
  pose proof (fl_mono _ _ Hgx) as Hfl1. rewrite Hg in Hfl1.
  assert (Hcfix : fl (inject_Z c) == inject_Z c).
  { apply fl_integer. assert (H45 : (2 ^ 45 < 2 ^ 53)%Z) by reflexivity. lia. }
  pose proof (fl_mono _ _ Hup) as Hfl2. rewrite Hcfix in Hfl2.
  apply Z.le_antisymm.
  - rewrite <- (Qceiling_Z c). apply Qceiling_resp_le. exact Hfl2.
  - assert (Hlt : inject_Z (c - 1) < fl x).
    { apply Qlt_le_trans with g; [ | exact Hfl1 ].
      rewrite Hgval. pose proof (pow2_pos (-7)). lra. }
    destruct (Z_lt_le_dec (Qceiling (fl x)) c) as [Hbad | Hok]; [ exfalso | exact Hok ].
    pose proof (Qle_ceiling (fl x)) as Hce.
    assert (Hle : inject_Z (Qceiling (fl x)) <= inject_Z (c - 1)).
    { rewrite <- Zle_Qle. lia. }
    lra.
Qed.

Lemma of_Z_exact (z : Z) : (Z.abs z < 2 ^ 53)%Z -> of_Z z = Num (inject_Z z).
Proof.
  intros H. unfold of_Z. rewrite js_round_exact.
  - rewrite Qred_inject_Z. reflexivity.
  - apply fl_integer. exact H.
  - apply Qlt_trans with (2 ^ 53).
    + rewrite <- (pow2_inject 53) by lia.
      assert (Ha : Qabs (inject_Z z) == inject_Z (Z.abs z)).
      { unfold inject_Z. symmetry. apply Zabs_Qabs. }
      rewrite Ha, <- Zlt_Qlt. exact H.
    + apply pow2_lt. lia.
Qed.

(** The page count of the route for fewer than [2^45] records. *)
Lemma pages_value (n : nat) (pp : Z) :
  (Z.of_nat n < 2 ^ 45)%Z -> (1 <= pp <= 100)%Z ->
  Math_ceil (js_div (of_total (Some n)) (of_Z pp))
  = Num (inject_Z (Qceiling (inject_Z (Z.of_nat n) / inject_Z pp))).
Proof.
  intros Hn Hpp. cbn [of_total]. unfold of_nat.
  assert (H45 : (2 ^ 45 < 2 ^ 53)%Z) by reflexivity.
  rewrite !of_Z_exact by lia. cbn [js_div].
  rewrite positive_not_zero by lia.
  set (x := inject_Z (Z.of_nat n) / inject_Z pp).
  assert (Hq : 0 < inject_Z pp) by (apply inject_Z_pos; lia).
  assert (Hx0 : 0 <= x).
  { unfold x. apply Qle_shift_div_l; [ exact Hq | ].
    rewrite Qmult_0_l. apply inject_Z_nonneg. lia. }
  assert (Hxn : x <= inject_Z (Z.of_nat n)).
  { unfold x. apply Qle_shift_div_r; [ exact Hq | ].
    rewrite <- inject_Z_mult, <- Zle_Qle. nia. }
  destruct (js_round_between x 0 (inject_Z (Z.of_nat n))) as (r & Hr & Hrx & _).
  - reflexivity.
  - apply fl_integer. lia.
  - pose proof (pow2_pos 1024). lra.
  - apply Qlt_trans with (2 ^ 45).
    + rewrite <- (pow2_inject 45) by lia. rewrite <- Zlt_Qlt. lia.
    + apply pow2_lt. lia.
  - exact Hx0.
  - exact Hxn.
  - rewrite Hr. cbn [Math_ceil]. do 2 f_equal.
    rewrite (Qceiling_comp _ _ Hrx).
    apply ceiling_of_rounded_ratio; lia.
Qed.

(** On that path the route reports pages = ceil(total / per_page),
    where the page number is below [2^53] and fewer than [2^45]
    records are selected. *)
Lemma filters_only_pages
  (buildFTSQuery : string -> string) (fts5 : string -> option (fts_row -> bool))
  (self : WorkflowDatabase) (q trigger complexityFilter active_only : string)
  (page per_page : Z) :
  initialized self = true ->
  String.eqb (JsString.trim q) "" = true ->
  (page < 2 ^ 53)%Z ->
  (Z.of_nat (List.length (filter (selected trigger complexityFilter
                                    (String.eqb active_only "true"))
                                 (workflows (db self)))) < 2 ^ 45)%Z ->
  exists body total,
    api_workflows buildFTSQuery fts5 self q trigger complexityFilter active_only
      page per_page = Json200 body
    /\ rsp_total body = Some total
    /\ total = List.length (filter (selected trigger complexityFilter
                                      (String.eqb active_only "true"))
                                   (workflows (db self)))
    /\ rsp_pages body
       = Num (inject_Z (Qceiling (inject_Z (Z.of_nat total)
                                  / inject_Z (rsp_per_page body)))).
Proof.
  intros Hinit Hq Hpage Hn. unfold api_workflows.
  destruct (@offset_in_range page per_page Hpage) as [Hoff _].
  destruct (@filters_only_total buildFTSQuery fts5 self q trigger complexityFilter
              (String.eqb active_only "true") _ _ Hinit Hq
              (limit_in_range (double_of_Z per_page)) Hoff)
    as (r & Hr & Htotal).
  rewrite Hr. do 2 eexists. split; [ reflexivity | ].
  cbn [rsp_total rsp_pages rsp_per_page]. rewrite Htotal.
  split; [ reflexivity | split; [ reflexivity | ] ].
  apply pages_value; [ exact Hn | lia ].
Qed.

(** ** Properties of the sets of integrations *)

Lemma Set_has_In (x : string) (s : list string) : Set_has x s = true <-> In x s.
Proof.
  unfold Set_has. rewrite existsb_exists. split.
  - intros (y & Hy & Heq). apply String.eqb_eq in Heq. subst y. exact Hy.
  - intros H. exists x. split; [ exact H | apply String.eqb_refl ].
Qed.

Lemma Set_add_NoDup (x : string) (s : list string) :
  NoDup s -> NoDup (Set_add x s).
Proof.
  intros H. unfold Set_add. destruct (Set_has x s) eqn:E; [ exact H | ].
  apply NoDup_app.
  - exact H.
  - constructor; [ intros [] | constructor ].
  - intros y Hy [Hx | []]. subst y.
    apply Set_has_In in Hy. congruence.
Qed.

Lemma Set_add_length (x : string) (s : list string) :
  (List.length (Set_add x s) <= S (List.length s))%nat.
Proof.
  unfold Set_add. destruct (Set_has x s); [ lia | ].
  rewrite length_app. cbn [List.length]. lia.
Qed.

Lemma Set_add_In (x y : string) (s : list string) :
  In y (Set_add x s) <-> y = x \/ In y s.
Proof.
  unfold Set_add. destruct (Set_has x s) eqn:E.
  - apply Set_has_In in E. intuition congruence.
  - rewrite in_app_iff. cbn [In]. intuition congruence.
Qed.

Lemma fold_Set_add_In (l : list string) :
  forall acc x,
    In x (fold_left (fun s y => Set_add y s) l acc) <-> In x acc \/ In x l.
Proof.
  induction l as [ | y l IH ]; intros acc x; cbn [fold_left In].
  - tauto.
  - rewrite IH, Set_add_In. intuition congruence.
Qed.

Lemma Set_of_In (l : list string) (x : string) : In x (Set_of l) <-> In x l.
Proof.
  unfold Set_of. rewrite fold_Set_add_In. cbn [In]. tauto.
Qed.


Lemma shared_le_union (a b : list string) :
  NoDup a ->
  (List.length (shared a b) <= List.length (Set_of (a ++ b)))%nat.
Proof.
  intros H. apply NoDup_incl_length.
  - unfold shared. apply NoDup_filter. exact H.
  - intros x Hx. unfold shared in Hx. apply filter_In in Hx.
    apply Set_of_In. apply in_or_app. left. apply Hx.
Qed.

(** ** Properties of the similarity engine *)

Lemma js_add_NaN_r (a : jsnum) : js_add a NaN = NaN.
Proof. destruct a; reflexivity. Qed.

Lemma js_mul_NaN_l (b : jsnum) : js_mul NaN b = NaN.
Proof. reflexivity. Qed.

Lemma similarity_without_nodes (reference w : workflow_row) :
  node_count reference = 0%nat ->
  node_count w = 0%nat ->
  similarity reference w = NaN.
Proof.
  intros Href Hw. unfold similarity. rewrite Href, Hw.
  change (nodeCountSimilarity 0 0) with NaN.
  rewrite js_mul_NaN_l, js_add_NaN_r.
  destruct (js_mul (triggerSimilarity _ _) _); reflexivity.
Qed.

(** C5.  The claim fails on the code: [findSimilar] has no case for two
    node counts of 0.  The quotient 0 / 0 is NaN, so are
    nodeCountSimilarity and the combined score, and since NaN >= t is
    false for every t the candidate is never retained. *)
Theorem zero_node_counts_give_no_score (reference w : workflow_row)
  (threshold : jsnum) (similarities : list similar) :
  node_count reference = 0%nat ->
  node_count w = 0%nat ->
  nodeCountSimilarity (node_count reference) (node_count w) = NaN
  /\ similarity reference w = NaN
  /\ consider reference threshold similarities w = similarities.
Proof.
  intros Href Hw.
  assert (Hn : nodeCountSimilarity (node_count reference) (node_count w) = NaN).
  { rewrite Href, Hw. reflexivity. }
  pose proof (@similarity_without_nodes reference w Href Hw) as Hs.
  split; [ exact Hn | split; [ exact Hs | ] ].
  unfold consider. rewrite Hs. reflexivity.
Qed.

Lemma zero_node_counts_give_no_score_witness :
  (node_count ex_empty_a = 0%nat /\ node_count ex_empty_b = 0%nat)
  /\ (nodeCountSimilarity (node_count ex_empty_a) (node_count ex_empty_b) = NaN
      /\ similarity ex_empty_a ex_empty_b = NaN
      /\ consider ex_empty_a (Num 0) [] ex_empty_b = []).
Proof.
  split; [ split; reflexivity | ].
  apply (@zero_node_counts_give_no_score ex_empty_a ex_empty_b (Num 0) []);
    reflexivity.
Defined.

(** Two documents without nodes, of the same trigger type: at threshold
    0 the one is not found similar to the other. *)
Example empty_documents_are_not_similar :
  findSimilar (ex_store [ex_empty_a; ex_empty_b]) "a.json" (Num 0)
  = Return {| reference_workflow := ex_empty_a;
              similar_workflows := [];
              total_found := 0 |}.
Proof. reflexivity. Qed.

Lemma fold_consider (reference : workflow_row) (threshold : jsnum)
  (ws : list workflow_row) :
  forall acc,
    fold_left (consider reference threshold) ws acc
    = (acc ++ map (similar_entry reference)
                  (filter (qualifies reference threshold) ws))%list.
Proof.
  induction ws as [ | w ws IH ]; intros acc; cbn [fold_left filter map].
  - rewrite app_nil_r. reflexivity.
  - rewrite IH. unfold consider, qualifies.
    destruct (js_ge (similarity reference w) threshold); cbn [map].
    + rewrite <- app_assoc. reflexivity.
    + reflexivity.
Qed.

Lemma insert_sorted_perm (x : similar) (l : list similar) :
  Permutation (x :: l) (insert_sorted x l).
Proof.
  induction l as [ | y l IH ]; cbn [insert_sorted]; [ apply Permutation_refl | ].
  destruct (stays_before x y); [ apply Permutation_refl | ].
  apply perm_trans with (y :: x :: l); [ apply perm_swap | ].
  apply perm_skip. exact IH.
Qed.

Lemma sort_by_score_perm (l : list similar) : Permutation l (sort_by_score l).
Proof.
  unfold sort_by_score.
  induction l as [ | x l IH ]; cbn [fold_right]; [ apply perm_nil | ].
  apply perm_trans with (x :: fold_right insert_sorted [] l).
  - apply perm_skip. exact IH.
  - apply insert_sorted_perm.
Qed.









(** *** The three parts of the score *)




















(** *** The score *)




Lemma of_nat_exact (n : nat) :
  (Z.of_nat n < 2 ^ 53)%Z -> of_nat n = Num (inject_Z (Z.of_nat n)).
Proof. intros H. unfold of_nat. apply of_Z_exact. lia. Qed.







(** ** A run on a small directory *)

(** Directory entries that do not end in .json are not counted. *)
Example readme_is_not_counted :
  option_map snd
    (match indexWorkflows fresh_database
             (Return [ex_file_readme; ex_report_v1; ex_file_broken; ex_file_set])
             false with
     | Return x => Some x
     | Throw _ => None
     end)
  = Some {| res_processed := 2; res_skipped := 0; res_errors := 1; res_total := 3 |}.
Proof. vm_compute. reflexivity. Qed.

(** * Further properties of the code *)

(** ** The analyzer *)

(** One node adds at most one name to the set, or none. *)
Lemma analyzeNode_integrations (ints : list string) (t : string) (node : json)
  (ints' : list string) (t' : string) :
  analyzeNode (ints, t) node = Return (ints', t') ->
  ints' = ints \/ exists x, ints' = Set_add x ints.
Proof.
  unfold analyzeNode. intros H.
  destruct (get_prop node "type") as [ty|]; cbn [bind] in H; [ | discriminate H ].
  destruct (js_includes (or_default ty (JStr "")) ".") as [hasDot|];
    cbn [bind] in H; [ | discriminate H ].
  match type of H with
  | bind ?m _ = _ => destruct m as [ints1|] eqn:Eint; cbn [bind] in H;
                     [ | discriminate H ]
  end.
  destruct (nodeTrigger (or_default ty (JStr ""))) as [tr|]; cbn [bind] in H;
    [ | discriminate H ].
  inversion H; subst ints' t'; clear H.
  destruct hasDot; [ | inversion Eint; left; reflexivity ].
  destruct (js_split (or_default ty (JStr ""))) as [parts|]; cbn [bind] in Eint;
    [ | discriminate Eint ].
  destruct (2 <=? List.length parts)%nat; [ | inversion Eint; left; reflexivity ].
  destruct (negb _ && negb _); inversion Eint.
  - right. eexists. reflexivity.
  - left. reflexivity.
Qed.

Lemma forEach_analyzeNode_integrations (nodes : list json) :
  forall ints t ints' t',
    forEach analyzeNode nodes (ints, t) = Return (ints', t') ->
    (NoDup ints -> NoDup ints')
    /\ (List.length ints' <= List.length ints + List.length nodes)%nat.
Proof.
  induction nodes as [ | n nodes IH ]; intros ints t ints' t' H;
    cbn [forEach] in H.
  - inversion H; subst. split; [ tauto | cbn [List.length]; lia ].
  - destruct (analyzeNode (ints, t) n) as [[ints1 t1]|] eqn:E;
      cbn [bind] in H; [ | discriminate H ].
    apply IH in H. destruct H as [Hnd Hlen].
    apply analyzeNode_integrations in E. cbn [List.length].
    destruct E as [-> | [x ->]].
    + split; [ exact Hnd | lia ].
    + pose proof (Set_add_length x ints).
      split; [ | lia ].
      intros H0. apply Hnd. apply Set_add_NoDup. exact H0.
Qed.

(** X1.  The integrations of an analyzed document are pairwise distinct
    and there are at most as many as the document has nodes. *)
Theorem analyzed_integrations_are_distinct (f : corpus_file) (w : workflow) :
  analyzeWorkflow f = Some w ->
  NoDup (wf_integrations w)
  /\ (List.length (wf_integrations w) <= wf_node_count w)%nat.
Proof.
  intros H. apply analyzeWorkflow_inv in H.
  destruct H as (_ & _ & Hcount & _ & Hnodes).
  unfold analyzeNodes in Hnodes.
  apply forEach_analyzeNode_integrations in Hnodes.
  destruct Hnodes as [Hnd Hlen]. cbn [List.length] in Hlen.
  split; [ apply Hnd; constructor | lia ].
Qed.

Lemma analyzed_integrations_are_distinct_witness :
  analyzeWorkflow ex_file_webhook = Some ex_workflow_webhook
  /\ (NoDup (wf_integrations ex_workflow_webhook)
      /\ (List.length (wf_integrations ex_workflow_webhook)
          <= wf_node_count ex_workflow_webhook)%nat).
Proof.
  split; [ reflexivity | ].
  apply (@analyzed_integrations_are_distinct ex_file_webhook ex_workflow_webhook).
  reflexivity.
Defined.

Lemma nodeTrigger_values (nodeType : json) (c : string) :
  nodeTrigger nodeType = Return (Some c) ->
  c = "Webhook" \/ c = "Scheduled" \/ c = "Triggered".
Proof.
  unfold nodeTrigger. intros H.
  destruct (js_includes nodeType "webhook") as [[]|]; cbn [bind] in H;
    try discriminate H.
  - inversion H. left. reflexivity.
  - destruct (js_includes nodeType "cron") as [[]|]; cbn [bind] in H;
      try discriminate H.
    + inversion H. right. left. reflexivity.
    + destruct (js_includes nodeType "schedule") as [[]|]; cbn [bind] in H;
        try discriminate H.
      * inversion H. right. left. reflexivity.
      * destruct (js_includes nodeType "trigger") as [[]|]; cbn [bind] in H;
          try discriminate H.
        inversion H. right. right. reflexivity.
Qed.

Lemma node_class_values (node : json) (c : string) :
  node_class node = Some c ->
  c = "Webhook" \/ c = "Scheduled" \/ c = "Triggered".
Proof.
  unfold node_class.
  destruct (get_prop node "type") as [ty|]; cbn [bind]; [ | discriminate ].
  destruct (nodeTrigger (or_default ty (JStr ""))) as [o|] eqn:E; [ | discriminate ].
  intros ->. exact (nodeTrigger_values _ E).
Qed.

Lemma last_class_values (nodes : list json) :
  forall t0,
    last_class nodes t0 = t0
    \/ last_class nodes t0 = "Webhook"
    \/ last_class nodes t0 = "Scheduled"
    \/ last_class nodes t0 = "Triggered".
Proof.
  unfold last_class.
  induction nodes as [ | n nodes IH ]; intros t0; cbn [fold_left].
  - left. reflexivity.
  - destruct (node_class n) as [c|] eqn:E; [ | apply IH ].
    apply node_class_values in E.
    destruct (IH c) as [H | H]; [ | right; exact H ].
    rewrite H. right. exact E.
Qed.

(** X2.  The analyzer of the index assigns one of four trigger types:
    Manual, Webhook, Scheduled or Triggered; it never assigns Complex or
    Unknown. *)
Theorem analyzed_trigger_type_is_one_of_four (f : corpus_file) (w : workflow) :
  analyzeWorkflow f = Some w ->
  In (wf_trigger_type w) ["Manual"; "Webhook"; "Scheduled"; "Triggered"].
Proof.
  intros H. apply analyzeWorkflow_inv in H.
  destruct H as (_ & _ & _ & _ & Hnodes).
  unfold analyzeNodes in Hnodes.
  apply forEach_analyzeNode_trigger in Hnodes. rewrite Hnodes.
  cbn [In].
  destruct (last_class_values (wf_nodes w) "Manual") as [H | [H | [H | H]]];
    rewrite H; auto.
Qed.

Lemma analyzed_trigger_type_is_one_of_four_witness :
  analyzeWorkflow ex_file_webhook = Some ex_workflow_webhook
  /\ In (wf_trigger_type ex_workflow_webhook)
        ["Manual"; "Webhook"; "Scheduled"; "Triggered"].
Proof.
  split; [ reflexivity | ].
  apply (@analyzed_trigger_type_is_one_of_four ex_file_webhook ex_workflow_webhook).
  reflexivity.
Defined.

(** X3.  A document that is a JSON object and whose [nodes] field is
    absent, null, false, 0, an empty string or an empty array is
    analyzed exactly when its [name] is absent, null or a string.  It
    then has node_count 0, complexity low, trigger type Manual, no
    integrations and the description of an empty manual workflow.  With
    any other [name] (a number, a boolean, an array, an object) the
    call of [trim] throws and the analysis gives nothing. *)
Theorem document_without_nodes_is_analyzed (f : corpus_file)
  (fields : list (string * json)) :
  file_json f = Return (JObj fields) ->
  (truthy (assoc_last "nodes" fields) = false
   \/ assoc_last "nodes" fields = Some (JArr [])) ->
  ((forall v, assoc_last "name" fields = Some v -> v = JNull \/ exists s, v = JStr s) ->
   exists w,
     analyzeWorkflow f = Some w
     /\ wf_node_count w = 0%nat
     /\ wf_complexity w = "low"
     /\ wf_trigger_type w = "Manual"
     /\ wf_integrations w = []
     /\ wf_description w = "Manual workflow with 0 nodes (low complexity)")
  /\ (forall v, assoc_last "name" fields = Some v ->
                v <> JNull -> (forall s, v <> JStr s) ->
                analyzeWorkflow f = None).
Proof.
  intros Hjson Hnodes. split.
  - intros Hname.
    unfold analyzeWorkflow, analyzeWorkflow_body. rewrite Hjson.
    cbn [bind get_prop].
    assert (Htrim : exists n, optional_trim (assoc_last "name" fields) = Return n).
    { destruct (assoc_last "name" fields) as [v|]; [ | eexists; reflexivity ].
      destruct (Hname v eq_refl) as [-> | [s ->]]; eexists; reflexivity. }
    destruct Htrim as (n & ->). cbn [bind].
    assert (Hdef : or_default (assoc_last "nodes" fields) (JArr []) = JArr []).
    { destruct Hnodes as [H | H].
      - unfold or_default. destruct (assoc_last "nodes" fields); [ | reflexivity ].
        rewrite H. reflexivity.
      - rewrite H. reflexivity. }
    rewrite Hdef. cbn.
    eexists. split; [ reflexivity | ]. cbn. repeat split.
  - intros v Hv Hnull Hstr.
    unfold analyzeWorkflow, analyzeWorkflow_body. rewrite Hjson.
    cbn [bind get_prop]. rewrite Hv.
    destruct v; try reflexivity; [ congruence | exfalso; exact (Hstr _ eq_refl) ].
Qed.

Lemma document_without_nodes_is_analyzed_witness :
  (file_json ex_file_no_nodes = Return (JObj [("name", JStr "Empty")])
   /\ (truthy (assoc_last "nodes" [("name", JStr "Empty")]) = false
       \/ assoc_last "nodes" [("name", JStr "Empty")] = Some (JArr [])))
  /\ exists w,
       analyzeWorkflow ex_file_no_nodes = Some w
       /\ wf_node_count w = 0%nat
       /\ wf_complexity w = "low"
       /\ wf_trigger_type w = "Manual"
       /\ wf_integrations w = []
       /\ wf_description w = "Manual workflow with 0 nodes (low complexity)".
Proof.
  assert (Hname : forall v, assoc_last "name" [("name", JStr "Empty")] = Some v ->
                            v = JNull \/ exists s, v = JStr s).
  { intros v Hv. inversion Hv. right. eexists. reflexivity. }
  split; [ split; [ reflexivity | left; reflexivity ] | ].
  exact (proj1 (@document_without_nodes_is_analyzed ex_file_no_nodes
                  [("name", JStr "Empty")] eq_refl (or_introl eq_refl)) Hname).
Defined.

Lemma all_chars_app (p : ascii -> bool) (a b : string) :
  JsString.all_chars p (a ++ b) = JsString.all_chars p a && JsString.all_chars p b.
Proof.
  induction a as [ | c a IH ]; cbn [append JsString.all_chars]; [ reflexivity | ].
  rewrite IH. apply andb_assoc.
Qed.

Lemma split_parts_free_of_separator (sep : ascii) (s : string) :
  Forall (fun part => JsString.all_chars (fun c => negb (Ascii.eqb c sep)) part = true)
         (JsString.split sep s).
Proof.
  induction s as [ | c s IH ]; cbn [JsString.split].
  - constructor; [ reflexivity | constructor ].
  - destruct (Ascii.eqb c sep) eqn:E.
    + constructor; [ reflexivity | exact IH ].
    + destruct (JsString.split sep s) as [ | h t ].
      * constructor; [ | constructor ]. cbn [JsString.all_chars]. rewrite E.
        reflexivity.
      * inversion IH as [ | ? ? Hh Ht ]; subst.
        constructor; [ | exact Ht ].
        cbn [JsString.all_chars]. rewrite E, Hh. reflexivity.
Qed.

Lemma concat_all_chars (p : ascii -> bool) (sep : string) (parts : list string) :
  JsString.all_chars p sep = true ->
  Forall (fun part => JsString.all_chars p part = true) parts ->
  JsString.all_chars p (String.concat sep parts) = true.
Proof.
  intros Hsep H. induction H as [ | x l Hx Hl IH ]; [ reflexivity | ].
  cbn [String.concat]. destruct l as [ | y l ]; [ exact Hx | ].
  rewrite !all_chars_app, Hx, Hsep, IH. reflexivity.
Qed.

Lemma upper_char_not_underscore (c : ascii) :
  not_underscore c = true -> not_underscore (JsString.upper_char c) = true.
Proof.
  destruct c as [[] [] [] [] [] [] [] []]; intros H; try exact H; reflexivity.
Qed.

Lemma capitalize_not_underscore (s : string) :
  JsString.all_chars not_underscore s = true ->
  JsString.all_chars not_underscore (JsString.capitalize s) = true.
Proof.
  destruct s as [ | c s ]; [ reflexivity | ].
  cbn [JsString.capitalize JsString.all_chars]. intros H.
  apply andb_true_iff in H. destruct H as [Hc Hs].
  rewrite (upper_char_not_underscore c Hc), Hs. reflexivity.
Qed.

Lemma specialTerms_get_not_underscore (lower t : string) :
  specialTerms_get lower = Some t ->
  JsString.all_chars not_underscore t = true.
Proof.
  unfold specialTerms_get.
  destruct (find _ specialTerms) as [kv|] eqn:E.
  - intros H. inversion H; subst t. apply find_some in E. destruct E as [Hin _].
    unfold specialTerms in Hin. cbn [In] in Hin.
    repeat (destruct Hin as [Hin | Hin]; [ subst kv; reflexivity | ]).
    contradiction.
  - destruct (String.eqb lower "constructor"); [ | discriminate ].
    intros H. inversion H. reflexivity.
Qed.

Lemma all_chars_not_included (c : ascii) (s : string) :
  JsString.all_chars (fun x => negb (Ascii.eqb x c)) s = true ->
  JsString.includes s (String c EmptyString) = false.
Proof.
  induction s as [ | x s IH ]; cbn [JsString.all_chars JsString.includes prefix].
  - reflexivity.
  - intros H. apply andb_true_iff in H. destruct H as [Hx Hs].
    apply negb_true_iff in Hx. apply Ascii.eqb_neq in Hx.
    destruct (ascii_dec c x) as [Heq | _]; [ congruence | ].
    apply IH. exact Hs.
Qed.

(** X4.  A display name derived from a file name contains no
    underscore: the underscores of the file name separate its words. *)
Theorem formatWorkflowName_has_no_underscore (filename : string) :
  JsString.includes (formatWorkflowName filename) "_" = false.
Proof.
  apply (all_chars_not_included "_"). fold not_underscore.
  unfold formatWorkflowName, JsString.join.
  apply concat_all_chars; [ reflexivity | ].
  apply Forall_forall. intros x Hx. apply in_map_iff in Hx.
  destruct Hx as (part & <- & Hpart).
  assert (Hfree : JsString.all_chars not_underscore part = true).
  { pose proof (split_parts_free_of_separator "_"
                  (JsString.replace ".json" "" filename)) as Hall.
    rewrite Forall_forall in Hall. apply Hall.
    match type of Hpart with
    | In _ (skipn ?n ?l) => rewrite <- (firstn_skipn n l)
    end.
    apply in_or_app. right. exact Hpart. }
  destruct (specialTerms_get (JsString.toLowerCase part)) as [t|] eqn:E.
  - exact (specialTerms_get_not_underscore _ E).
  - apply capitalize_not_underscore. exact Hfree.
Qed.

(** ** The store *)

Lemma NoDup_map_filter {A B : Type} (g : A -> B) (p : A -> bool) (l : list A) :
  NoDup (map g l) -> NoDup (map g (filter p l)).
Proof.
  induction l as [ | a l IH ]; cbn [map filter]; intros H; [ exact H | ].
  apply NoDup_cons_iff in H. destruct H as [Hfresh H].
  destruct (p a); [ | exact (IH H) ].
  cbn [map]. apply NoDup_cons; [ | exact (IH H) ].
  intros Hin. apply Hfresh. apply in_map_iff in Hin.
  destruct Hin as (b & Hb & Hin). apply filter_In in Hin.
  apply in_map_iff. exists b. tauto.
Qed.

Lemma insert_or_replace_unique (d : sqlite) (values : nat -> workflow_row) :
  unique_filenames d -> unique_filenames (insert_or_replace d values).
Proof.
  unfold unique_filenames, insert_or_replace. cbn [workflows]. intros H.
  set (new := values (S (sqlite_sequence d))).
  rewrite map_app. cbn [map]. apply NoDup_app.
  - apply NoDup_map_filter. exact H.
  - constructor; [ intros [] | constructor ].
  - intros x Hx [Hnew | []]. subst x.
    apply in_map_iff in Hx. destruct Hx as (w & Hw & Hin).
    apply filter_In in Hin. destruct Hin as [_ Hin].
    apply negb_true_iff in Hin. apply String.eqb_neq in Hin. congruence.
Qed.

(** The third of the values bound is the id when the id fills one
    placeholder. *)
Lemma bind_all_third (w : workflow) (values : list bound) :
  bind_all (upsert_arguments w) = Return values ->
  fills_one (wf_workflow_id w) = true ->
  nth 2 values BoundNull = bound_of (wf_workflow_id w).
Proof.
  unfold bind_all, upsert_arguments. intros H Hid.
  remember [Taken (wf_created_at w); Taken (wf_updated_at w);
            Made (BoundText (wf_file_hash w));
            Made (BoundNumber (Z.of_nat (wf_file_size w)))] as tail eqn:Etail.
  clear Etail.
  destruct (wf_workflow_id w) as [ | b | z | t | [ | [ | b | z | t | l | o ] [ | y l' ] ] | o ];
    try discriminate Hid;
    cbn [bind_arguments bind_array bindable_value bind_at bind parameter_count
         Nat.leb List.length Nat.add app] in H;
    (destruct (bind_arguments tail 11 false) as [rest | e];
     cbn [bind app] in H; [ | discriminate H ]);
    (match type of H with
     | (if ?c then _ else _) = _ => destruct c; [ discriminate H | ]
     end);
    inversion H; reflexivity.
Qed.

(** The eleventh and twelfth are the two dates when all three fill one
    placeholder each. *)
Lemma bind_all_dates (w : workflow) (values : list bound) :
  bind_all (upsert_arguments w) = Return values ->
  fills_one (wf_workflow_id w) = true ->
  fills_one (wf_created_at w) = true ->
  fills_one (wf_updated_at w) = true ->
  nth 10 values BoundNull = bound_of (wf_created_at w)
  /\ nth 11 values BoundNull = bound_of (wf_updated_at w).
Proof.
  unfold bind_all, upsert_arguments. intros H Hid Hc Hu.
  destruct (wf_workflow_id w) as [ | b | z | t | [ | [ | b | z | t | l | o ] [ | y l' ] ] | o ];
    try discriminate Hid;
    destruct (wf_created_at w)
      as [ | b1 | z1 | t1 | [ | [ | b1 | z1 | t1 | l1 | o1 ] [ | y1 l1' ] ] | o1 ];
    try discriminate Hc;
    destruct (wf_updated_at w)
      as [ | b2 | z2 | t2 | [ | [ | b2 | z2 | t2 | l2 | o2 ] [ | y2 l2' ] ] | o2 ];
    try discriminate Hu;
    cbn in H; inversion H; split; reflexivity.
Qed.

(** X5.  Round trip through the store.  A document that was analyzed
    and whose record is storable ([stmt.run] fills its 14 placeholders)
    is stored, and fetching its file name yields a record with the
    analyzed file name, name, digest and size: these keep their
    columns in every call.  When the id of the document fills one
    placeholder (a number, a string, null, or an array of one of
    these), the record has that id as its workflow_id, a number as the
    text of the number, and the analyzed active flag, description,
    trigger type, complexity, node count, integrations and tags; when
    createdAt and updatedAt fill one placeholder each as well, it has
    them as created_at and updated_at.  Fetching any other file name
    yields what it yielded before. *)
Theorem analyze_upsert_fetch (f : corpus_file) (w : workflow) (d : sqlite) :
  analyzeWorkflow f = Some w ->
  storable w = true ->
  exists d' row,
    upsertWorkflow d w = Return d'
    /\ getWorkflowByFilename d' (file_name f) = Some row
    /\ (filename row = file_name f
        /\ name row = wf_name w
        /\ file_hash row = file_md5 f
        /\ file_size row = file_size_bytes f)
    /\ (fills_one (wf_workflow_id w) = true ->
        workflow_id row = text_affinity (bound_of (wf_workflow_id w))
        /\ active row = truthy (Some (wf_active w))
        /\ description row = wf_description w
        /\ trigger_type row = wf_trigger_type w
        /\ complexity row = wf_complexity w
        /\ node_count row = wf_node_count w
        /\ integrations row = wf_integrations w
        /\ tags row = wf_tags w
        /\ (fills_one (wf_created_at w) = true ->
            fills_one (wf_updated_at w) = true ->
            created_at row = text_affinity (bound_of (wf_created_at w))
            /\ updated_at row = text_affinity (bound_of (wf_updated_at w))))
    /\ (forall other,
          other <> file_name f ->
          getWorkflowByFilename d' other = getWorkflowByFilename d other).
Proof.
  intros Ha Hs.
  pose proof (@analyzeWorkflow_inv f w Ha) as (Hfn & Hhash & _).
  assert (Hsize : wf_file_size w = file_size_bytes f).
  { unfold analyzeWorkflow in Ha.
    destruct (analyzeWorkflow_body f) as [w0|] eqn:Hbody; [ | discriminate Ha ].
    inversion Ha; subst w0; clear Ha.
    unfold analyzeWorkflow_body in Hbody. bind_inv Hbody.
    destruct (or_default _ (JArr [])); try discriminate Hbody.
    bind_inv Hbody. inversion Hbody. reflexivity. }
  unfold storable in Hs. unfold upsertWorkflow.
  destruct (bind_all (upsert_arguments w)) as [values | e] eqn:Hb; [ | discriminate Hs ].
  cbn [bind]. eexists. eexists. split; [ reflexivity | ].
  rewrite getWorkflowByFilename_insert. cbn [filename].
  rewrite Hfn, String.eqb_refl.
  split; [ reflexivity | ].
  cbn [filename name description trigger_type complexity node_count
       integrations tags file_hash file_size workflow_id active created_at
       updated_at].
  split; [ repeat split; auto | split ].
  - intros Hid. rewrite (bind_all_third w Hb Hid).
    repeat (split; [ reflexivity | ]).
    intros Hc Hu.
    destruct (bind_all_dates w Hb Hid Hc Hu) as [-> ->]. split; reflexivity.
  - intros other Hother. rewrite getWorkflowByFilename_insert.
    cbn [filename]. rewrite ?Hfn.
    destruct (String.eqb (file_name f) other) eqn:Hsame; [ | reflexivity ].
    apply String.eqb_eq in Hsame. congruence.
Qed.

Lemma analyze_upsert_fetch_witness :
  (analyzeWorkflow ex_file_array_id = Some ex_workflow_array_id
   /\ storable ex_workflow_array_id = true)
  /\ exists d' row,
       upsertWorkflow empty_store ex_workflow_array_id = Return d'
       /\ getWorkflowByFilename d' (file_name ex_file_array_id) = Some row
       /\ (filename row = file_name ex_file_array_id
           /\ name row = wf_name ex_workflow_array_id
           /\ file_hash row = file_md5 ex_file_array_id
           /\ file_size row = file_size_bytes ex_file_array_id)
       /\ (fills_one (wf_workflow_id ex_workflow_array_id) = true ->
           workflow_id row = text_affinity (bound_of (wf_workflow_id ex_workflow_array_id))
           /\ active row = truthy (Some (wf_active ex_workflow_array_id))
           /\ description row = wf_description ex_workflow_array_id
           /\ trigger_type row = wf_trigger_type ex_workflow_array_id
           /\ complexity row = wf_complexity ex_workflow_array_id
           /\ node_count row = wf_node_count ex_workflow_array_id
           /\ integrations row = wf_integrations ex_workflow_array_id
           /\ tags row = wf_tags ex_workflow_array_id
           /\ (fills_one (wf_created_at ex_workflow_array_id) = true ->
               fills_one (wf_updated_at ex_workflow_array_id) = true ->
               created_at row
               = text_affinity (bound_of (wf_created_at ex_workflow_array_id))
               /\ updated_at row
                  = text_affinity (bound_of (wf_updated_at ex_workflow_array_id))))
       /\ (forall other,
             other <> file_name ex_file_array_id ->
             getWorkflowByFilename d' other = getWorkflowByFilename empty_store other).
Proof.
  split; [ split; reflexivity | ].
  apply (@analyze_upsert_fetch ex_file_array_id ex_workflow_array_id empty_store);
    reflexivity.
Defined.

(** The document with the id ["w1"] is stored under the id w1, and a
    number 12 as the text of the number. *)
Example array_id_is_stored :
  option_map (fun x => (map workflow_id (workflows (db (fst x))), snd x))
    (match indexWorkflows fresh_database
             (Return [ex_file_array_id; ex_file_number_id]) false with
     | Return x => Some x
     | Throw _ => None
     end)
  = Some ([Text "w1"; TextOfNumber 12],
          {| res_processed := 2; res_skipped := 0; res_errors := 0; res_total := 2 |}).
Proof. vm_compute. reflexivity. Qed.

(** An id that fills no placeholder and a createdAt that fills two:
    the call binds 14 values and the record is stored; the BOOLEAN
    flag 0 is what the column workflow_id takes, and created_at takes
    the second element of createdAt. *)
Example shifted_record_is_stored :
  storable ex_workflow_shifted = true
  /\ fills_one (wf_workflow_id ex_workflow_shifted) = false
  /\ bind_all (upsert_arguments ex_workflow_shifted)
     = Return [BoundText "0004_Shifted.json"; BoundText "Shifted"; BoundNumber 0;
               BoundText "Manual workflow with 0 nodes (low complexity)";
               BoundText "Manual"; BoundText "low"; BoundNumber 0;
               BoundJson (JArr []); BoundJson (JArr []);
               BoundText "a"; BoundText "b"; BoundText "";
               BoundText "0cc175b9c0f1b6a831c399e269772661"; BoundNumber 60]
  /\ option_map (fun x => (map workflow_id (workflows (db (fst x))),
                           map created_at (workflows (db (fst x))), snd x))
       (match indexWorkflows fresh_database (Return [ex_file_shifted]) false with
        | Return x => Some x
        | Throw _ => None
        end)
     = Some ([TextOfNumber 0], [Text "b"],
             {| res_processed := 1; res_skipped := 0; res_errors := 0;
                res_total := 1 |}).
Proof. repeat split; vm_compute; reflexivity. Qed.

(** A boolean id is refused, an id of four elements is one value too
    many, and an empty id alone leaves one placeholder empty. *)
Example ids_that_do_not_bind :
  bind_all (upsert_arguments (ex_workflow_with_id (JBool true)))
  = Throw "TypeError: SQLite3 can only bind numbers, strings, bigints, buffers, and null"
  /\ bind_all (upsert_arguments
                 (ex_workflow_with_id (JArr [JNum 1; JNum 2; JNum 3; JNum 4])))
     = Throw "RangeError: Too many parameter values were provided"
  /\ bind_all (upsert_arguments (ex_workflow_with_id (JArr [])))
     = Throw "RangeError: Too few parameter values were provided".
Proof. repeat split; vm_compute; reflexivity. Qed.

Lemma upsertWorkflow_unique (d d' : sqlite) (w : workflow) :
  unique_filenames d -> upsertWorkflow d w = Return d' -> unique_filenames d'.
Proof.
  intros H Hu. apply upsertWorkflow_inv in Hu.
  destruct Hu as (values & -> & _). apply insert_or_replace_unique. exact H.
Qed.

Lemma index_file_unique (force : bool) (d : sqlite) (c : counters) (f : corpus_file) :
  unique_filenames d -> unique_filenames (fst (index_file force (d, c) f)).
Proof.
  intros H. unfold index_file.
  destruct (analyzeWorkflow f) as [w|]; [ | exact H ].
  destruct (negb force && _); [ exact H | ].
  destruct (upsertWorkflow d w) as [d'|] eqn:E; [ | exact H ].
  exact (@upsertWorkflow_unique d d' w H E).
Qed.

Lemma index_loop_unique (force : bool) (l : list corpus_file) :
  forall d c,
    unique_filenames d -> unique_filenames (fst (index_loop force l (d, c))).
Proof.
  unfold index_loop.
  induction l as [ | f l IH ]; intros d c H; cbn [fold_left]; [ exact H | ].
  pose proof (@index_file_unique force d c f H) as H1.
  destruct (index_file force (d, c) f) as [d1 c1]. apply IH. exact H1.
Qed.

(** X6.  One live record per file name: if no two records of the store
    share a file name, none do after an upsert, and none do after an
    indexing run over any directory. *)
Theorem filenames_stay_unique (self : WorkflowDatabase)
  (workflowFiles : list corpus_file) (forceReindex : bool) :
  unique_filenames (db self) ->
  (forall w d', upsertWorkflow (db self) w = Return d' -> unique_filenames d')
  /\ exists self' r,
       indexWorkflows self (Return workflowFiles) forceReindex = Return (self', r)
       /\ unique_filenames (db self').
Proof.
  intros H. split.
  - intros w d' Hu. exact (@upsertWorkflow_unique (db self) d' w H Hu).
  - unfold indexWorkflows. cbn [bind].
    assert (H0 : unique_filenames (db (initialize self))).
    { unfold initialize. destruct (initialized self); exact H. }
    pose proof (@index_loop_unique forceReindex (jsonFiles_of workflowFiles)
                  (db (initialize self))
                  {| processed := 0; skipped := 0; errors := 0 |} H0) as H1.
    destruct (index_loop forceReindex (jsonFiles_of workflowFiles) _) as [d c].
    do 2 eexists. split; [ reflexivity | exact H1 ].
Qed.

Lemma filenames_stay_unique_witness :
  unique_filenames (db fresh_database)
  /\ ((forall w d',
         upsertWorkflow (db fresh_database) w = Return d' -> unique_filenames d')
      /\ exists self' r,
           indexWorkflows fresh_database (Return ex_corpus) false = Return (self', r)
           /\ unique_filenames (db self')).
Proof.
  assert (H : unique_filenames (db fresh_database)) by constructor.
  split; [ exact H | ].
  apply (@filenames_stay_unique fresh_database ex_corpus false H).
Defined.

Lemma find_none_filter {A : Type} (p : A -> bool) (l : list A) :
  find p l = None -> filter p l = [].
Proof.
  induction l as [ | a l IH ]; cbn [find filter]; [ reflexivity | ].
  destruct (p a); [ discriminate | exact IH ].
Qed.

(** The insert of a record under a new name keeps the shadow table in
    step, with or without recursive triggers. *)
Lemma upsert_of_new_name_in_step (d d' : sqlite) (w : workflow) :
  getWorkflowByFilename d (wf_filename w) = None ->
  shadow_in_step d ->
  upsertWorkflow d w = Return d' ->
  shadow_in_step d'.
Proof.
  unfold shadow_in_step, getWorkflowByFilename. intros Hnone Hstep Hu.
  apply upsertWorkflow_inv in Hu. destruct Hu as (values & -> & Hname & _).
  unfold insert_or_replace. cbn [workflows workflows_fts].
  rewrite (Hname (S (sqlite_sequence d))).
  rewrite (find_none_filter _ _ Hnone). cbn [fold_left].
  rewrite (filter_none _ _ (find_none_filter _ _ Hnone)).
  unfold workflows_ai. rewrite map_app. cbn [map]. rewrite Hstep.
  destruct (recursive_triggers d); reflexivity.
Qed.

Lemma index_loop_first_time (force : bool) (l : list corpus_file) :
  forall d c,
    NoDup (map file_name l) ->
    shadow_in_step d ->
    (forall f, In f l -> getWorkflowByFilename d (file_name f) = None) ->
    shadow_in_step (fst (index_loop force l (d, c))).
Proof.
  unfold index_loop.
  induction l as [ | f l IH ]; intros d c Hnodup Hstep Hnew; cbn [fold_left];
    [ exact Hstep | ].
  cbn [map] in Hnodup. apply NoDup_cons_iff in Hnodup.
  destruct Hnodup as [Hfresh Hnodup].
  assert (Hstep1 : shadow_in_step (fst (index_file force (d, c) f))).
  { unfold index_file.
    destruct (analyzeWorkflow f) as [w|] eqn:Ew; [ | exact Hstep ].
    rewrite (Hnew f (or_introl eq_refl)). rewrite andb_false_r.
    destruct (upsertWorkflow d w) as [d'|] eqn:Eu; [ | exact Hstep ].
    cbn [fst]. apply (@upsert_of_new_name_in_step d d' w); try assumption.
    pose proof (@analyzeWorkflow_inv f w Ew) as (Hfn & _). rewrite Hfn.
    apply Hnew. left. reflexivity. }
  assert (Hnew1 : forall g, In g l ->
            getWorkflowByFilename (fst (index_file force (d, c) f)) (file_name g)
            = None).
  { intros g Hg. rewrite index_file_other_names.
    - apply Hnew. right. exact Hg.
    - intros Heq. apply Hfresh. rewrite <- Heq. apply in_map. exact Hg. }
  destruct (index_file force (d, c) f) as [d1 c1]. cbn [fst] in *.
  apply IH; assumption.
Qed.

(** X7.  The first indexing of a corpus keeps the shadow table in step:
    when the store holds no record for any file of the directory, the
    file names are distinct and the shadow table mirrors the records
    before the run, it mirrors them after the run. *)
Theorem first_indexing_keeps_shadow_in_step (self : WorkflowDatabase)
  (workflowFiles : list corpus_file) (forceReindex : bool) :
  NoDup (map file_name workflowFiles) ->
  shadow_in_step (db self) ->
  (forall f, In f workflowFiles ->
             getWorkflowByFilename (db self) (file_name f) = None) ->
  exists self' r,
    indexWorkflows self (Return workflowFiles) forceReindex = Return (self', r)
    /\ shadow_in_step (db self')
    /\ List.length (workflows_fts (db self')) = List.length (workflows (db self')).
Proof.
  intros Hnodup Hstep Hnew. unfold indexWorkflows. cbn [bind].
  assert (Hdb : workflows (db (initialize self)) = workflows (db self)
                /\ workflows_fts (db (initialize self)) = workflows_fts (db self)).
  { unfold initialize. destruct (initialized self); split; reflexivity. }
  destruct Hdb as [Hws Hfts].
  pose proof (@index_loop_first_time forceReindex (jsonFiles_of workflowFiles)
                (db (initialize self))
                {| processed := 0; skipped := 0; errors := 0 |}
                (NoDup_names_jsonFiles workflowFiles Hnodup)) as H.
  destruct (index_loop forceReindex (jsonFiles_of workflowFiles) _) as [d c].
  cbn [fst] in H.
  assert (Hd : shadow_in_step d).
  { apply H.
    - unfold shadow_in_step. rewrite Hws, Hfts. exact Hstep.
    - intros f Hf. unfold getWorkflowByFilename. rewrite Hws.
      apply Hnew. unfold jsonFiles_of in Hf. apply filter_In in Hf. apply Hf. }
  do 2 eexists. split; [ reflexivity | ]. cbn [db].
  split; [ exact Hd | ]. rewrite Hd. apply length_map.
Qed.

Lemma first_indexing_keeps_shadow_in_step_witness :
  (NoDup (map file_name ex_corpus)
   /\ shadow_in_step (db fresh_database)
   /\ (forall f, In f ex_corpus ->
                 getWorkflowByFilename (db fresh_database) (file_name f) = None))
  /\ exists self' r,
       indexWorkflows fresh_database (Return ex_corpus) false = Return (self', r)
       /\ shadow_in_step (db self')
       /\ List.length (workflows_fts (db self'))
          = List.length (workflows (db self')).
Proof.
  assert (H1 : NoDup (map file_name ex_corpus)).
  { cbn [map file_name ex_corpus ex_report_v1 ex_file_broken ex_file_webhook].
    solve_NoDup. }
  assert (H2 : shadow_in_step (db fresh_database)) by reflexivity.
  assert (H3 : forall f, In f ex_corpus ->
                 getWorkflowByFilename (db fresh_database) (file_name f) = None).
  { intros f _. reflexivity. }
  split; [ split; [ exact H1 | split; [ exact H2 | exact H3 ] ] | ].
  apply (@first_indexing_keeps_shadow_in_step fresh_database ex_corpus false
           H1 H2 H3).
Defined.

Lemma index_loop_forced_skips_nothing (l : list corpus_file) :
  forall d c, skipped (snd (index_loop true l (d, c))) = skipped c.
Proof.
  unfold index_loop.
  induction l as [ | f l IH ]; intros d c; cbn [fold_left]; [ reflexivity | ].
  assert (H : skipped (snd (index_file true (d, c) f)) = skipped c).
  { unfold index_file. destruct (analyzeWorkflow f) as [w|]; [ | reflexivity ].
    cbn [negb andb]. destruct (upsertWorkflow d w); reflexivity. }
  destruct (index_file true (d, c) f) as [d1 c1]. cbn [snd] in H.
  rewrite IH. exact H.
Qed.

(** X8.  A forced run skips nothing: with force = true the result has
    skipped = 0 and processed + errors = total, whatever the store held
    before. *)
Theorem forced_run_skips_nothing (self : WorkflowDatabase)
  (workflowFiles : list corpus_file) :
  exists self' r,
    indexWorkflows self (Return workflowFiles) true = Return (self', r)
    /\ res_skipped r = 0%nat
    /\ (res_processed r + res_errors r = res_total r)%nat.
Proof.
  unfold indexWorkflows. cbn [bind]. fold no_counts.
  pose proof (index_loop_forced_skips_nothing (jsonFiles_of workflowFiles)
                (db (initialize self)) no_counts) as Hskip.
  pose proof (index_loop_sum true (jsonFiles_of workflowFiles)
                (db (initialize self))) as Hsum.
  destruct (index_loop true (jsonFiles_of workflowFiles) _) as [d c].
  cbn [snd] in *. unfold count_sum in Hsum. cbn [skipped no_counts] in Hskip.
  do 2 eexists. split; [ reflexivity | ].
  cbn [res_skipped res_processed res_errors res_total]. lia.
Qed.

Lemma upsert_of_storable (d : sqlite) (w : workflow) :
  storable w = true -> exists d', upsertWorkflow d w = Return d'.
Proof.
  unfold storable, upsertWorkflow. intros H.
  destruct (bind_all (upsert_arguments w)); [ | discriminate H ].
  cbn [bind]. eexists. reflexivity.
Qed.

(** The storable records are those [upsertWorkflow] stores, whatever
    the store holds. *)
Lemma storable_iff (d : sqlite) (w : workflow) :
  storable w = true <-> exists d', upsertWorkflow d w = Return d'.
Proof.
  split; [ apply upsert_of_storable | ].
  unfold storable, upsertWorkflow. intros (d' & H).
  destruct (bind_all (upsert_arguments w)); [ reflexivity | discriminate H ].
Qed.

(** After its turn in the loop, a storable file has a record with its
    digest. *)
Lemma index_file_records_digest (force : bool) (d : sqlite) (c : counters)
  (f : corpus_file) (w : workflow) :
  analyzeWorkflow f = Some w ->
  storable w = true ->
  exists row,
    getWorkflowByFilename (fst (index_file force (d, c) f)) (file_name f) = Some row
    /\ file_hash row = file_md5 f.
Proof.
  intros Ha Hs. unfold index_file. rewrite Ha.
  pose proof (@analyzeWorkflow_inv f w Ha) as (Hfn & Hhash & _).
  destruct (getWorkflowByFilename d (file_name f)) as [existing|] eqn:Eex.
  - destruct (String.eqb (file_hash existing) (wf_file_hash w)) eqn:Eh.
    + destruct (negb force); cbn [andb fst].
      * exists existing. split; [ exact Eex | ].
        apply String.eqb_eq in Eh. congruence.
      * destruct (upsert_of_storable d w Hs) as (d' & Hu). rewrite Hu. cbn [fst].
        apply upsertWorkflow_inv in Hu.
        destruct Hu as (values & -> & Hname & Hh & _).
        eexists. rewrite getWorkflowByFilename_insert, Hname, Hfn, String.eqb_refl.
        split; [ reflexivity | ]. rewrite Hh. exact Hhash.
    + rewrite andb_false_r.
      destruct (upsert_of_storable d w Hs) as (d' & Hu). rewrite Hu. cbn [fst].
      apply upsertWorkflow_inv in Hu.
      destruct Hu as (values & -> & Hname & Hh & _).
      eexists. rewrite getWorkflowByFilename_insert, Hname, Hfn, String.eqb_refl.
      split; [ reflexivity | ]. rewrite Hh. exact Hhash.
  - rewrite andb_false_r.
    destruct (upsert_of_storable d w Hs) as (d' & Hu). rewrite Hu. cbn [fst].
    apply upsertWorkflow_inv in Hu.
    destruct Hu as (values & -> & Hname & Hh & _).
    eexists. rewrite getWorkflowByFilename_insert, Hname, Hfn, String.eqb_refl.
    split; [ reflexivity | ]. rewrite Hh. exact Hhash.
Qed.

Lemma index_loop_records_digest (force : bool) (l : list corpus_file) :
  forall d c f w,
    NoDup (map file_name l) ->
    In f l ->
    analyzeWorkflow f = Some w ->
    storable w = true ->
    exists row,
      getWorkflowByFilename (fst (index_loop force l (d, c))) (file_name f) = Some row
      /\ file_hash row = file_md5 f.
Proof.
  induction l as [ | g l IH ]; intros d c f w Hnodup Hin Ha Hs; [ contradiction | ].
  cbn [map] in Hnodup. apply NoDup_cons_iff in Hnodup.
  destruct Hnodup as [Hfresh Hnodup].
  unfold index_loop. cbn [fold_left].
  change (fold_left (index_file force) l) with (index_loop force l).
  destruct Hin as [-> | Hin].
  - destruct (@index_file_records_digest force d c f w Ha Hs) as (row & Hrow & Hh).
    destruct (index_file force (d, c) f) as [d1 c1]. cbn [fst] in Hrow.
    exists row. split; [ | exact Hh ].
    rewrite index_loop_other_names; [ exact Hrow | exact Hfresh ].
  - destruct (index_file force (d, c) g) as [d1 c1].
    apply (IH d1 c1 f w Hnodup Hin Ha Hs).
Qed.

(** X9.  After an indexing run over a directory of distinct file names,
    every file that was analyzed and whose record is storable
    ([stmt.run] fills the 14 placeholders of the statement from the
    values of the record, an array among them spread over as many
    placeholders as it has elements) is fetched from the store with the
    digest the file has now. *)
Theorem indexed_file_is_fetched_with_its_digest (self : WorkflowDatabase)
  (workflowFiles : list corpus_file) (forceReindex : bool)
  (f : corpus_file) (w : workflow) :
  NoDup (map file_name workflowFiles) ->
  In f (jsonFiles_of workflowFiles) ->
  analyzeWorkflow f = Some w ->
  storable w = true ->
  exists self' r row,
    indexWorkflows self (Return workflowFiles) forceReindex = Return (self', r)
    /\ getWorkflowByFilename (db self') (file_name f) = Some row
    /\ file_hash row = file_md5 f.
Proof.
  intros Hnodup Hin Ha Hs. unfold indexWorkflows. cbn [bind].
  destruct (@index_loop_records_digest forceReindex (jsonFiles_of workflowFiles)
              (db (initialize self))
              {| processed := 0; skipped := 0; errors := 0 |} f w
              (NoDup_names_jsonFiles workflowFiles Hnodup) Hin Ha Hs)
    as (row & Hrow & Hh).
  destruct (index_loop forceReindex (jsonFiles_of workflowFiles) _) as [d c].
  cbn [fst] in Hrow.
  do 3 eexists. split; [ reflexivity | ]. cbn [db]. split; [ exact Hrow | exact Hh ].
Qed.

Lemma indexed_file_is_fetched_with_its_digest_witness :
  (NoDup (map file_name ex_corpus_ids)
   /\ In ex_file_shifted (jsonFiles_of ex_corpus_ids)
   /\ analyzeWorkflow ex_file_shifted = Some ex_workflow_shifted
   /\ storable ex_workflow_shifted = true)
  /\ exists self' r row,
       indexWorkflows fresh_database (Return ex_corpus_ids) false = Return (self', r)
       /\ getWorkflowByFilename (db self') (file_name ex_file_shifted) = Some row
       /\ file_hash row = file_md5 ex_file_shifted.
Proof.
  assert (H1 : NoDup (map file_name ex_corpus_ids)).
  { cbn [map file_name ex_corpus_ids ex_file_array_id ex_file_broken ex_file_shifted].
    solve_NoDup. }
  assert (H2 : In ex_file_shifted (jsonFiles_of ex_corpus_ids)).
  { right. right. left. reflexivity. }
  split; [ repeat split; [ exact H1 | exact H2 ] | ].
  apply (@indexed_file_is_fetched_with_its_digest fresh_database ex_corpus_ids false
           ex_file_shifted ex_workflow_shifted H1 H2 eq_refl eq_refl).
Defined.

(** X10.  An indexing run never removes or changes the record of a file
    name that is not among the .json entries of the directory: records
    of files that left the corpus stay. *)
Theorem records_outside_the_corpus_stay (self : WorkflowDatabase)
  (workflowFiles : list corpus_file) (forceReindex : bool) (file : string) :
  ~ In file (map file_name (jsonFiles_of workflowFiles)) ->
  exists self' r,
    indexWorkflows self (Return workflowFiles) forceReindex = Return (self', r)
    /\ getWorkflowByFilename (db self') file = getWorkflowByFilename (db self) file.
Proof.
  intros Hnot. unfold indexWorkflows. cbn [bind].
  pose proof (@index_loop_other_names forceReindex (jsonFiles_of workflowFiles)
                file (db (initialize self))
                {| processed := 0; skipped := 0; errors := 0 |} Hnot) as H.
  destruct (index_loop forceReindex (jsonFiles_of workflowFiles) _) as [d c].
  cbn [fst] in H. do 2 eexists. split; [ reflexivity | ]. cbn [db].
  rewrite H. unfold initialize. destruct (initialized self); reflexivity.
Qed.

Lemma records_outside_the_corpus_stay_witness :
  ~ In "0003_Report.json" (map file_name (jsonFiles_of [ex_file_webhook]))
  /\ exists self' r,
       indexWorkflows (fst ex_after_v1) (Return [ex_file_webhook]) true
       = Return (self', r)
       /\ getWorkflowByFilename (db self') "0003_Report.json"
          = getWorkflowByFilename (db (fst ex_after_v1)) "0003_Report.json".
Proof.
  assert (H : ~ In "0003_Report.json" (map file_name (jsonFiles_of [ex_file_webhook]))).
  { cbn. intros [H | []]. discriminate H. }
  split; [ exact H | ].
  apply (@records_outside_the_corpus_stay (fst ex_after_v1) [ex_file_webhook] true
           "0003_Report.json" H).
Defined.

(** ** The search without text *)

Lemma unwrap_rows (l : list workflow_row) :
  flat_map (fun r => match r with
                     | RowWorkflow w => [w]
                     | RowTotal _ => []
                     end) (map RowWorkflow l) = l.
Proof.
  induction l as [ | w l IH ]; cbn [map flat_map app]; [ reflexivity | ].
  rewrite IH. reflexivity.
Qed.



Lemma insert_by_name_In (x y : workflow_row) (l : list workflow_row) :
  In y (insert_by_name x l) <-> y = x \/ In y l.
Proof.
  induction l as [ | z l IH ]; cbn [insert_by_name In].
  - intuition congruence.
  - destruct (String.leb (name x) (name z)); cbn [In]; [ intuition congruence | ].
    rewrite IH. intuition congruence.
Qed.

Lemma order_by_name_In (y : workflow_row) (l : list workflow_row) :
  In y (order_by_name l) <-> In y l.
Proof.
  unfold order_by_name.
  induction l as [ | x l IH ]; cbn [fold_right In]; [ tauto | ].
  rewrite insert_by_name_In, IH. intuition congruence.
Qed.











(** The offset 10^26 of a request for the page 10^24 is refused. *)
Example page_beyond_the_integers :
  searchWorkflows ex_buildFTSQuery ex_fts5 ex_indexed "" "all" "all" false
    100 (10 ^ 26)
  = Throw "SqliteError: datatype mismatch".
Proof. vm_compute. reflexivity. Qed.








(** Whatever the request, a page is no longer than the limit. *)
Lemma searchWorkflows_page_bound
  (buildFTSQuery : string -> string) (fts5 : string -> option (fts_row -> bool))
  (self : WorkflowDatabase) (q triggerFilter complexityFilter : string)
  (activeOnly : bool) (limit offset : Z) (r : search_result) :
  (0 <= limit)%Z ->
  searchWorkflows buildFTSQuery fts5 self q triggerFilter complexityFilter
    activeOnly limit offset = Return r ->
  (List.length (sr_workflows r) <= Z.to_nat limit)%nat.
Proof.
  intros Hlimit H.
  destruct (@page_out_of_range buildFTSQuery fts5 self q triggerFilter
              complexityFilter activeOnly limit offset r H) as [Hl Ho].
  revert H. unfold searchWorkflows.
  destruct (initialized self); cbn [negb]; [ | discriminate ].
  destruct (String.eqb (JsString.trim q) ""); cbn [negb];
  destruct (String.eqb triggerFilter "all"), (String.eqb complexityFilter "all"),
    activeOnly; cbn [negb];
    unfold sql_fts, sql_all; eval_prepare; cbn [bind]; eval_prepare;
    unfold stmt_get, stmt_all;
    cbn [sel_join sel_trigger sel_complexity sel_active sel_page sel_list bind
         take_text take_int app];
    try destruct (fts5 _);
    cbn [sel_join sel_trigger sel_complexity sel_active sel_page sel_list bind
         take_text take_int app];
    rewrite ?Hl; cbn [bind take_int]; rewrite ?Ho;
    cbn [bind hd_error map destructure_total];
    try discriminate;
    try (match goal with
         | |- context [hd_error ?l] =>
             destruct l as [ | [w0 | n0] l0 ];
             cbn [bind hd_error map destructure_total]
         end);
    try discriminate;
    intros H; inversion H; cbn [sr_workflows]; rewrite unwrap_rows;
    unfold limit_offset; (destruct (Z.ltb_spec limit 0); [ lia | ]);
    apply firstn_le_length.
Qed.

(** X13.  The search route clamps its paging: whatever integers the
    request gives for page and per_page, with or without text, a 200
    reply has 1 <= per_page <= 100, page >= 1, and at most per_page
    (so at most 100) workflows. *)
Theorem search_route_clamps_paging
  (buildFTSQuery : string -> string) (fts5 : string -> option (fts_row -> bool))
  (self : WorkflowDatabase) (q trigger complexityFilter active_only : string)
  (page per_page : Z) (body : search_response) :
  api_workflows buildFTSQuery fts5 self q trigger complexityFilter active_only
    page per_page = Json200 body ->
  (1 <= rsp_per_page body <= 100)%Z
  /\ (1 <= rsp_page body)%Z
  /\ (Z.of_nat (List.length (rsp_workflows body)) <= rsp_per_page body)%Z.
Proof.
  unfold api_workflows.
  destruct (searchWorkflows _ _ _ _ _ _ _ _ _) as [r|] eqn:E; [ | discriminate ].
  intros H. inversion H; subst body; clear H.
  cbn [rsp_per_page rsp_page rsp_workflows].
  apply searchWorkflows_page_bound in E; lia.
Qed.

Lemma search_route_clamps_paging_witness :
  api_workflows ex_buildFTSQuery ex_fts5 ex_indexed "slack" "all" "all" "false" 1 20
  = Json200 ex_search_body
  /\ ((1 <= rsp_per_page ex_search_body <= 100)%Z
      /\ (1 <= rsp_page ex_search_body)%Z
      /\ (Z.of_nat (List.length (rsp_workflows ex_search_body))
          <= rsp_per_page ex_search_body)%Z).
Proof.
  split; [ reflexivity | ].
  apply (@search_route_clamps_paging ex_buildFTSQuery ex_fts5 ex_indexed
           "slack" "all" "all" "false" 1 20 ex_search_body).
  reflexivity.
Defined.

(** ** The helpers of the MCP server *)

Lemma capitalize_starts_upper (s : string) (c : ascii) (rest : string) :
  JsString.capitalize s = String c rest -> JsString.is_lower c = false.
Proof.
  destruct s as [ | a s ]; [ discriminate | ].
  cbn [JsString.capitalize]. intros H. inversion H; subst c rest; clear H.
  destruct a as [[] [] [] [] [] [] [] []]; reflexivity.
Qed.

Lemma capitalize_not_excluded (nodeName x : string) :
  In x mcp_excluded_short -> JsString.capitalize nodeName <> x.
Proof.
  intros Hx Heq. unfold mcp_excluded_short in Hx. cbn [In] in Hx.
  repeat (destruct Hx as [Hx | Hx];
          [ subst x; apply capitalize_starts_upper in Heq; discriminate Heq | ]).
  contradiction.
Qed.

Lemma extractIntegration_keeps (acc : list string) (ty : option string) :
  NoDup acc /\ (forall x, In x mcp_excluded_short -> ~ In x acc) ->
  NoDup (extractIntegration acc ty)
  /\ (forall x, In x mcp_excluded_short -> ~ In x (extractIntegration acc ty)).
Proof.
  intros [Hnd Hex]. unfold extractIntegration.
  destruct ty as [type|]; [ | split; assumption ].
  destruct (String.eqb type ""); [ split; assumption | ].
  destruct (negb (JsString.includes type "n8n-nodes-base.")).
  - destruct (negb (String.eqb (hd "" (JsString.split "." type)) "")
              && negb (Set_has (hd "" (JsString.split "." type)) mcp_excluded_short))
      eqn:E; [ | split; assumption ].
    apply andb_true_iff in E. destruct E as [_ E]. apply negb_true_iff in E.
    split; [ apply Set_add_NoDup; exact Hnd | ].
    intros x Hx Hin. apply Set_add_In in Hin. destruct Hin as [-> | Hin].
    + apply Set_has_In in Hx. congruence.
    + exact (Hex x Hx Hin).
  - destruct (1 <? List.length (JsString.split "." type))%nat;
      [ | split; assumption ].
    destruct (negb (Set_has (nth 1 (JsString.split "." type) "") mcp_excluded));
      [ | split; assumption ].
    split; [ apply Set_add_NoDup; exact Hnd | ].
    intros x Hx Hin. apply Set_add_In in Hin. destruct Hin as [-> | Hin].
    + exact (capitalize_not_excluded _ Hx eq_refl).
    + exact (Hex x Hx Hin).
Qed.

(** X14.  [extractIntegrations] returns pairwise distinct names and
    never returns start, noOp, function or set, whatever the node types
    are. *)
Theorem extractIntegrations_distinct_and_filtered (nodeTypes : list (option string)) :
  NoDup (extractIntegrations nodeTypes)
  /\ (forall x, In x ["start"; "noOp"; "function"; "set"] ->
                ~ In x (extractIntegrations nodeTypes)).
Proof.
  unfold extractIntegrations.
  assert (H : forall acc,
            NoDup acc /\ (forall x, In x mcp_excluded_short -> ~ In x acc) ->
            NoDup (fold_left extractIntegration nodeTypes acc)
            /\ (forall x, In x mcp_excluded_short ->
                          ~ In x (fold_left extractIntegration nodeTypes acc))).
  { induction nodeTypes as [ | ty l IH ]; intros acc Hacc; cbn [fold_left].
    - exact Hacc.
    - apply IH. apply extractIntegration_keeps. exact Hacc. }
  apply H. split; [ constructor | intros x _ [] ].
Qed.

(** ** The similarity engine *)

Lemma inject_nat_nonneg (n : nat) : 0 <= inject_Z (Z.of_nat n).
Proof. unfold Qle. cbn. lia. Qed.

Lemma inject_nat_pos (n : nat) : (0 < n)%nat -> 0 < inject_Z (Z.of_nat n).
Proof. intros H. unfold Qlt. cbn. lia. Qed.

Lemma jaccard_bounds (a b : list string) :
  NoDup a -> 0 <= jaccard a b <= 1.
Proof.
  intros H. unfold jaccard.
  destruct (Nat.ltb_spec 0 (List.length (Set_of (a ++ b)))) as [Hpos | _];
    [ | split; [ apply Qle_refl | discriminate ] ].
  pose proof (inject_nat_pos Hpos) as Hu.
  split.
  - apply Qle_shift_div_l; [ exact Hu | ].
    rewrite Qmult_0_l. apply inject_nat_nonneg.
  - apply Qle_shift_div_r; [ exact Hu | ].
    rewrite Qmult_1_l. rewrite <- Zle_Qle.
    apply inj_le. apply shared_le_union. exact H.
Qed.

Lemma node_count_ratio_bounds (a b : nat) :
  (0 < Nat.max a b)%nat -> 0 <= node_count_ratio a b <= 1.
Proof.
  intros Hpos. unfold node_count_ratio.
  pose proof (inject_nat_pos Hpos) as Hm.
  assert (H0 : 0 <= Qabs (inject_Z (Z.of_nat a - Z.of_nat b))
                    / inject_Z (Z.of_nat (Nat.max a b))).
  { apply Qle_shift_div_l; [ exact Hm | ]. rewrite Qmult_0_l. apply Qabs_nonneg. }
  assert (H1 : Qabs (inject_Z (Z.of_nat a - Z.of_nat b))
               / inject_Z (Z.of_nat (Nat.max a b)) <= 1).
  { apply Qle_shift_div_r; [ exact Hm | ]. rewrite Qmult_1_l.
    apply Qabs_Qle_condition. split.
    - setoid_replace (- inject_Z (Z.of_nat (Nat.max a b)))
        with (inject_Z (- Z.of_nat (Nat.max a b))) by reflexivity.
      rewrite <- Zle_Qle. lia.
    - rewrite <- Zle_Qle. lia. }
  split; lra.
Qed.

Lemma trigger_score_values (a b : string) :
  trigger_score a b == 1 \/ trigger_score a b == 1 # 2.
Proof.
  unfold trigger_score. destruct (String.eqb a b); [ left | right ]; reflexivity.
Qed.

Lemma combined_score_bounds (reference w : workflow_row) :
  NoDup (integrations reference) ->
  (0 < Nat.max (node_count reference) (node_count w))%nat ->
  1 # 10 <= combined_score reference w <= 1.
Proof.
  intros Hnd Hpos. unfold combined_score.
  pose proof (jaccard_bounds (integrations w) Hnd) as [Hj0 Hj1].
  pose proof (node_count_ratio_bounds _ _ Hpos) as [Hr0 Hr1].
  destruct (trigger_score_values (trigger_type reference) (trigger_type w)) as [Ht | Ht];
    rewrite Ht; split; lra.
Qed.



(** X16.  The shape of a [findSimilar] result: the reference is the
    record of the requested file, at most 20 entries are returned (20,
    or all when fewer qualify), total_found counts all qualifying
    candidates and is at most the number of other records, and every
    entry is computed from a record of another file: the reference is
    never its own candidate. *)
Theorem findSimilar_result_shape (d : sqlite) (file : string) (threshold : jsnum)
  (r : similar_result) :
  findSimilar d file threshold = Return r ->
  getWorkflowByFilename d file = Some (reference_workflow r)
  /\ List.length (similar_workflows r) = Nat.min 20 (total_found r)
  /\ (total_found r <= List.length (candidates d file))%nat
  /\ (forall e, In e (similar_workflows r) ->
        sim_filename e <> file
        /\ exists w, In w (workflows d)
                     /\ qualifies (reference_workflow r) threshold w = true
                     /\ e = similar_entry (reference_workflow r) w).
Proof.
  unfold findSimilar.
  destruct (getWorkflowByFilename d file) as [reference|]; [ | discriminate ].
  intros H.
  apply (f_equal (fun o => match o with Return x => x | Throw _ => r end)) in H.
  cbv beta iota in H. subst r.
  cbv beta iota delta [reference_workflow similar_workflows total_found].
  fold (candidates d file). rewrite fold_consider.
  change (([] ++ ?l)%list) with l.
  set (kept := map (similar_entry reference)
                   (filter (qualifies reference threshold) (candidates d file))).
  assert (Hlen : List.length (sort_by_score kept) = List.length kept).
  { apply Permutation_length, Permutation_sym, sort_by_score_perm. }
  split; [ reflexivity | split; [ apply length_firstn | split ] ].
  - rewrite Hlen. unfold kept. rewrite length_map. apply filter_length_le.
  - intros e He.
    assert (Hin : In e kept).
    { apply (Permutation_in e (Permutation_sym (sort_by_score_perm kept))).
      rewrite <- (firstn_skipn 20 (sort_by_score kept)).
      apply in_or_app. left. exact He. }
    unfold kept in Hin. apply in_map_iff in Hin. destruct Hin as (w & <- & Hw).
    apply filter_In in Hw. destruct Hw as [Hw Hq].
    unfold candidates in Hw. apply filter_In in Hw. destruct Hw as [Hw Hne].
    split.
    + cbn [similar_entry sim_filename]. apply negb_true_iff in Hne.
      apply String.eqb_neq. exact Hne.
    + exists w. repeat split; assumption.
Qed.

Lemma findSimilar_result_shape_witness :
  findSimilar (ex_store [ex_ref100; ex_66; ex_67]) "ref.json" (js_literal (7 # 10))
  = Return ex_similar_result
  /\ (getWorkflowByFilename (ex_store [ex_ref100; ex_66; ex_67]) "ref.json"
      = Some (reference_workflow ex_similar_result)
      /\ List.length (similar_workflows ex_similar_result)
         = Nat.min 20 (total_found ex_similar_result)
      /\ (total_found ex_similar_result
          <= List.length (candidates (ex_store [ex_ref100; ex_66; ex_67]) "ref.json"))%nat
      /\ (forall e, In e (similar_workflows ex_similar_result) ->
            sim_filename e <> "ref.json"
            /\ exists w, In w (workflows (ex_store [ex_ref100; ex_66; ex_67]))
                         /\ qualifies (reference_workflow ex_similar_result)
                              (js_literal (7 # 10)) w = true
                         /\ e = similar_entry (reference_workflow ex_similar_result) w)).
Proof.
  split; [ reflexivity | ].
  apply (@findSimilar_result_shape (ex_store [ex_ref100; ex_66; ex_67]) "ref.json"
           (js_literal (7 # 10)) ex_similar_result).
  reflexivity.
Defined.

Lemma fold_Set_add_all_present (l acc : list string) :
  (forall x, In x l -> In x acc) ->
  fold_left (fun s y => Set_add y s) l acc = acc.
Proof.
  induction l as [ | y l IH ]; intros H; cbn [fold_left]; [ reflexivity | ].
  unfold Set_add at 2.
  rewrite (proj2 (Set_has_In y acc) (H y (or_introl eq_refl))).
  apply IH. intros x Hx. apply H. right. exact Hx.
Qed.

Lemma fold_Set_add_fresh (l : list string) :
  forall acc,
    NoDup (acc ++ l) ->
    fold_left (fun s y => Set_add y s) l acc = (acc ++ l)%list.
Proof.
  induction l as [ | y l IH ]; intros acc H; cbn [fold_left].
  - rewrite app_nil_r. reflexivity.
  - assert (Hy : Set_has y acc = false).
    { destruct (Set_has y acc) eqn:E; [ | reflexivity ].
      apply Set_has_In in E. apply NoDup_remove_2 in H.
      exfalso. apply H. apply in_or_app. left. exact E. }
    unfold Set_add. rewrite Hy. rewrite IH.
    + rewrite <- app_assoc. reflexivity.
    + rewrite <- app_assoc. exact H.
Qed.

(** The union with a list of the same elements is the list itself. *)
Lemma Set_of_same_elements (a b : list string) :
  NoDup a -> (forall x, In x b -> In x a) -> Set_of (a ++ b) = a.
Proof.
  intros Hnd Hsub. unfold Set_of. rewrite fold_left_app.
  rewrite (fold_Set_add_fresh a [] Hnd). cbn [app].
  apply fold_Set_add_all_present. exact Hsub.
Qed.

Lemma shared_everything (a b : list string) :
  (forall x, In x a -> In x b) -> shared a b = a.
Proof.
  intros H. unfold shared. induction a as [ | x a IH ]; cbn [filter]; [ reflexivity | ].
  rewrite (proj2 (Set_has_In x b) (H x (or_introl eq_refl))).
  rewrite IH; [ reflexivity | ]. intros y Hy. apply H. right. exact Hy.
Qed.

Lemma quotient_of_itself (n : nat) :
  (0 < n)%nat -> (Z.of_nat n < 2 ^ 53)%Z -> js_div (of_nat n) (of_nat n) = Num 1.
Proof.
  intros Hpos Hn. rewrite of_nat_exact by exact Hn. cbn [js_div].
  rewrite positive_not_zero by lia.
  assert (H1 : inject_Z (Z.of_nat n) / inject_Z (Z.of_nat n) == 1).
  { apply Qmult_inv_r. intros H0. unfold Qeq in H0. cbn in H0. lia. }
  rewrite (js_round_comp _ _ H1). reflexivity.
Qed.

Lemma nodeCountSimilarity_same (n : nat) :
  (0 < n)%nat -> (Z.of_nat n < 2 ^ 53)%Z -> nodeCountSimilarity n n = Num 1.
Proof.
  intros Hpos Hn. unfold nodeCountSimilarity, nodeDiff.
  rewrite of_nat_exact by exact Hn.
  set (x := inject_Z (Z.of_nat n)).
  assert (Hd : js_sub (Num x) (Num x) = Num 0).
  { unfold js_sub. cbn [js_neg js_add].
    assert (Hz : x + - x == 0) by ring.
    rewrite (js_round_comp _ _ Hz). reflexivity. }
  rewrite Hd. cbn [Math_abs]. change (Qabs 0) with 0.
  assert (Hmax : Math_max (Num x) (Num x) = Num x).
  { unfold Math_max. cbn [js_ge]. destruct (Qle_bool x x); reflexivity. }
  rewrite Hmax. cbn [js_div]. unfold x. rewrite positive_not_zero by lia.
  assert (Hz : 0 / inject_Z (Z.of_nat n) == 0).
  { unfold Qdiv. apply Qmult_0_l. }
  rewrite (js_round_comp _ _ Hz). reflexivity.
Qed.

(** X17.  A candidate with the profile of the reference (the same
    integrations in any order, the same positive node count, the same
    trigger type) scores exactly 1 when the reference has integrations,
    and only 0.5 when it has none: two documents without integrations
    are never more than half similar.  The reference is in range: a
    node count below 2^53 and fewer than 2^32 integrations. *)
Theorem identical_profile_scores_one (reference w : workflow_row) :
  NoDup (integrations reference) ->
  (forall x, In x (integrations w) <-> In x (integrations reference)) ->
  node_count w = node_count reference ->
  (0 < node_count reference)%nat ->
  trigger_type w = trigger_type reference ->
  in_range reference ->
  exists q,
    similarity reference w = Num q
    /\ q == match integrations reference with
            | [] => 1 # 2
            | _ :: _ => 1
            end.
Proof.
  intros Hnd Hsame Hcount Hpos Htrig [Hr1 Hr2]. unfold similarity.
  rewrite Hcount, (nodeCountSimilarity_same Hpos Hr1).
  unfold triggerSimilarity. rewrite Htrig, String.eqb_refl.
  unfold integrationSimilarity.
  rewrite (Set_of_same_elements (integrations w) Hnd)
    by (intros x Hx; apply Hsame; exact Hx).
  rewrite shared_everything by (intros x Hx; apply Hsame; exact Hx).
  destruct (integrations reference) as [ | i l ] eqn:E.
  - cbn [List.length Nat.ltb Nat.leb]. eexists. split; [ vm_compute; reflexivity | ].
    reflexivity.
  - change (0 <? List.length (i :: l))%nat with true. cbv iota.
    rewrite quotient_of_itself; [ | cbn [List.length]; lia | ].
    + eexists. split; [ vm_compute; reflexivity | ]. reflexivity.
    + assert (H32 : (2 ^ 32 < 2 ^ 53)%Z) by reflexivity. lia.
Qed.

Lemma identical_profile_scores_one_witness :
  (NoDup (integrations ex_ref100)
   /\ (forall x, In x (integrations ex_twin) <-> In x (integrations ex_ref100))
   /\ node_count ex_twin = node_count ex_ref100
   /\ (0 < node_count ex_ref100)%nat
   /\ trigger_type ex_twin = trigger_type ex_ref100
   /\ in_range ex_ref100)
  /\ exists q,
       similarity ex_ref100 ex_twin = Num q
       /\ q == match integrations ex_ref100 with
               | [] => 1 # 2
               | _ :: _ => 1
               end.
Proof.
  assert (H1 : NoDup (integrations ex_ref100)).
  { cbn. solve_NoDup. }
  assert (H2 : forall x, In x (integrations ex_twin) <-> In x (integrations ex_ref100)).
  { intros x. reflexivity. }
  assert (H4 : (0 < node_count ex_ref100)%nat).
  { cbn. lia. }
  assert (H5 : in_range ex_ref100).
  { split; reflexivity. }
  split; [ repeat split; try assumption; try apply H2; try apply H5 | ].
  apply (@identical_profile_scores_one ex_ref100 ex_twin H1 H2 eq_refl H4 eq_refl H5).
Defined.

(** ** The diagram identifiers *)

Lemma strip_leading_all (p : ascii -> bool) (s : string) :
  JsString.all_chars p s = true -> JsString.all_chars p (strip_leading s) = true.
Proof.
  induction s as [ | c s IH ]; cbn [strip_leading JsString.all_chars]; [ reflexivity | ].
  intros H. apply andb_true_iff in H. destruct H as [Hc Hs].
  destruct (Ascii.eqb c underscore); [ exact (IH Hs) | ].
  cbn [JsString.all_chars]. rewrite Hc. exact Hs.
Qed.

Lemma strip_trailing_cons (c : ascii) (s : string) :
  Ascii.eqb c underscore = false ->
  strip_trailing (String c s) = String c (strip_trailing s).
Proof.
  intros H. cbn [strip_trailing]. rewrite H.
  destruct (strip_trailing s); reflexivity.
Qed.

Lemma strip_trailing_all (p : ascii -> bool) (s : string) :
  JsString.all_chars p s = true -> JsString.all_chars p (strip_trailing s) = true.
Proof.
  induction s as [ | c s IH ]; cbn [strip_trailing JsString.all_chars]; [ reflexivity | ].
  intros H. apply andb_true_iff in H. destruct H as [Hc Hs]. specialize (IH Hs).
  destruct (strip_trailing s) as [ | c' t ].
  - destruct (Ascii.eqb c underscore); cbn [JsString.all_chars]; [ reflexivity | ].
    rewrite Hc. reflexivity.
  - cbn [JsString.all_chars] in *. rewrite Hc. exact IH.
Qed.

Lemma strip_trailing_no_trailing (s : string) :
  JsString.endsWith (strip_trailing s) "_" = false.
Proof.
  induction s as [ | c s IH ]; [ reflexivity | ].
  cbn [strip_trailing].
  destruct (strip_trailing s) as [ | c' t ] eqn:E.
  - destruct (Ascii.eqb c underscore) eqn:Ec; [ reflexivity | ].
    cbn [JsString.endsWith String.eqb]. change "_"%char with underscore.
    rewrite Ec. reflexivity.
  - cbn [JsString.endsWith]. 
    replace (String.eqb (String c (String c' t)) "_") with false.
    + exact IH.
    + cbn [String.eqb]. destruct (Ascii.eqb c "_"); reflexivity.
Qed.

Lemma strip_trailing_idempotent (s : string) :
  strip_trailing (strip_trailing s) = strip_trailing s.
Proof.
  induction s as [ | c s IH ]; [ reflexivity | ].
  cbn [strip_trailing].
  destruct (strip_trailing s) as [ | c' t ] eqn:E.
  - destruct (Ascii.eqb c underscore) eqn:Ec; [ reflexivity | ].
    cbn [strip_trailing]. rewrite Ec. reflexivity.
  - cbn [strip_trailing]. cbn [strip_trailing] in IH.
    rewrite IH. reflexivity.
Qed.

(** The text after the leading underscores are gone: empty, or a first
    character that is no underscore. *)
Lemma strip_leading_head (s : string) :
  strip_leading s = EmptyString
  \/ exists c t, strip_leading s = String c t /\ Ascii.eqb c underscore = false.
Proof.
  induction s as [ | c s IH ]; [ left; reflexivity | ].
  cbn [strip_leading]. destruct (Ascii.eqb c underscore) eqn:Ec; [ exact IH | ].
  right. exists c, s. split; [ reflexivity | exact Ec ].
Qed.

Lemma strip_leading_empty (s : string) :
  strip_leading s = EmptyString
  <-> JsString.all_chars (fun c => Ascii.eqb c underscore) s = true.
Proof.
  induction s as [ | c s IH ]; cbn [strip_leading JsString.all_chars].
  - tauto.
  - destruct (Ascii.eqb c underscore); cbn [andb]; [ exact IH | ].
    split; discriminate.
Qed.

Lemma map_id_chars_fixed (s : string) :
  JsString.all_chars id_char s = true ->
  JsString.map_chars (fun c => if is_alnum c then c else underscore) s = s.
Proof.
  induction s as [ | c s IH ]; cbn [JsString.map_chars JsString.all_chars];
    [ reflexivity | ].
  intros H. apply andb_true_iff in H. destruct H as [Hc Hs]. rewrite (IH Hs).
  unfold id_char in Hc. destruct (is_alnum c); [ reflexivity | ].
  cbn [orb] in Hc. apply Ascii.eqb_eq in Hc. rewrite Hc. reflexivity.
Qed.

Lemma map_to_id_chars (s : string) :
  JsString.all_chars id_char
    (JsString.map_chars (fun c => if is_alnum c then c else underscore) s) = true.
Proof.
  induction s as [ | c s IH ]; cbn [JsString.map_chars JsString.all_chars];
    [ reflexivity | ].
  rewrite IH, andb_true_r. unfold id_char.
  destruct (is_alnum c) eqn:E; [ rewrite E; reflexivity | ].
  apply orb_true_r.
Qed.

Lemma map_all_underscores (s : string) :
  JsString.all_chars (fun c => Ascii.eqb c underscore)
    (JsString.map_chars (fun c => if is_alnum c then c else underscore) s) = true
  <-> JsString.all_chars (fun c => negb (is_alnum c)) s = true.
Proof.
  induction s as [ | c s IH ]; cbn [JsString.map_chars JsString.all_chars];
    [ tauto | ].
  rewrite !andb_true_iff, IH.
  destruct (is_alnum c) eqn:E; cbn [negb].
  - assert (Hc : Ascii.eqb c underscore = false).
    { destruct (Ascii.eqb c underscore) eqn:Ec; [ | reflexivity ].
      apply Ascii.eqb_eq in Ec. subst c. discriminate E. }
    rewrite Hc. intuition discriminate.
  - rewrite Ascii.eqb_refl. tauto.
Qed.

(** X18.  A diagram identifier is made of ASCII letters, digits and
    underscores only, neither starts nor ends with an underscore, and
    is a fixed point: sanitising an identifier again changes nothing. *)
Theorem sanitizeNodeId_is_a_clean_identifier (nodeName : string) :
  JsString.all_chars id_char (sanitizeNodeId nodeName) = true
  /\ JsString.startsWith (sanitizeNodeId nodeName) "_" = false
  /\ JsString.endsWith (sanitizeNodeId nodeName) "_" = false
  /\ sanitizeNodeId (sanitizeNodeId nodeName) = sanitizeNodeId nodeName.
Proof.
  unfold sanitizeNodeId.
  set (m := JsString.map_chars (fun c => if is_alnum c then c else underscore) nodeName).
  assert (Hm : JsString.all_chars id_char m = true) by apply map_to_id_chars.
  assert (Hall : JsString.all_chars id_char (strip_trailing (strip_leading m)) = true).
  { apply strip_trailing_all, strip_leading_all, Hm. }
  assert (Hhead : strip_trailing (strip_leading m) = EmptyString
                  \/ exists c t, strip_trailing (strip_leading m) = String c t
                                 /\ Ascii.eqb c underscore = false).
  { destruct (strip_leading_head m) as [ -> | (c & t & -> & Hc) ];
      [ left; reflexivity | ].
    right. exists c, (strip_trailing t). split; [ | exact Hc ].
    apply strip_trailing_cons. exact Hc. }
  split; [ exact Hall | ].
  split.
  { destruct Hhead as [ -> | (c & t & -> & Hc) ]; [ reflexivity | ].
    unfold JsString.startsWith. cbn [prefix].
    destruct (ascii_dec "_" c) as [ <- | _ ]; [ discriminate Hc | reflexivity ]. }
  split; [ apply strip_trailing_no_trailing | ].
  rewrite (map_id_chars_fixed _ Hall).
  replace (strip_leading (strip_trailing (strip_leading m)))
    with (strip_trailing (strip_leading m)).
  - apply strip_trailing_idempotent.
  - destruct Hhead as [ -> | (c & t & -> & Hc) ]; [ reflexivity | ].
    cbn [strip_leading]. rewrite Hc. reflexivity.
Qed.

(** X19.  The identifier is empty exactly when the name has no ASCII
    letter and no digit: such nodes all share the empty identifier. *)
Theorem sanitizeNodeId_empty_iff_no_alphanumeric (nodeName : string) :
  sanitizeNodeId nodeName = EmptyString
  <-> JsString.all_chars (fun c => negb (is_alnum c)) nodeName = true.
Proof.
  unfold sanitizeNodeId.
  rewrite <- map_all_underscores, <- strip_leading_empty.
  set (m := JsString.map_chars (fun c => if is_alnum c then c else underscore) nodeName).
  destruct (strip_leading_head m) as [ -> | (c & t & -> & Hc) ]; [ tauto | ].
  rewrite (@strip_trailing_cons c t Hc). split; discriminate.
Qed.

(** ** The full-text query builder *)

Lemma string_length_app (a b : string) :
  String.length (a ++ b) = (String.length a + String.length b)%nat.
Proof.
  induction a as [ | c a IH ]; cbn [append String.length plus]; congruence.
Qed.

Lemma string_app_assoc (a b c : string) : (a ++ b) ++ c = a ++ (b ++ c).
Proof.
  induction a as [ | x a IH ]; cbn [append]; congruence.
Qed.

Lemma string_app_nil_r (a : string) : a ++ "" = a.
Proof.
  induction a as [ | x a IH ]; cbn [append]; congruence.
Qed.

Lemma prefix_app (a b : string) : prefix a (a ++ b) = true.
Proof.
  induction a as [ | x a IH ]; cbn [append prefix].
  - destruct b; reflexivity.
  - destruct (ascii_dec x x) as [ _ | H ]; [ exact IH | congruence ].
Qed.

Lemma slice_app (a b : string) : JsString.slice (String.length a) (a ++ b) = b.
Proof.
  induction a as [ | x a IH ]; cbn [append String.length JsString.slice].
  - destruct b; reflexivity.
  - exact IH.
Qed.

Lemma prefix_split (p s : string) :
  prefix p s = true -> s = p ++ JsString.slice (String.length p) s.
Proof.
  revert s. induction p as [ | x p IH ]; intros s H.
  - cbn [append String.length JsString.slice]. destruct s; reflexivity.
  - destruct s as [ | y s ]; [ discriminate H | ].
    cbn [prefix] in H. destruct (ascii_dec x y) as [ <- | ]; [ | discriminate H ].
    cbn [append String.length JsString.slice]. f_equal. exact (IH s H).
Qed.

Lemma replace_at_prefix (pat rep s : string) :
  prefix pat s = true ->
  JsString.replace pat rep s = rep ++ JsString.slice (String.length pat) s.
Proof.
  intros H. destruct s; cbn [JsString.replace]; rewrite H; reflexivity.
Qed.

Lemma slice_all_chars (p : ascii -> bool) (n : nat) (s : string) :
  JsString.all_chars p s = true -> JsString.all_chars p (JsString.slice n s) = true.
Proof.
  revert s. induction n as [ | n IH ]; intros s H; [ destruct s; exact H | ].
  destruct s as [ | c s ]; [ reflexivity | ].
  cbn [JsString.slice]. apply IH.
  cbn [JsString.all_chars] in H. apply andb_true_iff in H. apply H.
Qed.

Lemma replace_all_chars (p : ascii -> bool) (pat rep s : string) :
  JsString.all_chars p rep = true ->
  JsString.all_chars p s = true ->
  JsString.all_chars p (JsString.replace pat rep s) = true.
Proof.
  intros Hrep. induction s as [ | c s IH ]; intros Hs.
  - cbn [JsString.replace]. destruct (prefix pat ""); [ | reflexivity ].
    rewrite all_chars_app, Hrep. apply slice_all_chars. reflexivity.
  - cbn [JsString.replace]. destruct (prefix pat (String c s)).
    + rewrite all_chars_app, Hrep. apply slice_all_chars. exact Hs.
    + cbn [JsString.all_chars] in *. apply andb_true_iff in Hs.
      destruct Hs as [Hc Hs]. rewrite Hc. exact (IH Hs).
Qed.

(** Replacing a text that occurs changes the length by the difference
    of the two lengths. *)
Lemma replace_length (pat rep s : string) :
  JsString.includes s pat = true ->
  (String.length (JsString.replace pat rep s) + String.length pat
   = String.length s + String.length rep)%nat.
Proof.
  induction s as [ | c s IH ]; intros H.
  - cbn [JsString.includes] in H. cbn [JsString.replace].
    destruct (prefix pat "") eqn:E; [ | discriminate H ].
    rewrite (prefix_split _ _ E) at 2.
    rewrite !string_length_app. lia.
  - cbn [JsString.includes] in H. cbn [JsString.replace].
    destruct (prefix pat (String c s)) eqn:E.
    + rewrite (prefix_split _ _ E) at 2.
      rewrite !string_length_app. lia.
    + cbn [String.length]. specialize (IH H). lia.
Qed.

Lemma span_unquoted_app (g rest : string) :
  JsString.all_chars not_dquote g = true ->
  span_unquoted (g ++ String dquote rest) = (g, String dquote rest).
Proof.
  induction g as [ | c g IH ]; intros H; [ reflexivity | ].
  cbn [JsString.all_chars] in H. apply andb_true_iff in H. destruct H as [Hc Hg].
  cbn [append span_unquoted]. unfold not_dquote in Hc.
  apply negb_true_iff in Hc. rewrite Hc, (IH Hg). reflexivity.
Qed.

Lemma span_unquoted_spec (s : string) :
  s = fst (span_unquoted s) ++ snd (span_unquoted s)
  /\ JsString.all_chars not_dquote (fst (span_unquoted s)) = true
  /\ (snd (span_unquoted s) = EmptyString
      \/ exists rest, snd (span_unquoted s) = String dquote rest).
Proof.
  induction s as [ | c s IH ]; [ cbn; tauto | ].
  cbn [span_unquoted]. destruct (is_dquote c) eqn:Ec.
  - cbn [fst snd append JsString.all_chars]. repeat split.
    right. apply Ascii.eqb_eq in Ec. subst c. exists s. reflexivity.
  - destruct (span_unquoted s) as [run rest]. cbn [fst snd] in *.
    destruct IH as (Hs & Hrun & Hrest).
    cbn [append JsString.all_chars]. unfold not_dquote at 1. rewrite Ec.
    repeat split; [ congruence | exact Hrun | exact Hrest ].
Qed.

(** A match covers the quoted group at the start of the text. *)
Lemma match_here_prefix (s group : string) :
  match_here s = Some group ->
  prefix (quoted group) s = true
  /\ group <> EmptyString
  /\ JsString.all_chars not_dquote group = true.
Proof.
  destruct s as [ | c s ]; [ discriminate | ].
  cbn [match_here]. destruct (is_dquote c) eqn:Ec; [ | discriminate ].
  apply Ascii.eqb_eq in Ec. subst c.
  destruct (span_unquoted_spec s) as (Hs & Hrun & Hrest).
  destruct (span_unquoted s) as [run rest]. cbn [fst snd] in *.
  destruct run as [ | b run ]; [ discriminate | ].
  destruct rest as [ | c rest ]; [ discriminate | ].
  intros H. injection H as <-.
  destruct Hrest as [ Hrest | (rest' & Hrest) ]; [ discriminate Hrest | ].
  injection Hrest as -> ->.
  repeat split; [ | discriminate | exact Hrun ].
  rewrite Hs. unfold quoted.
  change (String dquote (String b run ++ String dquote rest'))
    with (String dquote "" ++ (String b run ++ String dquote "" ++ rest')).
  change (String dquote (String b run ++ String dquote ""))
    with (String dquote "" ++ (String b run ++ String dquote "")).
  rewrite <- (string_app_assoc (String b run) (String dquote "") rest').
  rewrite <- (string_app_assoc (String dquote "") _ rest').
  apply prefix_app.
Qed.

Lemma match_here_quoted (group rest : string) :
  group <> EmptyString ->
  JsString.all_chars not_dquote group = true ->
  match_here (quoted group ++ rest) = Some group.
Proof.
  intros Hne Hg. unfold quoted. cbn [append match_here].
  unfold is_dquote at 1. rewrite Ascii.eqb_refl.
  rewrite string_app_assoc. cbn [append].
  rewrite (@span_unquoted_app group rest Hg).
  destruct group; [ congruence | reflexivity ].
Qed.

Lemma includes_of_prefix (s pat : string) :
  prefix pat s = true -> JsString.includes s pat = true.
Proof.
  intros H. destruct s; cbn [JsString.includes]; rewrite H; reflexivity.
Qed.

Lemma exec_from_found (s : string) :
  forall pos lastIndex group e,
    exec_from s pos lastIndex = Some (group, e) ->
    JsString.includes s (quoted group) = true
    /\ group <> EmptyString
    /\ JsString.all_chars not_dquote group = true.
Proof.
  induction s as [ | c s IH ]; intros pos lastIndex group e H.
  - cbn [exec_from] in H. destruct (pos <? lastIndex)%nat; discriminate H.
  - cbn [exec_from] in H.
    destruct (if (pos <? lastIndex)%nat then None else match_here (String c s))
      as [ g | ] eqn:E.
    + injection H as -> _.
      destruct (pos <? lastIndex)%nat; [ discriminate E | ].
      destruct (@match_here_prefix _ _ E) as (Hp & Hne & Hg).
      split; [ apply includes_of_prefix; exact Hp | split; assumption ].
    + destruct (IH _ _ _ _ H) as (Hi & Hne & Hg).
      split; [ | split; assumption ].
      cbn [JsString.includes].
      rewrite Hi. destruct (prefix (quoted group) (String c s)); reflexivity.
Qed.

Lemma exec_from_unquoted (s : string) :
  forall pos lastIndex,
    JsString.all_chars not_dquote s = true -> exec_from s pos lastIndex = None.
Proof.
  induction s as [ | c s IH ]; intros pos lastIndex H.
  - cbn [exec_from match_here]. destruct (pos <? lastIndex)%nat; reflexivity.
  - cbn [JsString.all_chars] in H. apply andb_true_iff in H. destruct H as [Hc Hs].
    unfold not_dquote in Hc. apply negb_true_iff in Hc.
    cbn [exec_from match_here]. rewrite Hc.
    destruct (pos <? lastIndex)%nat; apply IH; exact Hs.
Qed.

(** Every round of the loop takes two characters or more off the text,
    so the rounds end before a bound of its length is used up: a larger
    bound gives the same result. *)
Lemma phrase_loop_bound (fuel : nat) :
  forall fuel' cleanQuery lastIndex phrases,
    (String.length cleanQuery <= fuel)%nat ->
    (String.length cleanQuery <= fuel')%nat ->
    phrase_loop fuel cleanQuery lastIndex phrases
    = phrase_loop fuel' cleanQuery lastIndex phrases.
Proof.
  induction fuel as [ | fuel IH ]; intros fuel' s li acc H H'.
  - destruct s; [ | cbn in H; lia ].
    destruct fuel'; [ reflexivity | ]. cbn [phrase_loop].
    rewrite (@exec_from_unquoted "" 0 li eq_refl). reflexivity.
  - cbn [phrase_loop]. destruct (exec_from s 0 li) as [ [group li'] | ] eqn:E.
    + destruct (@exec_from_found _ _ _ _ _ E) as (Hi & Hne & _).
      pose proof (@replace_length (quoted group) " " s Hi) as Hlen.
      assert (Hq : (3 <= String.length (quoted group))%nat).
      { unfold quoted. cbn [String.length]. rewrite string_length_app.
        destruct group; [ congruence | cbn [String.length]; lia ]. }
      cbn [String.length] in Hlen.
      destruct fuel' as [ | fuel' ]; [ lia | ].
      cbn [phrase_loop]. rewrite E. apply IH; lia.
    + destruct fuel'; cbn [phrase_loop]; [ | rewrite E ]; reflexivity.
Qed.

Lemma exec_from_hit (s group : string) :
  match_here s = Some group ->
  exec_from s 0 0 = Some (group, String.length (quoted group)).
Proof.
  intros H. destruct s; cbn [exec_from Nat.ltb Nat.leb]; rewrite H; reflexivity.
Qed.

Lemma exec_from_skip (c : ascii) (s : string) (pos lastIndex : nat) :
  (pos < lastIndex)%nat ->
  exec_from (String c s) pos lastIndex = exec_from s (S pos) lastIndex.
Proof.
  intros H. cbn [exec_from]. apply Nat.ltb_lt in H. rewrite H. reflexivity.
Qed.

(** No match starts inside or at the closing quote of a last phrase. *)
Lemma exec_from_closing_quote (p : string) :
  forall pos lastIndex,
    JsString.all_chars not_dquote p = true ->
    exec_from (p ++ String dquote "") pos lastIndex = None.
Proof.
  induction p as [ | c p IH ]; intros pos lastIndex H.
  - cbn [append exec_from match_here span_unquoted].
    destruct (is_dquote dquote); destruct (pos <? lastIndex)%nat;
      destruct (S pos <? lastIndex)%nat; reflexivity.
  - cbn [JsString.all_chars] in H. apply andb_true_iff in H. destruct H as [Hc Hp].
    unfold not_dquote in Hc. apply negb_true_iff in Hc.
    cbn [append exec_from match_here]. rewrite Hc.
    destruct (pos <? lastIndex)%nat; apply IH; exact Hp.
Qed.

Lemma phrase_loop_stop (fuel : nat) (s : string) (lastIndex : nat)
  (phrases : list string) :
  exec_from s 0 lastIndex = None ->
  phrase_loop fuel s lastIndex phrases = (s, phrases).
Proof.
  intros H. destruct fuel; cbn [phrase_loop]; [ | rewrite H ]; reflexivity.
Qed.

(** What the loop leaves: phrases are added at the end, each a quoted
    group; without a new phrase the text is untouched; the text keeps
    every property of characters that the blank has. *)
Lemma phrase_loop_spec (p : ascii -> bool) (fuel : nat) :
  forall s lastIndex phrases s' phrases',
    phrase_loop fuel s lastIndex phrases = (s', phrases') ->
    exists new,
      phrases' = app phrases new
      /\ Forall (fun phrase => exists group, phrase = quoted group) new
      /\ (new = [] -> s' = s)
      /\ (p " "%char = true -> JsString.all_chars p s = true ->
          JsString.all_chars p s' = true).
Proof.
  induction fuel as [ | fuel IH ]; intros s li acc s' acc' H.
  - cbn [phrase_loop] in H. injection H as <- <-.
    exists []. rewrite app_nil_r. repeat split; auto.
  - cbn [phrase_loop] in H. destruct (exec_from s 0 li) as [ [group li'] | ] eqn:E.
    + destruct (IH _ _ _ _ _ H) as (new & Hacc & Hq & _ & Hall).
      exists (quoted group :: new). rewrite Hacc, <- app_assoc.
      repeat split.
      * constructor; [ exists group; reflexivity | exact Hq ].
      * discriminate.
      * intros Hsp Hs. apply Hall; [ exact Hsp | ].
        apply replace_all_chars; [ | exact Hs ].
        cbn [JsString.all_chars]. rewrite Hsp. reflexivity.
    + injection H as <- <-.
      exists []. rewrite app_nil_r. repeat split; auto.
Qed.

Lemma trimStart_head (s : string) :
  JsString.trimStart s = EmptyString
  \/ exists c t, JsString.trimStart s = String c t /\ JsString.is_space c = false.
Proof.
  induction s as [ | c s IH ]; [ left; reflexivity | ].
  cbn [JsString.trimStart]. destruct (JsString.is_space c) eqn:Ec; [ exact IH | ].
  right. exists c, s. split; [ reflexivity | exact Ec ].
Qed.

Lemma trimStart_blank (s : string) :
  JsString.trimStart s = EmptyString
  <-> JsString.all_chars JsString.is_space s = true.
Proof.
  induction s as [ | c s IH ]; cbn [JsString.trimStart JsString.all_chars].
  - tauto.
  - destruct (JsString.is_space c); cbn [andb]; [ exact IH | ].
    split; discriminate.
Qed.

Lemma trimEnd_cons (c : ascii) (s : string) :
  JsString.is_space c = false ->
  JsString.trimEnd (String c s) = String c (JsString.trimEnd s).
Proof.
  intros H. cbn [JsString.trimEnd]. rewrite H.
  destruct (JsString.trimEnd s); reflexivity.
Qed.

Lemma trimStart_all (p : ascii -> bool) (s : string) :
  JsString.all_chars p s = true ->
  JsString.all_chars p (JsString.trimStart s) = true.
Proof.
  induction s as [ | c s IH ]; cbn [JsString.trimStart JsString.all_chars];
    [ reflexivity | ].
  intros H. apply andb_true_iff in H. destruct H as [Hc Hs].
  destruct (JsString.is_space c); [ exact (IH Hs) | ].
  cbn [JsString.all_chars]. rewrite Hc. exact Hs.
Qed.

Lemma trimEnd_all (p : ascii -> bool) (s : string) :
  JsString.all_chars p s = true ->
  JsString.all_chars p (JsString.trimEnd s) = true.
Proof.
  induction s as [ | c s IH ]; cbn [JsString.trimEnd JsString.all_chars];
    [ reflexivity | ].
  intros H. apply andb_true_iff in H. destruct H as [Hc Hs]. specialize (IH Hs).
  destruct (JsString.trimEnd s) as [ | c' t ].
  - destruct (JsString.is_space c); cbn [JsString.all_chars]; [ reflexivity | ].
    rewrite Hc. reflexivity.
  - cbn [JsString.all_chars] in *. rewrite Hc. exact IH.
Qed.

(** A trimmed text is empty or starts with a character that is no
    white space. *)
Lemma trim_head (s : string) :
  JsString.trim s = EmptyString
  \/ exists c t, JsString.trim s = String c t /\ JsString.is_space c = false.
Proof.
  unfold JsString.trim.
  destruct (trimStart_head s) as [ -> | (c & t & -> & Hc) ]; [ left; reflexivity | ].
  right. exists c, (JsString.trimEnd t). split; [ | exact Hc ].
  apply trimEnd_cons. exact Hc.
Qed.

Lemma trim_blank (s : string) :
  JsString.trim s = EmptyString <-> JsString.all_chars JsString.is_space s = true.
Proof.
  rewrite <- trimStart_blank. unfold JsString.trim.
  destruct (trimStart_head s) as [ -> | (c & t & -> & Hc) ]; [ tauto | ].
  rewrite (@trimEnd_cons c t Hc). split; discriminate.
Qed.

Lemma trimEnd_unspaced (s : string) :
  JsString.all_chars not_space s = true -> JsString.trimEnd s = s.
Proof.
  induction s as [ | c s IH ]; [ reflexivity | ].
  cbn [JsString.all_chars]. intros H. apply andb_true_iff in H. destruct H as [Hc Hs].
  unfold not_space in Hc. apply negb_true_iff in Hc.
  rewrite (@trimEnd_cons c s Hc), (IH Hs). reflexivity.
Qed.

Lemma trimEnd_app_fixed (a s : string) :
  s <> EmptyString -> JsString.trimEnd s = s ->
  JsString.trimEnd (a ++ s) = a ++ s.
Proof.
  intros Hne Hs. induction a as [ | x a IH ]; [ exact Hs | ].
  cbn [append JsString.trimEnd]. rewrite IH.
  destruct (a ++ s) eqn:E; [ | reflexivity ].
  destruct a; [ cbn [append] in E; congruence | discriminate E ].
Qed.

Lemma split_spaces_all (p : ascii -> bool) (s : string) :
  JsString.all_chars p s = true ->
  Forall (fun term => JsString.all_chars p term = true) (split_spaces s).
Proof.
  induction s as [ | c s IH ]; intros H.
  - repeat constructor.
  - cbn [JsString.all_chars] in H. apply andb_true_iff in H. destruct H as [Hc Hs].
    specialize (IH Hs). cbn [split_spaces].
    destruct (JsString.is_space c).
    + destruct s as [ | c' s' ]; [ repeat constructor | ].
      destruct (JsString.is_space c'); [ exact IH | ].
      constructor; [ reflexivity | exact IH ].
    + destruct (split_spaces s) as [ | h t ].
      * repeat constructor. cbn [JsString.all_chars]. rewrite Hc. reflexivity.
      * inversion IH as [ | ? ? Hh Ht ]; subst.
        constructor; [ | exact Ht ].
        cbn [JsString.all_chars]. rewrite Hc. exact Hh.
Qed.

Lemma split_spaces_head (c : ascii) (s : string) :
  JsString.is_space c = false ->
  exists h t, split_spaces (String c s) = String c h :: t.
Proof.
  intros H. cbn [split_spaces]. rewrite H.
  destruct (split_spaces s) as [ | h t ]; eauto.
Qed.

Lemma split_spaces_word (w : string) :
  JsString.all_chars not_space w = true -> split_spaces w = [w].
Proof.
  induction w as [ | c w IH ]; [ reflexivity | ].
  cbn [JsString.all_chars]. intros H. apply andb_true_iff in H. destruct H as [Hc Hw].
  unfold not_space in Hc. apply negb_true_iff in Hc.
  cbn [split_spaces]. rewrite Hc, (IH Hw). reflexivity.
Qed.

Lemma split_spaces_word_blank (w : string) (d : ascii) (rest : string) :
  JsString.all_chars not_space w = true ->
  JsString.is_space d = false ->
  split_spaces (w ++ String " " (String d rest)) = w :: split_spaces (String d rest).
Proof.
  intros Hw Hd. induction w as [ | c w IH ].
  - cbn [append]. cbn [split_spaces]. 
    change (JsString.is_space " ") with true. cbn iota. rewrite Hd.
    reflexivity.
  - cbn [JsString.all_chars] in Hw. apply andb_true_iff in Hw. destruct Hw as [Hc Hw].
    unfold not_space in Hc. apply negb_true_iff in Hc.
    cbn [append]. 
    change (split_spaces (String c (w ++ String " " (String d rest))))
      with (if JsString.is_space c then
              match (w ++ String " " (String d rest)) with
              | String c' _ =>
                  if JsString.is_space c'
                  then split_spaces (w ++ String " " (String d rest))
                  else EmptyString :: split_spaces (w ++ String " " (String d rest))
              | EmptyString =>
                  EmptyString :: split_spaces (w ++ String " " (String d rest))
              end
            else
              match split_spaces (w ++ String " " (String d rest)) with
              | [] => [String c EmptyString]
              | h :: t => String c h :: t
              end).
    rewrite Hc, (IH Hw). reflexivity.
Qed.

Lemma quoted_proper (group : string) : proper_term (quoted group).
Proof.
  unfold proper_term, quoted. split; [ discriminate | ].
  intros H. injection H as H _. vm_compute in H. discriminate H.
Qed.

Lemma add_wildcard_proper (term : string) :
  term <> EmptyString ->
  JsString.all_chars fts_kept term = true ->
  proper_term (add_wildcard term).
Proof.
  intros Hne Hk. unfold proper_term, add_wildcard.
  destruct (2 <=? String.length term)%nat eqn:E.
  - apply Nat.leb_le in E. split; intros H.
    + apply (f_equal String.length) in H. rewrite string_length_app in H.
      cbn [String.length] in H. lia.
    + apply (f_equal String.length) in H. rewrite string_length_app in H.
      cbn [String.length] in H. lia.
  - split; [ exact Hne | ]. intros ->. vm_compute in Hk. discriminate Hk.
Qed.

Lemma join_proper (l : list string) :
  l <> [] -> Forall proper_term l -> proper_term (JsString.join " AND " l).
Proof.
  intros Hne Hl. unfold JsString.join.
  destruct l as [ | x [ | y l ] ]; [ congruence | | ].
  - inversion Hl; assumption.
  - unfold proper_term.
    assert (H : (5 <= String.length (String.concat " AND " (x :: y :: l)))%nat).
    { cbn [String.concat]. rewrite !string_length_app. cbn [String.length]. lia. }
    split; intros E; rewrite E in H; cbn [String.length] in H; lia.
Qed.

Lemma clean_is_kept (query : string) :
  JsString.all_chars fts_kept
    (JsString.map_chars (fun c => if fts_kept c then c else " "%char) query) = true.
Proof.
  induction query as [ | c s IH ]; cbn [JsString.map_chars JsString.all_chars];
    [ reflexivity | ].
  rewrite IH, andb_true_r. destruct (fts_kept c) eqn:E; [ exact E | reflexivity ].
Qed.

Lemma clean_of_kept (s : string) :
  JsString.all_chars fts_kept s = true ->
  JsString.map_chars (fun c => if fts_kept c then c else " "%char) s = s.
Proof.
  induction s as [ | c s IH ]; cbn [JsString.map_chars JsString.all_chars];
    [ reflexivity | ].
  intros H. apply andb_true_iff in H. destruct H as [Hc Hs].
  rewrite Hc, (IH Hs). reflexivity.
Qed.

Lemma clean_blank (query : string) :
  JsString.all_chars JsString.is_space
    (JsString.map_chars (fun c => if fts_kept c then c else " "%char) query) = true
  <-> JsString.all_chars blank_char query = true.
Proof.
  induction query as [ | c s IH ]; cbn [JsString.map_chars JsString.all_chars];
    [ tauto | ].
  rewrite !andb_true_iff, IH.
  change (blank_char c) with (JsString.is_space c || negb (fts_kept c)).
  destruct (fts_kept c); cbn [negb]; [ rewrite orb_false_r; tauto | ].
  rewrite orb_true_r. change (JsString.is_space " ") with true. tauto.
Qed.

Lemma all_chars_weaken (p q : ascii -> bool) (s : string) :
  (forall c, p c = true -> q c = true) ->
  JsString.all_chars p s = true -> JsString.all_chars q s = true.
Proof.
  intros Hpq. induction s as [ | c s IH ]; cbn [JsString.all_chars]; [ reflexivity | ].
  intros H. apply andb_true_iff in H. destruct H as [Hc Hs].
  rewrite (Hpq c Hc), (IH Hs). reflexivity.
Qed.

Lemma nonempty_terms_proper (s : string) :
  JsString.all_chars fts_kept s = true ->
  Forall proper_term
    (map add_wildcard
         (filter (fun term => (0 <? String.length term)%nat) (split_spaces s))).
Proof.
  intros H. apply Forall_forall. intros e He.
  apply in_map_iff in He. destruct He as (t & <- & Ht).
  apply filter_In in Ht. destruct Ht as [Ht Hlen].
  apply add_wildcard_proper.
  - intros ->. discriminate Hlen.
  - exact (proj1 (Forall_forall _ _) (split_spaces_all fts_kept s H) t Ht).
Qed.

(** X20.  [buildFTSQuery] answers the bare wildcard exactly for a
    request without anything to search for (white space and characters
    the builder blanks out), and never an empty query: the second
    [return '*'] of the function is never reached. *)
Theorem buildFTSQuery_wildcard_iff_blank (query : string) :
  (buildFTSQuery query = "*" <-> JsString.all_chars blank_char query = true)
  /\ buildFTSQuery query <> EmptyString.
Proof.
  unfold buildFTSQuery.
  set (clean := JsString.trim
                  (JsString.map_chars (fun c => if fts_kept c then c else " "%char)
                                      query)).
  assert (Hblank : clean = EmptyString <-> JsString.all_chars blank_char query = true).
  { unfold clean. rewrite trim_blank. apply clean_blank. }
  assert (Hkept : JsString.all_chars fts_kept clean = true).
  { unfold clean, JsString.trim. apply trimEnd_all, trimStart_all, clean_is_kept. }
  destruct (String.eqb clean "") eqn:E.
  - apply String.eqb_eq in E. split; [ | discriminate ].
    split; intros _; [ apply Hblank; exact E | reflexivity ].
  - apply String.eqb_neq in E.
    destruct (phrase_loop (String.length clean) clean 0 []) as [cq phrases] eqn:EL.
    destruct (@phrase_loop_spec fts_kept _ _ _ _ _ _ EL)
      as (new & Hacc & Hq & Hsame & Hall).
    cbn [app] in Hacc. subst phrases.
    set (terms := map add_wildcard
                      (filter (fun term => (0 <? String.length term)%nat)
                              (split_spaces cq))).
    assert (Hgood : Forall proper_term (new ++ terms)%list).
    { apply Forall_app. split.
      - apply Forall_forall. intros e He.
        destruct (proj1 (Forall_forall _ _) Hq e He) as (g & ->).
        apply quoted_proper.
      - apply nonempty_terms_proper. apply Hall; [ reflexivity | exact Hkept ]. }
    assert (Hne : (new ++ terms)%list <> []).
    { destruct new as [ | ph new ]; [ | discriminate ].
      cbn [app]. unfold terms. rewrite (Hsame eq_refl).
      destruct (trim_head
                  (JsString.map_chars (fun c => if fts_kept c then c else " "%char)
                                      query))
        as [ H0 | (c & t & Hct & Hc) ]; [ contradiction | ].
      fold clean in Hct. rewrite Hct.
      destruct (@split_spaces_head c t Hc) as (h & tl & ->).
      cbn [filter String.length Nat.ltb Nat.leb map]. discriminate. }
    destruct (@join_proper _ Hne Hgood) as [Hj1 Hj2].
    destruct (new ++ terms)%list as [ | e l ] eqn:El; [ congruence | ].
    cbn [List.length Nat.eqb].
    split; [ | exact Hj1 ].
    split; intros H; [ contradiction | ].
    exfalso. apply E, Hblank, H.
Qed.

(** X21.  The rounds of the phrase loop end before a bound as large as
    the text is used up: with any larger bound the loop gives the same
    text and the same phrases. *)
Theorem phrase_loop_ends_within_the_length (fuel : nat) (cleanQuery : string)
  (lastIndex : nat) (phrases : list string) :
  (String.length cleanQuery <= fuel)%nat ->
  phrase_loop fuel cleanQuery lastIndex phrases
  = phrase_loop (String.length cleanQuery) cleanQuery lastIndex phrases.
Proof.
  intros H. symmetry. apply phrase_loop_bound; [ apply Nat.le_refl | exact H ].
Qed.

Lemma phrase_loop_ends_within_the_length_witness :
  (String.length (quoted "a b" ++ " ccccc " ++ quoted "d") <= 40)%nat
  /\ phrase_loop 40 (quoted "a b" ++ " ccccc " ++ quoted "d") 0 []
     = phrase_loop (String.length (quoted "a b" ++ " ccccc " ++ quoted "d"))
         (quoted "a b" ++ " ccccc " ++ quoted "d") 0 []
  /\ phrase_loop 40 (quoted "a b" ++ " ccccc " ++ quoted "d") 0 []
     = ("  ccccc  ", [quoted "a b"; quoted "d"]).
Proof.
  assert (H : (String.length (quoted "a b" ++ " ccccc " ++ quoted "d") <= 40)%nat).
  { apply Nat.leb_le. vm_compute. reflexivity. }
  split; [ exact H | ].
  split; [ | vm_compute; reflexivity ].
  exact (@phrase_loop_ends_within_the_length 40
           (quoted "a b" ++ " ccccc " ++ quoted "d") 0 [] H).
Defined.

Lemma words_joined (ws : list string) :
  ws <> [] ->
  Forall (fun w => w <> EmptyString /\ JsString.all_chars term_char w = true) ws ->
  split_spaces (String.concat " " ws) = ws
  /\ JsString.trimEnd (String.concat " " ws) = String.concat " " ws
  /\ exists c t, String.concat " " ws = String c t /\ JsString.is_space c = false.
Proof.
  assert (Hns : forall w, JsString.all_chars term_char w = true ->
                          JsString.all_chars not_space w = true).
  { intros w. apply all_chars_weaken. intros c Hc. unfold term_char in Hc.
    apply andb_true_iff in Hc. destruct Hc as [Hc _].
    apply andb_true_iff in Hc. apply Hc. }
  induction ws as [ | w ws IH ]; intros Hne Hws; [ congruence | ].
  inversion Hws as [ | ? ? [Hw Hchars] Hrest ]; subst.
  pose proof (Hns _ Hchars) as Hsp.
  assert (Hhead : exists c t, w = String c t /\ JsString.is_space c = false).
  { destruct w as [ | c t ]; [ congruence | ]. exists c, t. split; [ reflexivity | ].
    cbn [JsString.all_chars] in Hsp. apply andb_true_iff in Hsp.
    destruct Hsp as [Hc _]. unfold not_space in Hc. apply negb_true_iff in Hc.
    exact Hc. }
  destruct ws as [ | w2 ws ].
  - cbn [String.concat]. split; [ apply split_spaces_word; exact Hsp | ].
    split; [ apply trimEnd_unspaced; exact Hsp | exact Hhead ].
  - destruct (IH ltac:(discriminate) Hrest) as (Hsplit & Htrim & c2 & t2 & Hc2 & Hsp2).
    change (String.concat " " (w :: w2 :: ws))
      with (w ++ String " " (String.concat " " (w2 :: ws))).
    split; [ | split ].
    + rewrite Hc2. rewrite (@split_spaces_word_blank w c2 t2 Hsp Hsp2).
      rewrite <- Hc2, Hsplit. reflexivity.
    + change (w ++ String " " (String.concat " " (w2 :: ws)))
        with (w ++ (String " " "" ++ String.concat " " (w2 :: ws))).
      rewrite <- string_app_assoc.
      apply trimEnd_app_fixed; [ rewrite Hc2; discriminate | exact Htrim ].
    + destruct Hhead as (c & t & -> & Hc). cbn [append]. eauto.
Qed.

Lemma buildFTSQuery_of_words (ws : list string) :
  ws <> [] ->
  Forall (fun w => w <> EmptyString /\ JsString.all_chars term_char w = true) ws ->
  buildFTSQuery (String.concat " " ws) = String.concat " AND " (map add_wildcard ws).
Proof.
  intros Hne Hws.
  destruct (@words_joined ws Hne Hws) as (Hsplit & Htrim & c & t & Hct & Hc).
  assert (Hchars : forall p, p " "%char = true ->
                             (forall x, term_char x = true -> p x = true) ->
                             JsString.all_chars p (String.concat " " ws) = true).
  { intros p Hsp Hp. apply concat_all_chars.
    - cbn [JsString.all_chars]. rewrite Hsp. reflexivity.
    - apply Forall_forall. intros w Hw.
      destruct (proj1 (Forall_forall _ _) Hws w Hw) as [_ Hw'].
      exact (@all_chars_weaken term_char p w Hp Hw'). }
  assert (Hkept : JsString.all_chars fts_kept (String.concat " " ws) = true).
  { apply Hchars; [ reflexivity | ]. intros x Hx. unfold term_char in Hx.
    apply andb_true_iff in Hx. destruct Hx as [Hx _].
    apply andb_true_iff in Hx. apply Hx. }
  assert (Hunq : JsString.all_chars not_dquote (String.concat " " ws) = true).
  { apply Hchars; [ reflexivity | ]. intros x Hx. unfold term_char in Hx.
    apply andb_true_iff in Hx. apply Hx. }
  unfold buildFTSQuery. rewrite (clean_of_kept _ Hkept).
  assert (Htr : JsString.trim (String.concat " " ws) = String.concat " " ws).
  { unfold JsString.trim. rewrite Hct. cbn [JsString.trimStart]. rewrite Hc.
    rewrite <- Hct. exact Htrim. }
  rewrite Htr.
  assert (Hnonempty : String.eqb (String.concat " " ws) "" = false).
  { rewrite Hct. reflexivity. }
  rewrite Hnonempty.
  rewrite (@phrase_loop_stop _ _ 0 [] (@exec_from_unquoted _ 0 0 Hunq)).
  cbv beta iota zeta. rewrite Hsplit. cbn [app].
  assert (Hfilter : filter (fun term => (0 <? String.length term)%nat) ws = ws).
  { clear - Hws. induction Hws as [ | w ws [Hw _] _ IH ]; [ reflexivity | ].
    destruct w as [ | a w ]; [ congruence | ].
    change (String a w :: filter (fun term => (0 <? String.length term)%nat) ws
            = String a w :: ws).
    rewrite IH. reflexivity. }
  rewrite Hfilter.
  destruct ws as [ | w ws' ]; [ congruence | ]. reflexivity.
Qed.

(** X22.  A request of words separated by single blanks, none with a
    character the builder blanks out or a double quote, becomes the
    conjunction of its words, each word of two characters or more as a
    prefix term. *)
Theorem words_become_prefix_terms (ws : list string) :
  ws <> [] ->
  Forall (fun w => w <> EmptyString /\ JsString.all_chars term_char w = true) ws ->
  buildFTSQuery (String.concat " " ws) = String.concat " AND " (map add_wildcard ws).
Proof.
  exact (@buildFTSQuery_of_words ws).
Qed.

Lemma words_become_prefix_terms_witness :
  (["slack"; "bot"] <> []
   /\ Forall (fun w => w <> EmptyString /\ JsString.all_chars term_char w = true)
             ["slack"; "bot"])
  /\ buildFTSQuery (String.concat " " ["slack"; "bot"])
     = String.concat " AND " (map add_wildcard ["slack"; "bot"]).
Proof.
  assert (H1 : ["slack"; "bot"] <> []) by discriminate.
  assert (H2 : Forall (fun w => w <> EmptyString
                                /\ JsString.all_chars term_char w = true)
                      ["slack"; "bot"]).
  { repeat constructor; discriminate. }
  split; [ split; assumption | ].
  exact (@words_become_prefix_terms ["slack"; "bot"] H1 H2).
Defined.

(** X23.  Of two quoted phrases separated by one blank only the first
    is kept as a phrase: the search for the second starts behind its
    opening quote, because the expression keeps the end of the first
    match while the text has become shorter.  The second phrase is read
    as a term with its quotes and gets a wildcard. *)
Theorem second_phrase_is_not_extracted (first second : string) :
  first <> EmptyString ->
  JsString.all_chars (fun c => fts_kept c && not_dquote c) first = true ->
  second <> EmptyString ->
  JsString.all_chars term_char second = true ->
  buildFTSQuery (quoted first ++ " " ++ quoted second)
  = quoted first ++ " AND " ++ quoted second ++ "*".
Proof.
  intros Hne1 Hch1 Hne2 Hch2.
  assert (Hk1 : JsString.all_chars fts_kept first = true).
  { revert Hch1. apply all_chars_weaken. intros c Hc.
    apply andb_true_iff in Hc. apply Hc. }
  assert (Hq1 : JsString.all_chars not_dquote first = true).
  { revert Hch1. apply all_chars_weaken. intros c Hc.
    apply andb_true_iff in Hc. apply Hc. }
  assert (Hk2 : JsString.all_chars fts_kept second = true).
  { revert Hch2. apply all_chars_weaken. intros c Hc. unfold term_char in Hc.
    apply andb_true_iff in Hc. destruct Hc as [Hc _].
    apply andb_true_iff in Hc. apply Hc. }
  assert (Hs2 : JsString.all_chars not_space second = true).
  { revert Hch2. apply all_chars_weaken. intros c Hc. unfold term_char in Hc.
    apply andb_true_iff in Hc. destruct Hc as [Hc _].
    apply andb_true_iff in Hc. apply Hc. }
  assert (Hq2 : JsString.all_chars not_dquote second = true).
  { revert Hch2. apply all_chars_weaken. intros c Hc. unfold term_char in Hc.
    apply andb_true_iff in Hc. apply Hc. }
  assert (Hquoted : forall p (g : string),
             p dquote = true -> JsString.all_chars p g = true ->
             JsString.all_chars p (quoted g) = true).
  { intros p g Hd Hg. unfold quoted. cbn [JsString.all_chars].
    rewrite Hd, all_chars_app, Hg. cbn [JsString.all_chars]. rewrite Hd. reflexivity. }
  set (s := quoted first ++ " " ++ quoted second).
  assert (Hkept : JsString.all_chars fts_kept s = true).
  { unfold s. rewrite !all_chars_app.
    rewrite (Hquoted fts_kept first eq_refl Hk1), (Hquoted fts_kept second eq_refl Hk2).
    reflexivity. }
  assert (Htrim : JsString.trim s = s).
  { unfold JsString.trim.
    assert (Hstart : JsString.trimStart s = s) by reflexivity.
    rewrite Hstart.
    assert (Hs : s = (quoted first ++ " " ++ String dquote second) ++ String dquote "").
    { unfold s, quoted. rewrite !string_app_assoc. cbn [append].
      rewrite !string_app_assoc. reflexivity. }
    rewrite Hs. apply trimEnd_app_fixed; [ discriminate | reflexivity ]. }
  unfold buildFTSQuery. rewrite (clean_of_kept _ Hkept), Htrim.
  assert (Hnonempty : String.eqb s "" = false) by reflexivity.
  rewrite Hnonempty.
  assert (Hlen : exists n, String.length s = S (S n)).
  { exists (String.length s - 2)%nat.
    assert (H2 : (2 <= String.length s)%nat).
    { unfold s. rewrite !string_length_app. unfold quoted. cbn [String.length]. lia. }
    lia. }
  destruct Hlen as (n & ->).
  assert (Hexec1 : exec_from s 0 0 = Some (first, String.length (quoted first))).
  { apply exec_from_hit. unfold s. apply match_here_quoted; assumption. }
  assert (Hrepl : JsString.replace (quoted first) " " s = "  " ++ quoted second).
  { unfold s. rewrite replace_at_prefix by apply prefix_app.
    rewrite slice_app. reflexivity. }
  assert (Hexec2 : exec_from ("  " ++ quoted second) 0 (String.length (quoted first))
                   = None).
  { assert (Hl : exists k, String.length (quoted first) = S (S (S k))).
    { exists (String.length first - 1)%nat.
      assert (H1 : (1 <= String.length first)%nat).
      { clear - Hne1. destruct first; [ congruence | cbn [String.length]; lia ]. }
      unfold quoted. cbn [String.length]. rewrite string_length_app.
      cbn [String.length]. lia. }
    destruct Hl as (k & ->). unfold quoted. cbn [append].
    rewrite !exec_from_skip by lia.
    apply exec_from_closing_quote. exact Hq2. }
  cbn [phrase_loop]. rewrite Hexec1, Hrepl, Hexec2. cbn [app].
  assert (Hterms : split_spaces ("  " ++ quoted second) = [EmptyString; quoted second]).
  { assert (Hw : split_spaces (quoted second) = [quoted second]).
    { apply split_spaces_word. apply Hquoted; [ reflexivity | exact Hs2 ]. }
    unfold quoted in *. cbn [append]. 
    change (split_spaces (String " " (String " " (String dquote (second ++ String dquote "")))))
      with (EmptyString :: split_spaces (String dquote (second ++ String dquote ""))).
    rewrite Hw. reflexivity. }
  rewrite Hterms.
  assert (Hwild : add_wildcard (quoted second) = quoted second ++ "*").
  { unfold add_wildcard, quoted. cbn [String.length]. rewrite string_length_app.
    cbn [String.length]. 
    replace (2 <=? S (String.length second + 1))%nat with true; [ reflexivity | ].
    symmetry. apply Nat.leb_le. lia. }
  assert (Hpos : (0 <? String.length (quoted second))%nat = true) by reflexivity.
  cbn [filter]. rewrite Hpos.
  change (0 <? String.length "")%nat with false. cbv iota.
  cbn [map]. rewrite Hwild. reflexivity.
Qed.

Lemma second_phrase_is_not_extracted_witness :
  ("error log" <> EmptyString
   /\ JsString.all_chars (fun c => fts_kept c && not_dquote c) "error log" = true
   /\ "slack" <> EmptyString
   /\ JsString.all_chars term_char "slack" = true)
  /\ buildFTSQuery (quoted "error log" ++ " " ++ quoted "slack")
     = quoted "error log" ++ " AND " ++ quoted "slack" ++ "*".
Proof.
  assert (H1 : "error log" <> EmptyString) by discriminate.
  assert (H3 : "slack" <> EmptyString) by discriminate.
  split; [ repeat split; assumption | ].
  exact (@second_phrase_is_not_extracted "error log" "slack" H1 eq_refl H3 eq_refl).
Defined.

Lemma trim_unspaced (s : string) :
  JsString.all_chars not_space s = true -> JsString.trim s = s.
Proof.
  intros H. unfold JsString.trim.
  assert (Hstart : JsString.trimStart s = s).
  { destruct s as [ | c s ]; [ reflexivity | ].
    cbn [JsString.all_chars] in H. apply andb_true_iff in H. destruct H as [Hc _].
    unfold not_space in Hc. apply negb_true_iff in Hc.
    cbn [JsString.trimStart]. rewrite Hc. reflexivity. }
  rewrite Hstart. apply trimEnd_unspaced. exact H.
Qed.

(** X24.  For a request of one word of two characters or more the
    search route answers with the builder of the code what it answers
    with the prefix query of the word: the text handed to the full-text
    engine is the word followed by a wildcard. *)
Theorem one_word_request_is_a_prefix_search
  (fts5 : string -> option (fts_row -> bool)) (self : WorkflowDatabase)
  (q trigger complexityFilter active_only : string) (page per_page : Z) :
  (2 <= String.length q)%nat ->
  JsString.all_chars term_char q = true ->
  buildFTSQuery q = q ++ "*"
  /\ api_workflows buildFTSQuery fts5 self q trigger complexityFilter active_only
       page per_page
     = api_workflows ex_buildFTSQuery fts5 self q trigger complexityFilter
         active_only page per_page.
Proof.
  intros Hlen Hq.
  assert (Hne : q <> EmptyString).
  { intros ->. cbn in Hlen. lia. }
  assert (Hb : buildFTSQuery q = q ++ "*").
  { change q with (String.concat " " [q]) at 1.
    rewrite buildFTSQuery_of_words.
    - cbn [map String.concat]. unfold add_wildcard.
      apply Nat.leb_le in Hlen. rewrite Hlen. reflexivity.
    - discriminate.
    - repeat constructor; assumption. }
  split; [ exact Hb | ].
  assert (Htrim : JsString.trim q = q).
  { apply trim_unspaced. revert Hq. apply all_chars_weaken.
    intros c Hc. unfold term_char in Hc. apply andb_true_iff in Hc.
    destruct Hc as [Hc _]. apply andb_true_iff in Hc. apply Hc. }
  unfold api_workflows, searchWorkflows. rewrite Htrim, Hb. reflexivity.
Qed.

Lemma one_word_request_is_a_prefix_search_witness :
  ((2 <= String.length "slack")%nat
   /\ JsString.all_chars term_char "slack" = true)
  /\ (buildFTSQuery "slack" = "slack" ++ "*"
      /\ api_workflows buildFTSQuery ex_fts5 ex_indexed "slack" "all" "all" "false" 1 20
         = api_workflows ex_buildFTSQuery ex_fts5 ex_indexed "slack" "all" "all"
             "false" 1 20).
Proof.
  assert (H1 : (2 <= String.length "slack")%nat) by (cbn; lia).
  split; [ split; [ exact H1 | reflexivity ] | ].
  exact (@one_word_request_is_a_prefix_search ex_fts5 ex_indexed "slack" "all" "all"
           "false" 1 20 H1 eq_refl).
Defined.

(** ** The listings of the HTTP server *)


Lemma listing_page_In (d : sqlite) (w : workflow_row) :
  In w (listing_page d) -> In w (workflows d).
Proof.
  unfold listing_page. intros H. apply (proj1 (order_by_name_In _ _)).
  rewrite <- (firstn_skipn 1000 (order_by_name (workflows d))).
  apply in_or_app. left. exact H.
Qed.


















Lemma categories_keys_distinct : NoDup (map fst categories).
Proof. cbn. solve_NoDup. Qed.






(** ** The trigger type of the MCP server *)

Lemma is_trigger_node_typed (ty : option string) :
  typed ty -> is_trigger_node ty = Return (trigger_like ty).
Proof.
  destruct ty as [ s | ]; [ intros _ | intros H; exfalso; apply H; reflexivity ].
  unfold is_trigger_node, trigger_like. cbn [type_includes bind].
  destruct (JsString.includes s "trigger"); [ reflexivity | ].
  destruct (JsString.includes s "Trigger"); reflexivity.
Qed.

Lemma Array_filter_typed (nodes : list (option string)) :
  Forall typed nodes ->
  Array_filter is_trigger_node nodes = Return (filter trigger_like nodes).
Proof.
  induction 1 as [ | ty nodes Hty _ IH ]; [ reflexivity | ].
  cbn [Array_filter filter]. rewrite (is_trigger_node_typed Hty), IH.
  cbn [bind]. destruct (trigger_like ty); reflexivity.
Qed.

Lemma Array_filter_untyped (nodes : list (option string)) :
  In None nodes ->
  Array_filter is_trigger_node nodes
  = Throw "TypeError: Cannot read properties of undefined (reading 'includes')".
Proof.
  induction nodes as [ | ty nodes IH ]; intros H; [ contradiction | ].
  cbn [Array_filter]. destruct ty as [ s | ]; [ | reflexivity ].
  destruct H as [ H | H ]; [ discriminate H | ].
  rewrite (@is_trigger_node_typed (Some s)) by discriminate.
  cbn [bind]. rewrite (IH H). reflexivity.
Qed.

(** X27.  On nodes that all have a type the MCP server answers one of
    Manual, Complex, Webhook, Scheduled and Triggered; Complex exactly
    when two nodes or more look like a trigger, and Manual when none
    does. *)
Theorem determineTriggerType_of_typed_nodes (nodes : list (option string)) :
  Forall typed nodes ->
  exists t,
    determineTriggerType (Some nodes) = Return t
    /\ In t ["Manual"; "Complex"; "Webhook"; "Scheduled"; "Triggered"]
    /\ (t = "Complex" <-> (2 <= List.length (filter trigger_like nodes))%nat)
    /\ (filter trigger_like nodes = [] -> t = "Manual").
Proof.
  intros H. unfold determineTriggerType.
  rewrite (Array_filter_typed H). cbn [bind].
  assert (Hsome : Forall typed (filter trigger_like nodes)).
  { apply Forall_forall. intros ty Hty. apply filter_In in Hty.
    exact (proj1 (Forall_forall _ _) H ty (proj1 Hty)). }
  destruct (filter trigger_like nodes) as [ | ty [ | ty2 rest ] ].
  - exists "Manual". cbn [In List.length]. repeat split; try tauto;
      [ discriminate | lia ].
  - inversion Hsome as [ | ? ? Hty _ ]; subst.
    destruct ty as [ s | ]; [ | exfalso; apply Hty; reflexivity ].
    cbn [type_includes bind List.length].
    destruct (JsString.includes s "webhook");
      [ | destruct (JsString.includes s "schedule");
          [ | destruct (JsString.includes s "trigger") ] ];
      eexists; (split; [ reflexivity | ]); cbn [In];
      (split; [ tauto | ]); (split; [ | discriminate ]);
      (split; [ discriminate | lia ]).
  - exists "Complex". cbn [In List.length]. repeat split; try tauto;
      [ lia | discriminate ].
Qed.

Lemma determineTriggerType_of_typed_nodes_witness :
  Forall typed [Some "n8n-nodes-base.webhook"; Some "n8n-nodes-base.slack"]
  /\ exists t,
       determineTriggerType
         (Some [Some "n8n-nodes-base.webhook"; Some "n8n-nodes-base.slack"])
       = Return t
       /\ In t ["Manual"; "Complex"; "Webhook"; "Scheduled"; "Triggered"]
       /\ (t = "Complex"
           <-> (2 <= List.length
                       (filter trigger_like
                          [Some "n8n-nodes-base.webhook"; Some "n8n-nodes-base.slack"]))%nat)
       /\ (filter trigger_like
             [Some "n8n-nodes-base.webhook"; Some "n8n-nodes-base.slack"] = []
           -> t = "Manual").
Proof.
  assert (H : Forall typed [Some "n8n-nodes-base.webhook"; Some "n8n-nodes-base.slack"]).
  { repeat constructor; discriminate. }
  split; [ exact H | ].
  exact (@determineTriggerType_of_typed_nodes _ H).
Defined.

(** X28.  One node without a type makes [determineTriggerType] throw,
    whatever the other nodes are. *)
Theorem determineTriggerType_fails_on_an_untyped_node (nodes : list (option string)) :
  In None nodes ->
  determineTriggerType (Some nodes)
  = Throw "TypeError: Cannot read properties of undefined (reading 'includes')".
Proof.
  intros H. unfold determineTriggerType.
  rewrite (Array_filter_untyped _ H). reflexivity.
Qed.

Lemma determineTriggerType_fails_on_an_untyped_node_witness :
  In None [Some "n8n-nodes-base.webhook"; None]
  /\ determineTriggerType (Some [Some "n8n-nodes-base.webhook"; None])
     = Throw "TypeError: Cannot read properties of undefined (reading 'includes')".
Proof.
  assert (H : In None [Some "n8n-nodes-base.webhook"; None]) by (cbn; tauto).
  split; [ exact H | ].
  exact (@determineTriggerType_fails_on_an_untyped_node _ H).
Defined.

(** ** The page count of the search route *)




(** The request for the page 10^24 is answered with 500, and the first
    page of one record per page with the two pages the two records
    need. *)
Example page_beyond_the_integers_is_refused :
  api_workflows buildFTSQuery ex_fts5 ex_indexed "" "all" "all" "false" (10 ^ 24) 100
  = Json500 "SqliteError: datatype mismatch"
  /\ option_map rsp_pages
       (match api_workflows buildFTSQuery ex_fts5 ex_indexed "" "all" "all" "false" 1 1 with
        | Json200 body => Some body
        | Json500 _ => None
        end)
     = Some (Num 2).
Proof. split; vm_compute; reflexivity. Qed.
